(** * The umbrella/worker supervision protocol of [lib/cli/daemoncommand.cpp]

    A shallow embedding of the Unix branch of [DaemonCommand::Run], of
    [StartUnixWorker], of the two signal handlers and of [NotifyWatchdog];
    and, each with a small model of its own, of [CloseStdIO], of [Daemonize]
    and of the worker process (the child's branch of [StartUnixWorker] and
    [RunWorker]).

    - The process-wide atomics ([l_CurrentlyStartingUnixWorkerPid], ...) are
      the fields of a record [world]; the code is written in a small state
      monad over it.
    - Everything the operating system decides (which signals arrive and when,
      what [fork], [waitpid] and [Utility::GetTime] return, whether
      [Application::InitializeBase] throws) is read from an [oracle], a family
      of answers indexed by the number of the operation that asks.  Theorems
      quantify over every oracle, hence over every interleaving of signal
      deliveries with the steps of the main flow.
    - Every operation of the main flow that touches an atomic or enters the
      kernel is preceded by a delivery point ([sync]) at which the signals the
      oracle supplies are handled.  There a handler invocation is one atomic
      step; invocations that interrupt one another are modelled apart
      ([deliver_nested]).
    - What the process does to its surroundings ([kill], [waitpid], [fork],
      [sd_notify], log lines) is appended to a [trace].
    - [for (;;)] loops take a fuel argument; when it runs out the run stops
      with [OutOfFuel] and keeps the trace produced so far.
    - [double] timestamps are idealised as exact rationals ([Q]). *)

From Stdlib Require Import String ZArith QArith List Bool Lia Lqa Sorted.
Import ListNotations.

Local Open Scope Z_scope.

(** ** Platform constants

    The signal numbers, [EINTR] and [EXIT_FAILURE] come from the C library
    headers.  The code depends only on the signal numbers being positive and
    pairwise distinct (they are the [case] labels of one [switch]). *)

(** The signals the umbrella subscribes to (the members of
    [l_UnixWorkerSignals], which are also the signals [Run] installs
    [UmbrellaSignalHandler] for). *)
Inductive usig : Type := USR1 | USR2 | CHLD | INT | TERM | HUP.

Definition usig_eqb (a b : usig) : bool :=
  match a, b with
  | USR1, USR1 | USR2, USR2 | CHLD, CHLD | INT, INT | TERM, TERM | HUP, HUP => true
  | _, _ => false
  end.

Record platform : Type := mkPlatform {
  signo : usig -> Z;
  signo_inj : forall a b, signo a = signo b -> a = b;
  signo_pos : forall a, 0 < signo a;
  EINTR : Z;
  EXIT_FAILURE : Z;
  (** whether the build defines [HAVE_SYSTEMD] *)
  HAVE_SYSTEMD : bool
}.

Definition SIGUSR1 (P : platform) : Z := signo P USR1.
Definition SIGUSR2 (P : platform) : Z := signo P USR2.
Definition SIGCHLD (P : platform) : Z := signo P CHLD.
Definition SIGINT (P : platform) : Z := signo P INT.
Definition SIGTERM (P : platform) : Z := signo P TERM.
Definition SIGHUP (P : platform) : Z := signo P HUP.

(** Linux numbering (x86, ARM). *)
Definition linux_signo (s : usig) : Z :=
  match s with
  | HUP => 1 | INT => 2 | USR1 => 10 | USR2 => 12 | TERM => 15 | CHLD => 17
  end.

Definition linux_signo_inj : forall a b, linux_signo a = linux_signo b -> a = b.
Proof. intros [] []; simpl; intros H; try reflexivity; discriminate H. Qed.

Definition linux_signo_pos : forall a, 0 < linux_signo a.
Proof. intros []; reflexivity. Qed.

Definition linux (systemd : bool) : platform :=
  mkPlatform linux_signo linux_signo_inj linux_signo_pos 4 1 systemd.

(** ** Wait status

    [WIFSIGNALED], [WTERMSIG] and [WEXITSTATUS] as glibc defines them
    (<bits/waitstatus.h>) on the [int] that [waitpid] fills in: the low seven
    bits hold the terminating signal, bit 7 the core-dump flag, bits 8-15 the
    exit status. *)

Definition WTERMSIG (status : Z) : Z := Z.land status 127.

Definition WEXITSTATUS (status : Z) : Z := Z.shiftr (Z.land status 65280) 8.

(** [(signed char)] of an [int]. *)
Definition to_signed_char (x : Z) : Z :=
  let m := x mod 256 in if m <? 128 then m else m - 256.

Definition WIFSIGNALED (status : Z) : bool :=
  0 <? Z.shiftr (to_signed_char (Z.land status 127 + 1)) 1.

(** The status the kernel reports for a child that called [_exit (code)]
    (glibc's [__W_EXITCODE (code, 0)]). *)
Definition status_exited (code : Z) : Z := Z.shiftl code 8.

(** The status reported for a child killed by [sig], with or without a core
    dump ([__W_EXITCODE (0, sig)], or-ed with [__WCOREFLAG]). *)
Definition status_signaled (sig : Z) (core : bool) : Z :=
  Z.lor sig (if core then 128 else 0).

(** Line 748: the umbrella's exit status for a reaped worker. *)
Definition exit_status_of (status : Z) : Z :=
  if WIFSIGNALED status then 128 + WTERMSIG status else WEXITSTATUS status.

(** ** Data model *)

Inductive UnixWorkerState : Type := Pending | LoadedConfig | Failed.

Definition UnixWorkerState_eqb (a b : UnixWorkerState) : bool :=
  match a, b with
  | Pending, Pending | LoadedConfig, LoadedConfig | Failed, Failed => true
  | _, _ => false
  end.

(** [siginfo_t], reduced to what the handlers read. *)
Record siginfo : Type := mkSiginfo { si_signo : usig; si_pid : Z }.

Inductive disposition : Type := SIG_DFL | SA_UmbrellaSignalHandler.

Inductive wait_options : Type := WaitBlocking | WNOHANG.

(** What one [waitpid] call yields: its return value, [errno] and the status
    word it stored. *)
Record wait_result : Type := mkWait { w_ret : Z; w_errno : Z; w_status : Z }.

Inductive sd_message : Type := SD_WATCHDOG | SD_READY | SD_RELOADING | SD_STOPPING.

Inductive log_message : Type :=
| LogSpawning
| LogUninitFailed
| LogForkFailed
| LogSpawned (pid : Z)
| LogLoadedConfig
| LogCouldntLoad
| LogReinitFailed
| LogForwardTerm (sig pid : Z)
| LogGotReload
| LogReloadAborted
| LogReloadDone (pid : Z)
| LogWaited (duration : Q)
| LogForwardReopen (sig pid : Z)
| LogWorkerStopped (pid : Z).

Inductive event : Type :=
| EvLog (m : log_message)
| EvFork (ret : Z)
| EvKill (pid sig : Z)
| EvWaitpid (pid : Z) (opts : wait_options) (r : wait_result)
| EvSdNotify (m : sd_message).

Record world : Type := mkWorld {
  l_CurrentlyStartingUnixWorkerPid : Z;
  l_CurrentlyStartingUnixWorkerState : UnixWorkerState;
  l_TermSignal : Z;
  l_RequestedReload : bool;
  l_RequestedReopenLogs : bool;
  l_LastNotifiedWatchdog : Q;
  l_UmbrellaPid : Z;
  (** the disposition of each signal number ([sigaction]) *)
  sigdisp : Z -> disposition;
  (** whether [l_UnixWorkerSignals] is blocked ([sigprocmask]), and the
      signals that arrived meanwhile *)
  sigblocked : bool;
  sigpending : list siginfo;
  (** number of delivery points passed so far *)
  tick : nat;
  (** recorder: what the process did, oldest first *)
  trace : list event;
  (** recorder: every value [l_CurrentlyStartingUnixWorkerState] has held,
      oldest first *)
  state_history : list UnixWorkerState
}.

Definition set_StartingPid (v : Z) (w : world) : world :=
  mkWorld v (l_CurrentlyStartingUnixWorkerState w) (l_TermSignal w)
    (l_RequestedReload w) (l_RequestedReopenLogs w) (l_LastNotifiedWatchdog w)
    (l_UmbrellaPid w) (sigdisp w) (sigblocked w) (sigpending w) (tick w)
    (trace w) (state_history w).

(** A store to [l_CurrentlyStartingUnixWorkerState]; the recorder notes the
    new value. *)
Definition set_StartingState (v : UnixWorkerState) (w : world) : world :=
  mkWorld (l_CurrentlyStartingUnixWorkerPid w) v (l_TermSignal w)
    (l_RequestedReload w) (l_RequestedReopenLogs w) (l_LastNotifiedWatchdog w)
    (l_UmbrellaPid w) (sigdisp w) (sigblocked w) (sigpending w) (tick w)
    (trace w) (state_history w ++ [v]).

Definition set_TermSignal (v : Z) (w : world) : world :=
  mkWorld (l_CurrentlyStartingUnixWorkerPid w) (l_CurrentlyStartingUnixWorkerState w) v
    (l_RequestedReload w) (l_RequestedReopenLogs w) (l_LastNotifiedWatchdog w)
    (l_UmbrellaPid w) (sigdisp w) (sigblocked w) (sigpending w) (tick w)
    (trace w) (state_history w).

Definition set_RequestedReload (v : bool) (w : world) : world :=
  mkWorld (l_CurrentlyStartingUnixWorkerPid w) (l_CurrentlyStartingUnixWorkerState w)
    (l_TermSignal w) v (l_RequestedReopenLogs w) (l_LastNotifiedWatchdog w)
    (l_UmbrellaPid w) (sigdisp w) (sigblocked w) (sigpending w) (tick w)
    (trace w) (state_history w).

Definition set_RequestedReopenLogs (v : bool) (w : world) : world :=
  mkWorld (l_CurrentlyStartingUnixWorkerPid w) (l_CurrentlyStartingUnixWorkerState w)
    (l_TermSignal w) (l_RequestedReload w) v (l_LastNotifiedWatchdog w)
    (l_UmbrellaPid w) (sigdisp w) (sigblocked w) (sigpending w) (tick w)
    (trace w) (state_history w).

Definition set_LastNotifiedWatchdog (v : Q) (w : world) : world :=
  mkWorld (l_CurrentlyStartingUnixWorkerPid w) (l_CurrentlyStartingUnixWorkerState w)
    (l_TermSignal w) (l_RequestedReload w) (l_RequestedReopenLogs w) v
    (l_UmbrellaPid w) (sigdisp w) (sigblocked w) (sigpending w) (tick w)
    (trace w) (state_history w).

Definition set_UmbrellaPid (v : Z) (w : world) : world :=
  mkWorld (l_CurrentlyStartingUnixWorkerPid w) (l_CurrentlyStartingUnixWorkerState w)
    (l_TermSignal w) (l_RequestedReload w) (l_RequestedReopenLogs w)
    (l_LastNotifiedWatchdog w) v (sigdisp w) (sigblocked w) (sigpending w) (tick w)
    (trace w) (state_history w).

(** [sigaction (num, &sa, nullptr)] *)
Definition set_sigdisp (num : Z) (d : disposition) (w : world) : world :=
  mkWorld (l_CurrentlyStartingUnixWorkerPid w) (l_CurrentlyStartingUnixWorkerState w)
    (l_TermSignal w) (l_RequestedReload w) (l_RequestedReopenLogs w)
    (l_LastNotifiedWatchdog w) (l_UmbrellaPid w)
    (fun n => if n =? num then d else sigdisp w n)
    (sigblocked w) (sigpending w) (tick w) (trace w) (state_history w).

Definition set_sigmask (b : bool) (p : list siginfo) (w : world) : world :=
  mkWorld (l_CurrentlyStartingUnixWorkerPid w) (l_CurrentlyStartingUnixWorkerState w)
    (l_TermSignal w) (l_RequestedReload w) (l_RequestedReopenLogs w)
    (l_LastNotifiedWatchdog w) (l_UmbrellaPid w) (sigdisp w) b p (tick w)
    (trace w) (state_history w).

Definition set_tick (n : nat) (w : world) : world :=
  mkWorld (l_CurrentlyStartingUnixWorkerPid w) (l_CurrentlyStartingUnixWorkerState w)
    (l_TermSignal w) (l_RequestedReload w) (l_RequestedReopenLogs w)
    (l_LastNotifiedWatchdog w) (l_UmbrellaPid w) (sigdisp w) (sigblocked w)
    (sigpending w) n (trace w) (state_history w).

Definition record_event (e : event) (w : world) : world :=
  mkWorld (l_CurrentlyStartingUnixWorkerPid w) (l_CurrentlyStartingUnixWorkerState w)
    (l_TermSignal w) (l_RequestedReload w) (l_RequestedReopenLogs w)
    (l_LastNotifiedWatchdog w) (l_UmbrellaPid w) (sigdisp w) (sigblocked w)
    (sigpending w) (tick w) (trace w ++ [e]) (state_history w).

(** The statics as initialised at lines 186-302 and 380, in a process whose
    signal dispositions are still the defaults. *)
Definition initial_world : world :=
  mkWorld (-1) Pending (-1) false false 0%Q 0 (fun _ => SIG_DFL) false [] 0%nat [] [Pending].

(** ** Signal handlers *)

(** [UmbrellaSignalHandler] (lines 307-351).  [None] is the failed [VERIFY]
    of the [default] label. *)
Definition UmbrellaSignalHandler (P : platform) (num : Z) (info_si_pid : Z)
    (w : world) : option world :=
  if num =? SIGUSR1 P then
    Some (set_RequestedReopenLogs true w)
  else if num =? SIGUSR2 P then
    if UnixWorkerState_eqb (l_CurrentlyStartingUnixWorkerState w) Pending
       && (info_si_pid =? l_CurrentlyStartingUnixWorkerPid w)
    then Some (set_StartingState LoadedConfig w)
    else Some w
  else if num =? SIGCHLD P then
    if UnixWorkerState_eqb (l_CurrentlyStartingUnixWorkerState w) Pending
       && (info_si_pid =? l_CurrentlyStartingUnixWorkerPid w)
    then Some (set_StartingState Failed w)
    else Some w
  else if (num =? SIGINT P) || (num =? SIGTERM P) then
    Some (set_TermSignal num (set_sigdisp num SIG_DFL w))
  else if num =? SIGHUP P then
    Some (set_RequestedReload true w)
  else None.

(** The worker's side: [l_UmbrellaPid], [l_AllowedToWork] and the shutdown
    request of the application. *)
Record worker : Type := mkWorker {
  wk_UmbrellaPid : Z;
  l_AllowedToWork : bool;
  shutdown_requested : bool
}.

(** Modelled from the spec: [Application::RequestShutdown] is declared in
    base/application.hpp and defined outside these sources; the spec calls it
    a non-blocking request for the workload to shut down.  It is modelled as
    raising a flag. *)
Definition RequestShutdown (k : worker) : worker :=
  mkWorker (wk_UmbrellaPid k) (l_AllowedToWork k) true.

(** [WorkerSignalHandler] (lines 356-376). *)
Definition WorkerSignalHandler (P : platform) (num : Z) (info_si_pid : Z)
    (k : worker) : option worker :=
  if num =? SIGUSR2 P then
    if info_si_pid =? wk_UmbrellaPid k
    then Some (mkWorker (wk_UmbrellaPid k) true (shutdown_requested k))
    else Some k
  else if (num =? SIGINT P) || (num =? SIGTERM P) then
    if info_si_pid =? wk_UmbrellaPid k
    then Some (RequestShutdown k)
    else Some k
  else None.

(** A worker handling a sequence of signals, each given by its number and
    its sender. *)
Fixpoint worker_handle_all (P : platform) (l : list (Z * Z)) (k : worker)
    : option worker :=
  match l with
  | [] => Some k
  | (num, sender) :: l' =>
      match WorkerSignalHandler P num sender k with
      | Some k' => worker_handle_all P l' k'
      | None => None
      end
  end.

(** ** The watchdog throttle

    The decision of [NotifyWatchdog] (line 389) for the time read and the
    time of the last notification: whether to notify, and the new value of
    [l_LastNotifiedWatchdog]. *)
Definition watchdog_due (now last : Q) : bool := Qle_bool (5 # 2) (now - last).

Definition NotifyWatchdog_at (now last : Q) : bool * Q :=
  if watchdog_due now last then (true, now) else (false, last).

(** The times at which a sequence of calls, made at the given times, emits a
    notification. *)
Fixpoint watchdog_emissions (calls : list Q) (last : Q) : list Q :=
  match calls with
  | [] => []
  | now :: rest =>
      let (emit, last') := NotifyWatchdog_at now last in
      if emit then now :: watchdog_emissions rest last'
      else watchdog_emissions rest last'
  end.

(** ** The environment *)

(** The answers of the operating system; [n] is the number of the delivery
    point that precedes the operation asking. *)
Record oracle : Type := mkOracle {
  (** the signals that arrive just before operation [n] *)
  o_signals : nat -> list siginfo;
  o_getpid : Z;
  o_fork : nat -> Z;
  o_waitpid : nat -> wait_result;
  (** [Utility::GetTime ()] *)
  o_time : nat -> Q;
  (** whether [Application::UninitializeBase]/[InitializeBase] throws a
      [std::exception] *)
  o_throws : nat -> bool
}.

(** ** The monad of the main flow *)

Inductive stop_reason : Type :=
| Exited (code : Z)        (* exit (code) *)
| Killed (sig : Z)         (* default action of a signal *)
| Aborted                  (* failed VERIFY *)
| InChild                  (* fork returned 0: this process is the worker *)
| OutOfFuel.

Inductive outcome (A : Type) : Type :=
| Ok (a : A) (w : world)
| Stop (r : stop_reason) (w : world).

Arguments Ok {A} a w.
Arguments Stop {A} r w.

Definition M (A : Type) : Type := world -> outcome A.

Definition ret {A : Type} (a : A) : M A := fun w => Ok a w.

Definition bind {A B : Type} (m : M A) (f : A -> M B) : M B :=
  fun w => match m w with
           | Ok a w' => f a w'
           | Stop r w' => Stop r w'
           end.

Definition stop {A : Type} (r : stop_reason) : M A := fun w => Stop r w.

Definition world_of {A : Type} (r : outcome A) : world :=
  match r with Ok _ w => w | Stop _ w => w end.

Declare Scope umbrella_scope.
Delimit Scope umbrella_scope with umbrella.
Notation "x <- m ;; k" := (bind m (fun x => k))
  (at level 61, m at next level, right associativity) : umbrella_scope.
Notation "m ;; k" := (bind m (fun _ => k))
  (at level 61, right associativity) : umbrella_scope.
Local Open Scope umbrella_scope.

Definition emit (e : event) : M unit := fun w => Ok tt (record_event e w).

(** Default action of a subscribed signal: all terminate the process but
    [SIGCHLD], which is ignored. *)
Definition default_terminates (s : usig) : bool :=
  match s with CHLD => false | _ => true end.

Section MainFlow.

Variable P : platform.
Variable o : oracle.

(** One signal reaches the process; its handler runs to completion before
    anything else happens (for a handler that is interrupted by another see
    [deliver_nested]). *)
Definition deliver (s : siginfo) : M unit := fun w =>
  let num := signo P (si_signo s) in
  match sigdisp w num with
  | SA_UmbrellaSignalHandler =>
      match UmbrellaSignalHandler P num (si_pid s) w with
      | Some w' => Ok tt w'
      | None => Stop Aborted w
      end
  | SIG_DFL =>
      if default_terminates (si_signo s) then Stop (Killed num) w else Ok tt w
  end.

Fixpoint deliver_all (l : list siginfo) : M unit :=
  match l with
  | [] => ret tt
  | s :: l' => deliver s ;; deliver_all l'
  end.

(** A delivery point: the signals the oracle supplies for this point are
    handled, or queued while the mask is in force.  Yields the number of the
    point. *)
Definition sync : M nat := fun w =>
  let n := tick w in
  let w1 := set_tick (S n) w in
  if sigblocked w1
  then Ok n (set_sigmask true (sigpending w1 ++ o_signals o n) w1)
  else (deliver_all (o_signals o n) ;; ret n) w1.

(** An access to the atomics. *)
Definition atomic {A : Type} (f : world -> A * world) : M A :=
  _ <- sync ;; fun w => let (a, w') := f w in Ok a w'.

Definition load {A : Type} (field : world -> A) : M A :=
  atomic (fun w => (field w, w)).

Definition store {A : Type} (setter : A -> world -> world) (v : A) : M unit :=
  atomic (fun w => (tt, setter v w)).

(** [l_RequestedReload.exchange (v)] and [l_RequestedReopenLogs.exchange (v)] *)
Definition RequestedReload_exchange (v : bool) (w : world) : bool * world :=
  (l_RequestedReload w, set_RequestedReload v w).

Definition RequestedReopenLogs_exchange (v : bool) (w : world) : bool * world :=
  (l_RequestedReopenLogs w, set_RequestedReopenLogs v w).

(** System and library calls. *)
Definition Log (m : log_message) : M unit := _ <- sync ;; emit (EvLog m).

Definition kill (pid sig : Z) : M unit := _ <- sync ;; emit (EvKill pid sig).

Definition sd_notify (m : sd_message) : M unit := _ <- sync ;; emit (EvSdNotify m).

Definition fork : M Z :=
  n <- sync ;; emit (EvFork (o_fork o n)) ;; ret (o_fork o n).

Definition waitpid (pid : Z) (opts : wait_options) : M wait_result :=
  n <- sync ;; emit (EvWaitpid pid opts (o_waitpid o n)) ;; ret (o_waitpid o n).

Definition GetTime : M Q := n <- sync ;; ret (o_time o n).

Definition Sleep : M unit := _ <- sync ;; ret tt.

Definition exit {A : Type} (code : Z) : M A := stop (Exited code).

Definition sigaction (num : Z) (d : disposition) : M unit :=
  _ <- sync ;; fun w => Ok tt (set_sigdisp num d w).

(** [sigprocmask (SIG_BLOCK, &l_UnixWorkerSignals, nullptr)] *)
Definition sigprocmask_BLOCK : M unit :=
  _ <- sync ;; fun w => Ok tt (set_sigmask true (sigpending w) w).

(** [sigprocmask (SIG_UNBLOCK, &l_UnixWorkerSignals, nullptr)]: the signals
    that were held back are handled before the call returns. *)
Definition sigprocmask_UNBLOCK : M unit :=
  _ <- sync ;; fun w => deliver_all (sigpending w) (set_sigmask false [] w).

(** [Application::UninitializeBase ()] and [InitializeBase ()] in their
    [try] blocks (lines 408-414 and 510-516): on a [std::exception], a log
    line and [exit (EXIT_FAILURE)].  An exception of another type is not
    caught there and would leave [StartUnixWorker] and [Run]; no run of the
    model has one. *)
Definition base_or_exit (m : log_message) : M unit :=
  n <- sync ;;
  if o_throws o n then Log m ;; exit (EXIT_FAILURE P) else ret tt.

(** [#ifdef HAVE_SYSTEMD ... #endif] *)
Definition ifdef_HAVE_SYSTEMD (m : M unit) : M unit :=
  if HAVE_SYSTEMD P then m else ret tt.

(** [NotifyWatchdog] (lines 385-393). *)
Definition NotifyWatchdog : M unit :=
  now <- GetTime ;;
  last <- load l_LastNotifiedWatchdog ;;
  let (due, last') := NotifyWatchdog_at now last in
  if due then
    sd_notify SD_WATCHDOG ;;
    store set_LastNotifiedWatchdog last'
  else ret tt.

(** [waitpid (...) == -1 && errno == EINTR] *)
Definition interrupted (r : wait_result) : bool :=
  (w_ret r =? -1) && (w_errno r =? EINTR P).

(** [while (waitpid (pid, nullptr, 0) == -1 && errno == EINTR) { NotifyWatchdog (); }]
    (lines 491-495 and 705-709). *)
Fixpoint waitpid_retry (fuel : nat) (pid : Z) : M unit :=
  match fuel with
  | O => stop OutOfFuel
  | S fuel' =>
      r <- waitpid pid WaitBlocking ;;
      if interrupted r
      then ifdef_HAVE_SYSTEMD NotifyWatchdog ;; waitpid_retry fuel' pid
      else ret tt
  end.

(** The polling loop of [StartUnixWorker] (lines 477-504); yields the value
    of [pid] after the loop. *)
Fixpoint await_worker (fuel : nat) (pid : Z) : M Z :=
  match fuel with
  | O => stop OutOfFuel
  | S fuel' =>
      ifdef_HAVE_SYSTEMD NotifyWatchdog ;;
      st <- load l_CurrentlyStartingUnixWorkerState ;;
      match st with
      | LoadedConfig => Log LogLoadedConfig ;; ret pid
      | Failed =>
          Log LogCouldntLoad ;;
          waitpid_retry fuel' pid ;;
          ret (-1)
      | Pending => Sleep ;; await_worker fuel' pid
      end
  end.

(** [StartUnixWorker] (lines 403-520), the umbrella's side of it.  In the
    child ([fork] returned 0) control passes to [RunWorker] and never comes
    back. *)
Definition StartUnixWorker (fuel : nat) : M Z :=
  Log LogSpawning ;;
  base_or_exit LogUninitFailed ;;
  sigprocmask_BLOCK ;;
  pid <- fork ;;
  if pid =? -1 then
    Log LogForkFailed ;; exit (EXIT_FAILURE P)
  else if pid =? 0 then
    stop InChild
  else
    store set_StartingPid pid ;;
    sigprocmask_UNBLOCK ;;
    Log (LogSpawned pid) ;;
    pid' <- await_worker fuel pid ;;
    store set_StartingPid (-1) ;;
    store set_StartingState Pending ;;
    base_or_exit LogReinitFailed ;;
    ret pid'.

(** ** The umbrella's main loop (lines 661-753) *)

(** Lines 666-682.  Yields the new values of [requestedTermination] and
    [notifiedTermination]. *)
Definition forward_termination (currentWorker : Z)
    (requestedTermination notifiedTermination : bool) : M (bool * bool) :=
  if negb requestedTermination then
    termSig <- load l_TermSignal ;;
    if negb (termSig =? -1) then
      Log (LogForwardTerm termSig currentWorker) ;;
      kill currentWorker termSig ;;
      if HAVE_SYSTEMD P && negb notifiedTermination
      then sd_notify SD_STOPPING ;; ret (true, true)
      else ret (true, notifiedTermination)
    else ret (requestedTermination, notifiedTermination)
  else ret (requestedTermination, notifiedTermination).

(** Lines 685-690: what a reload does before it spawns. *)
Definition reload_prelude : M unit :=
  Log LogGotReload ;;
  ifdef_HAVE_SYSTEMD (sd_notify SD_RELOADING).

(** Lines 694-723: what a reload does with the result of the spawn.  Yields
    the new value of [currentWorker]. *)
Definition reload_swap (fuel : nat) (currentWorker nextWorker : Z) : M Z :=
  currentWorker' <-
    (if nextWorker =? -1 then
       Log LogReloadAborted ;; ret currentWorker
     else
       Log (LogReloadDone nextWorker) ;;
       kill currentWorker (SIGTERM P) ;;
       start <- GetTime ;;
       waitpid_retry fuel currentWorker ;;
       finish <- GetTime ;;
       Log (LogWaited (finish - start)) ;;
       kill nextWorker (SIGUSR2 P) ;;
       ret nextWorker) ;;
  ifdef_HAVE_SYSTEMD (sd_notify SD_READY) ;;
  ret currentWorker'.

(** The body of [if (l_RequestedReload.exchange (false))] (lines 685-723). *)
Definition reload (fuel : nat) (currentWorker : Z) : M Z :=
  reload_prelude ;;
  nextWorker <- StartUnixWorker fuel ;;
  reload_swap fuel currentWorker nextWorker.

(** Lines 727-732. *)
Definition forward_reopen_logs (currentWorker : Z) : M unit :=
  requested <- atomic (RequestedReopenLogs_exchange false) ;;
  if requested then
    Log (LogForwardReopen (SIGUSR1 P) currentWorker) ;;
    kill currentWorker (SIGUSR1 P)
  else ret tt.

(** Lines 734-750.  [Some code] is [return code]. *)
Definition check_worker_exit (currentWorker : Z) (notifiedTermination : bool)
    : M (option Z) :=
  r <- waitpid currentWorker WNOHANG ;;
  if 0 <? w_ret r then
    Log (LogWorkerStopped currentWorker) ;;
    (if HAVE_SYSTEMD P && negb notifiedTermination
     then sd_notify SD_STOPPING else ret tt) ;;
    ret (Some (exit_status_of (w_status r)))
  else ret None.

Inductive loop_step : Type :=
| Continue (currentWorker : Z) (requestedTermination notifiedTermination : bool)
| Return (code : Z).

(** One pass through the body of the [for (;;)] at line 661. *)
Definition umbrella_iteration (fuel : nat) (currentWorker : Z)
    (requestedTermination notifiedTermination : bool) : M loop_step :=
  ifdef_HAVE_SYSTEMD NotifyWatchdog ;;
  flags <- forward_termination currentWorker requestedTermination notifiedTermination ;;
  requested <- atomic (RequestedReload_exchange false) ;;
  currentWorker' <- (if requested then reload fuel currentWorker else ret currentWorker) ;;
  forward_reopen_logs currentWorker' ;;
  exited <- check_worker_exit currentWorker' (snd flags) ;;
  match exited with
  | Some code => ret (Return code)
  | None => Sleep ;; ret (Continue currentWorker' (fst flags) (snd flags))
  end.

Fixpoint main_loop (fuel : nat) (currentWorker : Z)
    (requestedTermination notifiedTermination : bool) : M Z :=
  match fuel with
  | O => stop OutOfFuel
  | S fuel' =>
      r <- umbrella_iteration fuel' currentWorker requestedTermination notifiedTermination ;;
      match r with
      | Return code => ret code
      | Continue cw rt nt => main_loop fuel' cw rt nt
      end
  end.

(** Lines 626-639: [UmbrellaSignalHandler] is installed for the six signals. *)
Definition install_umbrella_handlers : M unit :=
  sigaction (SIGCHLD P) SA_UmbrellaSignalHandler ;;
  sigaction (SIGUSR1 P) SA_UmbrellaSignalHandler ;;
  sigaction (SIGUSR2 P) SA_UmbrellaSignalHandler ;;
  sigaction (SIGINT P) SA_UmbrellaSignalHandler ;;
  sigaction (SIGTERM P) SA_UmbrellaSignalHandler ;;
  sigaction (SIGHUP P) SA_UmbrellaSignalHandler.

(** [DaemonCommand::Run] from line 623 on (the Unix branch, after the PID
    file and the standard streams have been dealt with). *)
Definition Run (fuel : nat) : M Z :=
  (fun w => Ok tt (set_UmbrellaPid (o_getpid o) w)) ;;
  install_umbrella_handlers ;;
  currentWorker <- StartUnixWorker fuel ;;
  if currentWorker =? -1 then
    ret (EXIT_FAILURE P)
  else
    kill currentWorker (SIGUSR2 P) ;;
    ifdef_HAVE_SYSTEMD (sd_notify SD_READY) ;;
    main_loop fuel currentWorker false false.

End MainFlow.

(** ** Recorder vocabulary *)

(** The transitions of [l_CurrentlyStartingUnixWorkerState] the protocol
    allows: out of [Pending] into a verdict, or back to [Pending]. *)
Definition allowed_transition (a b : UnixWorkerState) : bool :=
  match a, b with
  | Pending, LoadedConfig | Pending, Failed => true
  | _, Pending => true
  | _, _ => false
  end.

Fixpoint transitions_ok (h : list UnixWorkerState) : bool :=
  match h with
  | a :: (b :: _) as t => allowed_transition a b && transitions_ok t
  | _ => true
  end.

(** The recorder is in step with the variable and shows allowed transitions
    only. *)
Definition history_ok (w : world) : Prop :=
  transitions_ok (state_history w) = true /\
  state_history w <> [] /\
  last (state_history w) Pending = l_CurrentlyStartingUnixWorkerState w.

Definition is_kill (e : event) : bool :=
  match e with EvKill _ _ => true | _ => false end.





(** What the retry loop leaves behind while it keeps going: interrupted
    waits and watchdog notifications. *)
Definition is_retry_event (P : platform) (pid : Z) (e : event) : bool :=
  match e with
  | EvWaitpid p WaitBlocking r => (p =? pid) && interrupted P r
  | EvSdNotify SD_WATCHDOG => true
  | _ => false
  end.

Definition is_forward_term (e : event) : bool :=
  match e with EvLog (LogForwardTerm _ _) => true | _ => false end.

Definition is_stopping (e : event) : bool :=
  match e with EvSdNotify SD_STOPPING => true | _ => false end.

(** The events [StartUnixWorker] can leave behind. *)
Definition is_spawn_event (e : event) : bool :=
  match e with
  | EvLog LogSpawning | EvLog LogUninitFailed | EvLog LogForkFailed
  | EvLog (LogSpawned _) | EvLog LogLoadedConfig | EvLog LogCouldntLoad
  | EvLog LogReinitFailed => true
  | EvFork _ => true
  | EvWaitpid _ WaitBlocking _ => true
  | EvSdNotify SD_WATCHDOG => true
  | _ => false
  end.



(** [supervisor notification "ready"], when the build has it. *)
Definition ready_events (P : platform) : list event :=
  if HAVE_SYSTEMD P then [EvSdNotify SD_READY] else [].

(** ** Vocabulary of the statements *)

(** The signals the worker installs [WorkerSignalHandler] for, and the
    signals (number, sender) that come from the umbrella. *)
Definition worker_signal (P : platform) (num : Z) : bool :=
  (num =? SIGUSR2 P) || (num =? SIGINT P) || (num =? SIGTERM P).

Definition from_umbrella (k : worker) (s : Z * Z) : bool :=
  snd s =? wk_UmbrellaPid k.

(** [t2] is at least the throttle interval after [t1]. *)
Definition throttle_gap (t1 t2 : Q) : Prop := (t1 + (5 # 2) <= t2)%Q.

(** [async_rely w w'] collects what the main flow may rely on when signals
    are handled between [w] and [w']. *)

Record async_rely (w w' : world) : Prop := mkRely {
  rely_trace : trace w' = trace w;
  rely_StartingPid :
    l_CurrentlyStartingUnixWorkerPid w' = l_CurrentlyStartingUnixWorkerPid w;
  rely_LastNotified : l_LastNotifiedWatchdog w' = l_LastNotifiedWatchdog w;
  rely_blocked : sigblocked w' = sigblocked w;
  rely_history : history_ok w -> history_ok w';
  rely_TermSignal : l_TermSignal w <> -1 -> l_TermSignal w' <> -1;
  rely_Reload : l_RequestedReload w = true -> l_RequestedReload w' = true;
  rely_ReopenLogs : l_RequestedReopenLogs w = true -> l_RequestedReopenLogs w' = true
}.

(** Every run of [m] relates its first world to its last one, however it
    ends. *)
Definition respects (R : world -> world -> Prop) {A : Type} (m : M A) : Prop :=
  forall w, R w (world_of (m w)).

(** The recorder of the start state stays in order. *)
Definition history_kept (w w' : world) : Prop := history_ok w -> history_ok w'.

(** No signal names the sentinel [-1] as its sender. *)
Definition senders_are_processes (o : oracle) : Prop :=
  forall n s, In s (o_signals o n) -> si_pid s <> -1.

(** The trace of [w'] extends that of [w] by events that all pass [allowed]. *)
Definition emits_only (allowed : event -> bool) (w w' : world) : Prop :=
  exists d, trace w' = trace w ++ d /\ Forall (fun e => allowed e = true) d.


(** [Run] up to the return of the first [StartUnixWorker] (lines 623-642). *)
Definition startup_spawn (P : platform) (o : oracle) (fuel : nat) : M Z :=
  (fun w => Ok tt (set_UmbrellaPid (o_getpid o) w)) ;;
  install_umbrella_handlers P o ;;
  StartUnixWorker P o fuel.

(** How many events of [d] pass [p]. *)
Definition count_events (p : event -> bool) (d : list event) : nat :=
  length (filter p d).

(** What a flag still allows: one occurrence while it is unset, none after. *)
Definition owed (flag : bool) : nat := if flag then 0%nat else 1%nat.

(** From [w] to [w'] the flags went from [rt], [nt] to [rt'], [nt'], and the
    trace gained no more forwardings and "stopping" notifications than the
    flags account for. *)
Definition spent (rt nt : bool) (w w' : world) (rt' nt' : bool) : Prop :=
  exists d, trace w' = trace w ++ d /\
    (count_events is_forward_term d + owed rt' <= owed rt)%nat /\
    (count_events is_stopping d + owed nt' <= owed nt)%nat.

Definition budget_ok {A : Type} (rt nt : bool) (flags_of : A -> bool * bool)
    (m : M A) : Prop :=
  forall w, match m w with
            | Ok a w' => spent rt nt w w' (fst (flags_of a)) (snd (flags_of a))
            | Stop _ w' => spent rt nt w w' true true
            end.

Definition is_quiet (e : event) : bool :=
  negb (is_forward_term e) && negb (is_stopping e).

Definition flags_of_step (s : loop_step) : bool * bool :=
  match s with
  | Continue _ rt nt => (rt, nt)
  | Return _ => (true, true)
  end.

(** [l_TermSignal], once set, is still set. *)
Definition TermSignal_kept (w w' : world) : Prop :=
  l_TermSignal w <> -1 -> l_TermSignal w' <> -1.

(** ** Worked runs

    A world in which the six handlers are installed, and an oracle that lets
    [fork] return [child], delivers one signal sent by [child] at delivery
    point [at_tick], answers [waitpid] as scripted, reports time 0 and never
    throws. *)

Definition handlers_installed (P : platform) (w : world) : world :=
  set_sigdisp (SIGHUP P) SA_UmbrellaSignalHandler
  (set_sigdisp (SIGTERM P) SA_UmbrellaSignalHandler
  (set_sigdisp (SIGINT P) SA_UmbrellaSignalHandler
  (set_sigdisp (SIGUSR2 P) SA_UmbrellaSignalHandler
  (set_sigdisp (SIGUSR1 P) SA_UmbrellaSignalHandler
  (set_sigdisp (SIGCHLD P) SA_UmbrellaSignalHandler w))))).

Definition scripted (s : usig) (at_tick : nat) (child : Z)
    (waits : nat -> wait_result) : oracle :=
  mkOracle (fun n => if Nat.eqb n at_tick then [mkSiginfo s child] else [])
           77 (fun _ => child) waits (fun _ => 0%Q) (fun _ => false).


(** The new worker 200 exits with status 1 before it has loaded its config. *)
Definition reload_fails : oracle :=
  scripted CHLD 7 200 (fun _ => mkWait 200 0 (status_exited 1)).

(** The first worker 200 loads its config and keeps running. *)
Definition startup_succeeds : oracle :=
  scripted USR2 11 200 (fun _ => mkWait 0 0 0).

(** No signal arrives (the scripted one lies beyond the run); the worker
    polled by [waitpid] is reported as killed by signal 9. *)
Definition worker_killed : oracle :=
  scripted USR2 1000 200 (fun _ => mkWait 101 0 (status_signaled 9 false)).

(** A [SIGTERM] sent by process 1 arrives at the first delivery point; the
    worker keeps running. *)
Definition term_arrives : oracle :=
  scripted TERM 0 1 (fun _ => mkWait 0 0 0).

(** [fork] fails; no signal arrives. *)
Definition fork_fails : oracle :=
  scripted USR2 1000 (-1) (fun _ => mkWait 0 0 0).

(** The worker 300 exits with status 1 so early that its [SIGCHLD] arrives
    right after the [fork], before the umbrella has recorded the pid. *)
Definition worker_fails_at_once : oracle :=
  scripted CHLD 4 300 (fun _ => mkWait 300 0 (status_exited 1)).

(** ** Vocabulary of the further properties *)

(** Whether [num] is one of the six signals the umbrella subscribes to. *)
Definition subscribed (P : platform) (num : Z) : bool :=
  existsb (fun s => num =? signo P s) [USR1; USR2; CHLD; INT; TERM; HUP].

Definition is_termination_signal (s : usig) : bool :=
  match s with INT | TERM => true | _ => false end.

(** The number of the last interrupt/terminate signal of [l], or [before] if
    there is none. *)
Fixpoint last_termination (P : platform) (l : list siginfo) (before : Z) : Z :=
  match l with
  | [] => before
  | s :: l' =>
      last_termination P l'
        (if is_termination_signal (si_signo s) then signo P (si_signo s) else before)
  end.

(** The log lines written before [exit (EXIT_FAILURE)]. *)
Definition is_critical (m : log_message) : bool :=
  match m with
  | LogUninitFailed | LogForkFailed | LogReinitFailed => true
  | _ => false
  end.

(** The ways a run of the umbrella may end other than by returning: by
    [exit (EXIT_FAILURE)] right after a critical log line, by the default
    action of a subscribed signal other than [SIGCHLD], as the child of a
    [fork], or for lack of fuel - not by a failed [VERIFY]. *)
Definition abnormal_end_ok (P : platform) (r : stop_reason) (w : world) : Prop :=
  match r with
  | Exited code =>
      code = EXIT_FAILURE P /\
      exists tr m, trace w = tr ++ [EvLog m] /\ is_critical m = true
  | Killed sig => exists s, sig = signo P s /\ default_terminates s = true
  | Aborted => False
  | InChild | OutOfFuel => True
  end.

Definition ends_ok (P : platform) {A : Type} (m : M A) : Prop :=
  forall w r w', m w = Stop r w' -> abnormal_end_ok P r w'.

Definition is_wait (e : event) : bool :=
  match e with EvWaitpid _ _ _ => true | _ => false end.

Definition is_fork (e : event) : bool :=
  match e with EvFork _ => true | _ => false end.

Definition is_watchdog (e : event) : bool :=
  match e with EvSdNotify SD_WATCHDOG => true | _ => false end.

(** What [StartUnixWorker] adds to the trace after the "spawned" log line when
    it returns [result] for the forked child [pid]: watchdog notifications
    and then either the "loaded" log line, for [result = pid], or the
    "couldn't load" log line and the waits that reap the child, for
    [result = -1]. *)
Definition spawn_verdict (P : platform) (pid result : Z) (d : list event) : Prop :=
  (result = pid /\
   exists wd, Forall (fun e => is_watchdog e = true) wd /\
     d = wd ++ [EvLog LogLoadedConfig]) \/
  (result = -1 /\
   exists wd waits r,
     Forall (fun e => is_watchdog e = true) wd /\
     Forall (fun e => is_retry_event P pid e = true) waits /\
     interrupted P r = false /\
     d = wd ++ [EvLog LogCouldntLoad] ++ waits ++ [EvWaitpid pid WaitBlocking r]).

(** [p] is a child the umbrella has forked, as far as [tr] records: a pid
    other than [-1] and [0] that a [fork] in [tr] returned. *)
Definition child_of (tr : list event) (p : Z) : Prop :=
  p <> -1 /\ p <> 0 /\ In (EvFork p) tr.

(** Every [kill] of [tr] goes to a child forked earlier in [tr]. *)
Definition kills_children (tr : list event) : Prop :=
  forall d1 p s d2, tr = d1 ++ EvKill p s :: d2 -> child_of d1 p.

(** [e] is no [kill], or a [kill] of one of [targets]. *)
Definition kills_only (targets : list Z) (e : event) : bool :=
  match e with
  | EvKill p _ => existsb (Z.eqb p) targets
  | _ => true
  end.

(** From a trace whose kills go to children and in which [cw] is a child,
    [m] leads to such a trace again, however it ends, and to [post] when it
    returns. *)
Definition kc_ok {A : Type} (cw : Z) (post : A -> list event -> Prop) (m : M A) : Prop :=
  forall w, kills_children (trace w) -> child_of (trace w) cw ->
    match m w with
    | Ok a w' => kills_children (trace w') /\ post a (trace w')
    | Stop _ w' => kills_children (trace w')
    end.

(** [supervisor notification "reloading"], when the build has it. *)
Definition reloading_events (P : platform) : list event :=
  if HAVE_SYSTEMD P then [EvSdNotify SD_RELOADING] else [].

(** No supervisor notification but the watchdog keepalive. *)
Definition is_no_status_change (e : event) : bool :=
  match e with
  | EvSdNotify SD_WATCHDOG => true
  | EvSdNotify _ => false
  | _ => true
  end.

(** How many "stopping" notifications are due from a state in which
    [notifiedTermination] is [nt]. *)
Definition stopping_due (P : platform) (nt : bool) : nat :=
  if HAVE_SYSTEMD P then owed nt else 0%nat.

(** The verdict a signal of the child records, and what [StartUnixWorker]
    returns for it. *)
Definition verdict_of (s : usig) : UnixWorkerState :=
  match s with USR2 => LoadedConfig | CHLD => Failed | _ => Pending end.

Definition spawn_result_of (s : usig) (pid : Z) : Z :=
  match s with USR2 => pid | _ => -1 end.

(** While [StartUnixWorker] polls for the verdict on child [pid], with the
    child's one signal [s] due at delivery point [k]: the mask is off, the
    handler is installed, the pid is recorded, and the state is [Pending] up
    to point [k] and the verdict after it. *)
Definition handshake_inv (P : platform) (k : nat) (pid : Z) (s : usig) (w : world) : Prop :=
  sigblocked w = false /\
  sigdisp w (signo P s) = SA_UmbrellaSignalHandler /\
  l_CurrentlyStartingUnixWorkerPid w = pid /\
  (((tick w <= k)%nat /\ l_CurrentlyStartingUnixWorkerState w = Pending) \/
   ((k < tick w)%nat /\ l_CurrentlyStartingUnixWorkerState w = verdict_of s)).

(** [m] returns from every world that satisfies the invariant, in a world
    that satisfies it again, at least [n] delivery points later, with a
    value that meets [Q]. *)
Definition handshake_total (P : platform) (k : nat) (pid : Z) (s : usig)
    {A : Type} (n : nat) (m : M A) (Q : A -> world -> Prop) : Prop :=
  forall w, handshake_inv P k pid s w ->
    exists a w', m w = Ok a w' /\ handshake_inv P k pid s w' /\
                 (tick w + n <= tick w')%nat /\ Q a w'.

(** ** The standard descriptors ([CloseStdIO], lines 116-149) *)

(** The ways [CloseStdIO] opens a file. *)
Inductive open_flags : Type :=
| O_RDWR                          (* open (path, O_RDWR) *)
| O_WRONLY_APPEND                 (* open (path, O_WRONLY | O_APPEND) *)
| O_CREAT_WRONLY_APPEND_0600.     (* open (path, O_CREAT | O_WRONLY | O_APPEND, 0600) *)

(** What a descriptor refers to. *)
Record open_file : Type := mkOpenFile {
  of_path : string;
  of_flags : open_flags
}.

(** The descriptor table of the process: [None] for a descriptor that is
    not open. *)
Definition fdtable : Type := Z -> option open_file.

(** What the kernel answers to [open]: the descriptor or [-1], and
    [errno]. *)
Record open_result : Type := mkOpenResult {
  open_ret : Z;
  open_errno : Z
}.

(** The kernel's choice, which may depend on the table, the path and the
    flags. *)
Definition open_oracle : Type := fdtable -> string -> open_flags -> open_result.

Definition fd_set (fd : Z) (f : option open_file) (t : fdtable) : fdtable :=
  fun x => if x =? fd then f else t x.

Definition open (k : open_oracle) (path : string) (flags : open_flags)
    (t : fdtable) : open_result * fdtable :=
  let r := k t path flags in
  if 0 <=? open_ret r
  then (r, fd_set (open_ret r) (Some (mkOpenFile path flags)) t)
  else (r, t).

(** [dup2 (oldfd, newfd)]: [newfd] is made to refer to what [oldfd] refers
    to; with [oldfd] not open the call fails and changes nothing. *)
Definition dup2 (oldfd newfd : Z) (t : fdtable) : fdtable :=
  match t oldfd with
  | Some f => fd_set newfd (Some f) t
  | None => t
  end.

Definition close (fd : Z) (t : fdtable) : fdtable := fd_set fd None t.

Definition dev_null : string := "/dev/null"%string.

Definition IsEmpty (s : string) : bool :=
  match s with EmptyString => true | _ => false end.

(** Lines 119-129. *)
Definition redirect_stdin_stdout (k : open_oracle) (t : fdtable) : fdtable :=
  let (r, t1) := open k dev_null O_RDWR t in
  let fdnull := open_ret r in
  if 0 <=? fdnull then
    let t2 := if negb (fdnull =? 0) then dup2 fdnull 0 t1 else t1 in
    let t3 := if negb (fdnull =? 1) then dup2 fdnull 1 t2 else t2 in
    if 1 <? fdnull then close fdnull t3 else t3
  else t1.

(** Lines 131-134. *)
Definition errPath (stderrFile : string) : string :=
  if negb (IsEmpty stderrFile) then stderrFile else dev_null.

(** Lines 136-139; yields [fderr]. *)
Definition open_stderr (ENOENT : Z) (k : open_oracle) (path : string)
    (t : fdtable) : Z * fdtable :=
  let (r, t1) := open k path O_WRONLY_APPEND t in
  if (open_ret r <? 0) && (open_errno r =? ENOENT) then
    let (r', t2) := open k path O_CREAT_WRONLY_APPEND_0600 t1 in
    (open_ret r', t2)
  else (open_ret r, t1).

(** Lines 136-147. *)
Definition redirect_stderr (ENOENT : Z) (k : open_oracle) (stderrFile : string)
    (t : fdtable) : fdtable :=
  let (fderr, t1) := open_stderr ENOENT k (errPath stderrFile) t in
  if 0 <=? fderr then
    let t2 := if negb (fderr =? 2) then dup2 fderr 2 t1 else t1 in
    if 2 <? fderr then close fderr t2 else t2
  else t1.

Definition CloseStdIO (ENOENT : Z) (k : open_oracle) (stderrFile : string)
    (t : fdtable) : fdtable :=
  redirect_stderr ENOENT k stderrFile (redirect_stdin_stdout k t).

(** A kernel hands out only descriptors that are not in use. *)
Definition hands_out_unused (k : open_oracle) : Prop :=
  forall t path flags,
    0 <= open_ret (k t path flags) -> t (open_ret (k t path flags)) = None.

(** The lowest descriptor not in use among [fd], [fd + 1], ..., [n] of
    them; [-1] when all are in use. *)
Fixpoint lowest_unused (t : fdtable) (fd : Z) (n : nat) : Z :=
  match n with
  | O => -1
  | S n' => match t fd with
            | None => fd
            | Some _ => lowest_unused t (fd + 1) n'
            end
  end.

(** An [open] as POSIX has it: the lowest descriptor not in use; a file
    that is [missing] is not opened without [O_CREAT], with [errno] set to
    [ENOENT]. *)
Definition posix_open (ENOENT : Z) (missing : string -> bool) : open_oracle :=
  fun t path flags =>
    match flags with
    | O_CREAT_WRONLY_APPEND_0600 => mkOpenResult (lowest_unused t 0 64) 0
    | _ => if missing path then mkOpenResult (-1) ENOENT
           else mkOpenResult (lowest_unused t 0 64) 0
    end.

(** A terminal on the three standard descriptors, nothing else open. *)
Definition on_terminal : fdtable :=
  fun fd => if (0 <=? fd) && (fd <=? 2)
            then Some (mkOpenFile "/dev/tty"%string O_RDWR) else None.

(** ** Detaching from the terminal ([Daemonize], lines 51-114) *)

Definition EXIT_SUCCESS : Z := 0.

(** What the system answers to [Daemonize]: whether
    [Application::UninitializeBase] and [InitializeBase] throw, the results
    of [fork] and [setsid], and, for each round of the parent's loop, the
    results of [Application::ReadPidFile] and of
    [waitpid (pid, &status, WNOHANG)]. *)
Record daemonize_oracle : Type := mkDaemonizeOracle {
  dz_UninitializeBase_throws : bool;
  dz_fork : Z;
  dz_ReadPidFile : nat -> Z;
  dz_waitpid : nat -> Z;
  dz_setsid : Z;
  dz_InitializeBase_throws : bool
}.

(** How a call of [Daemonize] ends. *)
Inductive daemonize_end : Type :=
| DzReturns                  (* control is back in [Run] *)
| DzExit (code : Z)          (* exit (code), which runs the exit handlers *)
| DzUnderscoreExit (code : Z) (* _exit (code), which does not *)
| DzOutOfFuel.

Inductive daemonize_log : Type :=
| DzLogStopFailed       (* "Failed to stop thread pool before daemonizing, ..." *)
| DzLogForkFailed       (* "fork() failed with error code ..." *)
| DzLogNotStarted       (* "The daemon could not be started. ..." *)
| DzLogWaitpidFailed    (* "waitpid() failed with error code ..." *)
| DzLogChildContinues   (* "Child process with PID ... continues; ..." *)
| DzLogSetsidFailed     (* "setsid() failed with error code ..." *)
| DzLogReinitFailed.    (* "Failed to re-initialize thread pool after daemonizing: ..." *)

(** The parent's loop (lines 76-81), from round [n] on; yields the last
    [ret]. *)
Fixpoint Daemonize_wait (o : daemonize_oracle) (pid : Z) (fuel n : nat) : option Z :=
  match fuel with
  | O => None
  | S fuel' =>
      let readpid := dz_ReadPidFile o n in
      let ret := dz_waitpid o n in
      if negb (readpid =? pid) && (ret =? 0)
      then Daemonize_wait o pid fuel' (S n)
      else Some ret
  end.

(** [Daemonize], in a run in which no signal arrives; yields how it ends and
    the lines it has logged. *)
Definition Daemonize (P : platform) (o : daemonize_oracle) (fuel : nat)
    : daemonize_end * list daemonize_log :=
  if dz_UninitializeBase_throws o then (DzExit (EXIT_FAILURE P), [DzLogStopFailed])
  else
    let pid := dz_fork o in
    if pid =? -1 then (DzExit (EXIT_FAILURE P), [DzLogForkFailed])
    else if negb (pid =? 0) then
      match Daemonize_wait o pid fuel 0 with
      | None => (DzOutOfFuel, [])
      | Some ret =>
          if ret =? pid then (DzUnderscoreExit (EXIT_FAILURE P), [DzLogNotStarted])
          else if ret =? -1 then (DzUnderscoreExit (EXIT_FAILURE P), [DzLogWaitpidFailed])
          else (DzUnderscoreExit EXIT_SUCCESS, [])
      end
    else if dz_setsid o =? -1
    then (DzExit (EXIT_FAILURE P), [DzLogChildContinues; DzLogSetsidFailed])
    else if dz_InitializeBase_throws o
    then (DzExit (EXIT_FAILURE P), [DzLogChildContinues; DzLogReinitFailed])
    else (DzReturns, [DzLogChildContinues]).

(** The daemon 500 has written its pid file by the third round. *)
Definition daemon_starts : daemonize_oracle :=
  mkDaemonizeOracle false 500 (fun n => if (n <? 2)%nat then 0 else 500)
    (fun _ => 0) 501 false.

(** The daemon 500 has written its pid file and died by the third round. *)
Definition daemon_dies : daemonize_oracle :=
  mkDaemonizeOracle false 500 (fun n => if (n <? 2)%nat then 0 else 500)
    (fun n => if (n <? 2)%nat then 0 else 500) 501 false.

(** ** The worker process

    The child's branch of [StartUnixWorker] (lines 429-467) and [RunWorker]
    (lines 199-261), in the Unix build.  The child starts as a copy of the
    umbrella at the [fork]; it has its own dispositions, mask, pending
    signals and trace. *)

(** Who handles a signal in the child. *)
Inductive child_disposition : Type :=
| CD_SIG_DFL
| CD_UmbrellaSignalHandler      (* inherited over the [fork] *)
| CD_WorkerSignalHandler.

Inductive worker_log : Type :=
| WLogLoading          (* "Loading configuration file(s)." *)
| WLogNotifying        (* "Notifying umbrella process (PID ...) about the config loading success" *)
| WLogWaiting          (* "Waiting for the umbrella process to let us doing the actual work" *)
| WLogContinuing       (* "The umbrella process let us continuing" *)
| WLogRestoreFailed    (* "Failed to restore state file: ..." *)
| WLogActivateFailed   (* "Error activating configuration." *)
| WLogCannotClean      (* "Cannot clean ignored downtimes/comments: ..." *)
| WLogReinitFailed.    (* "Failed to re-initialize thread pool after forking (child): ..." *)

(** The calls into the rest of the program. *)
Inductive lib_call : Type :=
| InitializeBase          (* Application::InitializeBase () *)
| LoadConfigFiles         (* DaemonUtility::LoadConfigFiles (...) *)
| RestoreObjects          (* ConfigObject::RestoreObjects (...) *)
| ActivateItems           (* ConfigItem::ActivateItems (...) *)
| CreateStorage           (* ConfigObjectUtility::CreateStorage () *)
| RemoveIgnoredItems      (* ConfigItem::RemoveIgnoredItems (...) *)
| UpdateObjectAuthority   (* ApiListener::UpdateObjectAuthority () *)
| ApplicationRun.         (* Application::GetInstance ()->Run () *)

(** Such a call returns a value ([bool]s as 0 and 1), throws a
    [std::exception], or throws something else. *)
Inductive lib_answer : Type :=
| Returned (v : Z)
| Threw
| ThrewOther.

Inductive child_event : Type :=
| CEvLog (m : worker_log)
| CEvKill (pid sig : Z)
| CEvCall (c : lib_call) (a : lib_answer)
| CEvUmbrellaHandler (num sender : Z)   (* [UmbrellaSignalHandler] ran *)
| CEvWorkerHandler (num sender : Z).    (* [WorkerSignalHandler] ran *)

Record child : Type := mkChild {
  ch_worker : worker;
  ch_sigdisp : Z -> child_disposition;
  ch_sigblocked : bool;
  ch_sigpending : list siginfo;
  ch_tick : nat;
  ch_trace : list child_event
}.

Definition ch_set_worker (k : worker) (c : child) : child :=
  mkChild k (ch_sigdisp c) (ch_sigblocked c) (ch_sigpending c) (ch_tick c) (ch_trace c).

Definition ch_set_sigdisp (num : Z) (d : child_disposition) (c : child) : child :=
  mkChild (ch_worker c) (fun n => if n =? num then d else ch_sigdisp c n)
    (ch_sigblocked c) (ch_sigpending c) (ch_tick c) (ch_trace c).

Definition ch_set_sigmask (b : bool) (p : list siginfo) (c : child) : child :=
  mkChild (ch_worker c) (ch_sigdisp c) b p (ch_tick c) (ch_trace c).

Definition ch_set_tick (n : nat) (c : child) : child :=
  mkChild (ch_worker c) (ch_sigdisp c) (ch_sigblocked c) (ch_sigpending c) n (ch_trace c).

Definition ch_record (e : child_event) (c : child) : child :=
  mkChild (ch_worker c) (ch_sigdisp c) (ch_sigblocked c) (ch_sigpending c) (ch_tick c)
    (ch_trace c ++ [e]).

(** The child right after the [fork] that left the umbrella in [w]: it has
    the umbrella's dispositions and mask and [l_UmbrellaPid], no pending
    signal, and [l_AllowedToWork] as initialised at line 189. *)
Definition child_at_fork (w : world) : child :=
  mkChild (mkWorker (l_UmbrellaPid w) false false)
    (fun n => match sigdisp w n with
              | SIG_DFL => CD_SIG_DFL
              | SA_UmbrellaSignalHandler => CD_UmbrellaSignalHandler
              end)
    (sigblocked w) [] 0%nat [].

(** The answers of the operating system and of the rest of the program to
    the child, by the number of the delivery point that precedes the
    operation asking. *)
Record child_oracle : Type := mkChildOracle {
  co_signals : nat -> list siginfo;
  co_lib : nat -> lib_answer
}.

Inductive child_stop : Type :=
| CExited (code : Z)      (* _exit (code) *)
| CKilled (sig : Z)       (* default action of a signal *)
| CAborted                (* failed VERIFY *)
| CThrown                 (* an exception on its way up *)
| COutOfFuel.

Inductive child_outcome (A : Type) : Type :=
| COk (a : A) (c : child)
| CStop (r : child_stop) (c : child).

Arguments COk {A} a c.
Arguments CStop {A} r c.

Definition C (A : Type) : Type := child -> child_outcome A.

Definition cret {A : Type} (a : A) : C A := fun c => COk a c.

Definition cbind {A B : Type} (m : C A) (f : A -> C B) : C B :=
  fun c => match m c with
           | COk a c' => f a c'
           | CStop r c' => CStop r c'
           end.

Definition cstop {A : Type} (r : child_stop) : C A := fun c => CStop r c.

Definition final_child {A : Type} (r : child_outcome A) : child :=
  match r with COk _ c => c | CStop _ c => c end.

Definition reason_of {A : Type} (r : child_outcome A) : option child_stop :=
  match r with COk _ _ => None | CStop r _ => Some r end.

Declare Scope child_scope.
Delimit Scope child_scope with child.
Notation "x <- m ;; k" := (cbind m (fun x => k))
  (at level 61, m at next level, right associativity) : child_scope.
Notation "m ;; k" := (cbind m (fun _ => k))
  (at level 61, right associativity) : child_scope.

Section WorkerFlow.

Local Open Scope child_scope.

Variable P : platform.
Variable o : child_oracle.

(** One signal reaches the child. *)
Definition child_deliver (s : siginfo) : C unit := fun c =>
  let num := signo P (si_signo s) in
  match ch_sigdisp c num with
  | CD_UmbrellaSignalHandler =>
      COk tt (ch_record (CEvUmbrellaHandler num (si_pid s)) c)
  | CD_WorkerSignalHandler =>
      match WorkerSignalHandler P num (si_pid s) (ch_worker c) with
      | Some k => COk tt (ch_record (CEvWorkerHandler num (si_pid s)) (ch_set_worker k c))
      | None => CStop CAborted c
      end
  | CD_SIG_DFL =>
      if default_terminates (si_signo s) then CStop (CKilled num) c else COk tt c
  end.

Fixpoint child_deliver_all (l : list siginfo) : C unit :=
  match l with
  | [] => cret tt
  | s :: l' => child_deliver s ;; child_deliver_all l'
  end.

(** A delivery point of the child. *)
Definition child_sync : C nat := fun c =>
  let n := ch_tick c in
  let c1 := ch_set_tick (S n) c in
  if ch_sigblocked c1
  then COk n (ch_set_sigmask true (ch_sigpending c1 ++ co_signals o n) c1)
  else (child_deliver_all (co_signals o n) ;; cret n) c1.

Definition child_emit (e : child_event) : C unit := fun c => COk tt (ch_record e c).

Definition child_Log (m : worker_log) : C unit := _ <- child_sync ;; child_emit (CEvLog m).

Definition child_kill (pid sig : Z) : C unit := _ <- child_sync ;; child_emit (CEvKill pid sig).

Definition child_Sleep : C unit := _ <- child_sync ;; cret tt.

Definition child_sigaction (num : Z) (d : child_disposition) : C unit :=
  _ <- child_sync ;; fun c => COk tt (ch_set_sigdisp num d c).

Definition child_sigprocmask_UNBLOCK : C unit :=
  _ <- child_sync ;;
  fun c => child_deliver_all (ch_sigpending c) (ch_set_sigmask false [] c).

(** [l_AllowedToWork.load ()] *)
Definition load_AllowedToWork : C bool :=
  _ <- child_sync ;; fun c => COk (l_AllowedToWork (ch_worker c)) c.

(** A call into the rest of the program, with what it answers.  Where the
    call stands in a [try] block with [catch (const std::exception&)], the
    caller handles [Threw] there and lets [ThrewOther] pass. *)
Definition try_call (c : lib_call) : C lib_answer :=
  n <- child_sync ;; child_emit (CEvCall c (co_lib o n)) ;; cret (co_lib o n).

(** A call outside any [try] block of [RunWorker]: an exception leaves
    [RunWorker]. *)
Definition call (c : lib_call) : C Z :=
  a <- try_call c ;;
  match a with
  | Returned v => cret v
  | Threw | ThrewOther => cstop CThrown
  end.

Definition _exit {A : Type} (code : Z) : C A := cstop (CExited code).

(** [while (!l_AllowedToWork.load ()) { Utility::Sleep (0.2); }]
    (lines 219-221) *)
Fixpoint wait_AllowedToWork (fuel : nat) : C unit :=
  match fuel with
  | O => cstop COutOfFuel
  | S fuel' =>
      allowed <- load_AllowedToWork ;;
      if negb allowed then child_Sleep ;; wait_AllowedToWork fuel' else cret tt
  end.

(** [RunWorker] (lines 199-261). *)
Definition RunWorker (fuel : nat) : C Z :=
  child_Log WLogLoading ;;
  loaded <- call LoadConfigFiles ;;
  if loaded =? 0 then cret (EXIT_FAILURE P)
  else
    child_Log WLogNotifying ;;
    umbrella <- (fun c => COk (wk_UmbrellaPid (ch_worker c)) c) ;;
    child_kill umbrella (SIGUSR2 P) ;;
    child_Log WLogWaiting ;;
    wait_AllowedToWork fuel ;;
    child_Log WLogContinuing ;;
    restored <- try_call RestoreObjects ;;
    match restored with
    | Threw => child_Log WLogRestoreFailed ;; cret (EXIT_FAILURE P)
    | ThrewOther => cstop CThrown
    | Returned _ =>
        activated <- call ActivateItems ;;
        if activated =? 0 then child_Log WLogActivateFailed ;; cret (EXIT_FAILURE P)
        else
          call CreateStorage ;;
          removed <- try_call RemoveIgnoredItems ;;
          match removed with
          | Threw => child_Log WLogCannotClean
          | ThrewOther => cstop CThrown
          | Returned _ => cret tt
          end ;;
          call UpdateObjectAuthority ;;
          call ApplicationRun
    end.

(** [try { ... } catch (...) { _exit (EXIT_FAILURE); }] (lines 430-467) *)
Definition catch_all {A : Type} (m : C A) : C A := fun c =>
  match m c with
  | CStop CThrown c' => CStop (CExited (EXIT_FAILURE P)) c'
  | r => r
  end.

(** The child's dispositions and mask (lines 431-454). *)
Definition child_setup : C unit :=
  child_sigaction (SIGCHLD P) CD_SIG_DFL ;;
  child_sigaction (SIGUSR1 P) CD_SIG_DFL ;;
  child_sigaction (SIGHUP P) CD_SIG_DFL ;;
  child_sigaction (SIGUSR2 P) CD_WorkerSignalHandler ;;
  child_sigaction (SIGINT P) CD_WorkerSignalHandler ;;
  child_sigaction (SIGTERM P) CD_WorkerSignalHandler ;;
  child_sigprocmask_UNBLOCK.

(** [case 0:] of [StartUnixWorker] (lines 429-467). *)
Definition child_branch (fuel : nat) : C unit :=
  catch_all (
    child_setup ;;
    initialized <- try_call InitializeBase ;;
    match initialized with
    | Threw => child_Log WLogReinitFailed ;; _exit (EXIT_FAILURE P)
    | ThrewOther => cstop CThrown
    | Returned _ => code <- RunWorker fuel ;; _exit code
    end).

End WorkerFlow.

(** *** Vocabulary of the worker's properties *)

Definition is_child_kill (e : child_event) : bool :=
  match e with CEvKill _ _ => true | _ => false end.

Definition is_umbrella_handler (e : child_event) : bool :=
  match e with CEvUmbrellaHandler _ _ => true | _ => false end.

(** [LoadConfigFiles] has returned [true]. *)
Definition is_config_loaded (e : child_event) : bool :=
  match e with
  | CEvCall LoadConfigFiles (Returned v) => negb (v =? 0)
  | _ => false
  end.

(** What [RunWorker] does past its gate (lines 223-260). *)
Definition is_beyond_gate (e : child_event) : bool :=
  match e with
  | CEvLog WLogContinuing | CEvLog WLogRestoreFailed | CEvLog WLogActivateFailed
  | CEvLog WLogCannotClean => true
  | CEvCall RestoreObjects _ | CEvCall ActivateItems _ | CEvCall CreateStorage _
  | CEvCall RemoveIgnoredItems _ | CEvCall UpdateObjectAuthority _
  | CEvCall ApplicationRun _ => true
  | _ => false
  end.

(** The worker has reported to umbrella [u] that its configuration is
    loaded. *)
Definition reported_to (P : platform) (u : Z) : child_event := CEvKill u (SIGUSR2 P).

(** [WorkerSignalHandler] has handled a [SIGUSR2] sent by process [u]. *)
Definition released_by (P : platform) (u : Z) : child_event :=
  CEvWorkerHandler (SIGUSR2 P) u.

(** The order of events in a worker of umbrella [u]: the umbrella's handler
    never runs; the only signal sent is the report to the umbrella, after
    the configuration was loaded; nothing past the gate happens before the
    report was sent and the umbrella's release was handled. *)
Definition worker_order (P : platform) (u : Z) (tr : list child_event) : Prop :=
  forall d1 e d2, tr = d1 ++ e :: d2 ->
    is_umbrella_handler e = false /\
    (is_child_kill e = true ->
       e = reported_to P u /\ existsb is_config_loaded d1 = true) /\
    (is_beyond_gate e = true ->
       In (released_by P u) d1 /\ In (reported_to P u) d1).

(** The dispositions the child has set up by line 452. *)
Definition worker_dispositions (P : platform) (c : child) : Prop :=
  forall s, ch_sigdisp c (signo P s) =
            if worker_signal P (signo P s) then CD_WorkerSignalHandler else CD_SIG_DFL.

(** The child of umbrella [u] while it sets up its dispositions (lines
    431-452): the mask is on, nothing has been handled or done yet. *)
Definition child_in_setup (u : Z) (c : child) : Prop :=
  ch_sigblocked c = true /\
  ch_trace c = [] /\
  wk_UmbrellaPid (ch_worker c) = u /\
  l_AllowedToWork (ch_worker c) = false.

(** What holds of the worker of umbrella [u] at every point after
    line 454. *)
Definition worker_inv (P : platform) (u : Z) (c : child) : Prop :=
  ch_sigblocked c = false /\
  wk_UmbrellaPid (ch_worker c) = u /\
  worker_dispositions P c /\
  (l_AllowedToWork (ch_worker c) = true -> In (released_by P u) (ch_trace c)) /\
  worker_order P u (ch_trace c).

(** How far [RunWorker] has got: 1 with the configuration loaded, 2 with
    the report sent, 3 with the gate open. *)
Definition at_stage (P : platform) (u : Z) (n : nat) (c : child) : Prop :=
  ((1 <= n)%nat -> existsb is_config_loaded (ch_trace c) = true) /\
  ((2 <= n)%nat -> In (reported_to P u) (ch_trace c)) /\
  ((3 <= n)%nat -> l_AllowedToWork (ch_worker c) = true).

(** The ways a worker may stop: not by a failed [VERIFY], and by the
    default action of no other signal than [SIGUSR1] and [SIGHUP]. *)
Definition worker_stop_ok (P : platform) (r : child_stop) : Prop :=
  match r with
  | CAborted => False
  | CKilled sig => sig = SIGUSR1 P \/ sig = SIGHUP P
  | _ => True
  end.

(** From a worker at stage [n], [m] keeps [worker_inv], stops in the ways
    of [worker_stop_ok] only, and returns [a] at stage [n' a] at least. *)
Definition worker_step (P : platform) (u : Z) {A : Type}
    (n : nat) (m : C A) (n' : A -> nat) : Prop :=
  forall c, worker_inv P u c -> at_stage P u n c ->
    match m c with
    | COk a c' => worker_inv P u c' /\ at_stage P u (n' a) c'
    | CStop r c' => worker_inv P u c' /\ worker_stop_ok P r
    end.

(** The umbrella releases the worker at delivery point 12; every call
    succeeds and the workload ends with status 0. *)
Definition worker_released (umbrella : Z) : child_oracle :=
  mkChildOracle (fun n => if Nat.eqb n 12 then [mkSiginfo USR2 umbrella] else [])
                (fun n => if Nat.eqb n 20 then Returned 0 else Returned 1).

(** [m] never stops as the child of a [fork]. *)
Definition not_in_child {A : Type} (m : M A) : Prop :=
  forall w r w', m w = Stop r w' -> r <> InChild.

(** [fork] returns 0: the process is the new worker.  No signal arrives. *)
Definition becomes_child : oracle :=
  scripted USR2 1000 0 (fun _ => mkWait 0 0 0).

(** The umbrella 77 with its handlers installed, as [StartUnixWorker] finds
    it. *)
Definition umbrella_77 : world :=
  set_UmbrellaPid 77 (handlers_installed (linux true) initial_world).

(** ** Handler invocations that nest

    [Run] installs [UmbrellaSignalHandler] with an empty [sa_mask] (line 628
    zeroes the [struct sigaction]) and without [SA_NODEFER]: while the
    handler runs for one signal, that signal alone is held back; the handler
    of any other subscribed signal may run between two steps of it.
    [deliver] above is the case in which no invocation is interrupted. *)

(** One invocation of the handler, for signal [s], with the invocations
    that interrupt it: [before] its first step and [inside] it, ahead of its
    last store - for [SIGUSR2] and [SIGCHLD] after the condition of the [if]
    (lines 315-316 and 322-323) has been evaluated, for [SIGINT] and
    [SIGTERM] after the [sigaction] of line 337. *)
#[warnings="-register-all"] Inductive invocation : Type :=
| Invocation (s : siginfo) (before inside : list invocation).

(** The kernel does not deliver a signal while its own handler runs. *)
Fixpoint well_nested (running : list usig) (i : invocation) : bool :=
  match i with
  | Invocation s before inside =>
      negb (existsb (usig_eqb (si_signo s)) running)
      && forallb (well_nested (si_signo s :: running)) before
      && forallb (well_nested (si_signo s :: running)) inside
  end.

(** A signal reaches the process, its handler being interrupted as [i]
    says.  The steps of the handler are those of lines 309-350. *)
Fixpoint deliver_nested (P : platform) (i : invocation) : M unit :=
  match i with
  | Invocation s before inside =>
      let interrupted_by :=
        fix interrupted_by (l : list invocation) : M unit :=
          match l with
          | [] => ret tt
          | j :: l' => deliver_nested P j ;; interrupted_by l'
          end in
      let num := signo P (si_signo s) in
      fun w =>
        match sigdisp w num with
        | SIG_DFL =>
            if default_terminates (si_signo s) then Stop (Killed num) w else Ok tt w
        | SA_UmbrellaSignalHandler =>
            (interrupted_by before ;;
             match si_signo s with
             | USR1 =>
                 interrupted_by inside ;;
                 fun w2 => Ok tt (set_RequestedReopenLogs true w2)
             | USR2 =>
                 fun w1 =>
                   let pending_and_ours :=
                     UnixWorkerState_eqb (l_CurrentlyStartingUnixWorkerState w1) Pending
                     && (si_pid s =? l_CurrentlyStartingUnixWorkerPid w1) in
                   (interrupted_by inside ;;
                    fun w2 => Ok tt (if pending_and_ours
                                     then set_StartingState LoadedConfig w2 else w2)) w1
             | CHLD =>
                 fun w1 =>
                   let pending_and_ours :=
                     UnixWorkerState_eqb (l_CurrentlyStartingUnixWorkerState w1) Pending
                     && (si_pid s =? l_CurrentlyStartingUnixWorkerPid w1) in
                   (interrupted_by inside ;;
                    fun w2 => Ok tt (if pending_and_ours
                                     then set_StartingState Failed w2 else w2)) w1
             | INT | TERM =>
                 (fun w1 => Ok tt (set_sigdisp num SIG_DFL w1)) ;;
                 interrupted_by inside ;;
                 fun w2 => Ok tt (set_TermSignal num w2)
             | HUP =>
                 interrupted_by inside ;;
                 fun w2 => Ok tt (set_RequestedReload true w2)
             end) w
        end
  end.

(** The umbrella while it polls for the verdict on child 200 (lines 477-504):
    handlers installed, the pid recorded, the state [Pending]. *)
Definition polling_for_200 : world :=
  set_StartingPid 200 (handlers_installed (linux true) initial_world).

(** Child 200 reports its configuration as loaded and dies at once: its
    [SIGCHLD] interrupts the handler of its [SIGUSR2] between the condition
    of line 315 and the store of line 318. *)
Definition loaded_then_died : invocation :=
  Invocation (mkSiginfo USR2 200) [] [Invocation (mkSiginfo CHLD 200) [] []].

(** No signal arrives at any delivery point; no [waitpid] finds anything. *)
Definition quiet : oracle :=
  mkOracle (fun _ => []) 77 (fun _ => 200) (fun _ => mkWait 0 0 0)
           (fun _ => 0%Q) (fun _ => false).

(** ** Vocabulary of the drains *)

(** The signals handled at delivery point [n] of a process whose mask is as
    in [w]: none while the mask is on (they are kept pending). *)
Definition handled_at (o : oracle) (w : world) (n : nat) : list siginfo :=
  if sigblocked w then [] else o_signals o n.






(** ** Vocabulary of the exit status *)

(** The worker the main loop holds in [currentWorker] after [e], having held
    [cw] before it: the worker that is sent [SIGUSR2] (line 716) is adopted
    right after (line 718); every other [kill] of the loop goes to
    [currentWorker] itself. *)
Definition next_worker (P : platform) (cw : Z) (e : event) : Z :=
  match e with
  | EvKill p sig => if sig =? SIGUSR2 P then p else cw
  | _ => cw
  end.

(** The active worker once the loop, entered with [cw], has left [d]
    behind. *)
Definition active_worker (P : platform) (cw : Z) (d : list event) : Z :=
  fold_left (next_worker P) d cw.

(** The worker [e] names, if it is a non-blocking wait, a forwarding or the
    "stopped" line, is [cw]. *)
Definition names_worker (cw : Z) (e : event) : bool :=
  match e with
  | EvWaitpid p WNOHANG _ => p =? cw
  | EvLog (LogForwardTerm _ c) => c =? cw
  | EvLog (LogForwardReopen _ c) => c =? cw
  | EvLog (LogWorkerStopped c) => c =? cw
  | _ => true
  end.

(** Each event of [d] names the worker that is active when it happens. *)
Fixpoint follows_worker (P : platform) (cw : Z) (d : list event) : bool :=
  match d with
  | [] => true
  | e :: d' => names_worker cw e && follows_worker P (next_worker P cw e) d'
  end.

(** A non-blocking wait that finds the worker gone (line 736). *)
Definition observes_exit (e : event) : bool :=
  match e with
  | EvWaitpid _ WNOHANG r => 0 <? w_ret r
  | _ => false
  end.

(** No wait of [d] has found the worker gone. *)
Definition calm (d : list event) : Prop :=
  Forall (fun e => observes_exit e = false) d.

(** Events that neither signal nor name a worker. *)
Definition is_passive (e : event) : bool :=
  match e with
  | EvKill _ _ | EvWaitpid _ WNOHANG _ => false
  | EvLog (LogForwardTerm _ _) | EvLog (LogForwardReopen _ _)
  | EvLog (LogWorkerStopped _) => false
  | _ => true
  end.

(** How a piece of the main loop ends: it goes on with a current worker, it
    returns from [Run] with a status, or the process ends. *)
Inductive ending : Type :=
| GoesOn (currentWorker : Z)
| Returns (code : Z)
| Stops (r : stop_reason).

Definition ending_of {A : Type} (en : A -> ending) (r : outcome A) : ending :=
  match r with
  | Ok a _ => en a
  | Stop reason _ => Stops reason
  end.

Definition step_ending (s : loop_step) : ending :=
  match s with
  | Continue cw _ _ => GoesOn cw
  | Return code => Returns code
  end.

(** What a piece of the loop that was entered with [cw] and ended by [e] has
    added to the trace.  Its events name the active worker.  If it goes on,
    no wait has found a worker gone.  If it returns, one wait has, at the
    very end, the "stopped" line and at most the "stopping" notification
    follow it, and the status returned is the translation of the one the
    wait stored.  If the process ends, no wait has found a worker gone, or
    the last one has and a signal has killed the umbrella before it could
    return. *)
Definition worker_fate (P : platform) (cw : Z) (d : list event) (e : ending) : Prop :=
  follows_worker P cw d = true /\
  match e with
  | GoesOn cw' => calm d /\ active_worker P cw d = cw'
  | Returns code =>
      exists d0 pid r tail,
        d = d0 ++ EvWaitpid pid WNOHANG r :: EvLog (LogWorkerStopped pid) :: tail /\
        calm d0 /\ 0 < w_ret r /\
        (tail = [] \/ tail = [EvSdNotify SD_STOPPING]) /\
        code = exit_status_of (w_status r)
  | Stops reason =>
      calm d \/
      exists d0 pid r tail sig,
        d = d0 ++ EvWaitpid pid WNOHANG r :: tail /\
        calm d0 /\ 0 < w_ret r /\
        (tail = [] \/ tail = [EvLog (LogWorkerStopped pid)]) /\
        reason = Killed sig
  end.

(** Every run of [m], entered with the worker [cw], ends as [worker_fate]
    says. *)
Definition fated {A : Type} (P : platform) (cw : Z) (en : A -> ending) (m : M A) : Prop :=
  forall w, exists d,
    trace (world_of (m w)) = trace w ++ d /\
    worker_fate P cw d (ending_of en (m w)).



(** ** Vocabulary of the forwarding *)

(** The log line that announces a [kill] of the main loop: the forwarding
    of a termination signal (lines 669-672), the [SIGTERM] to the old worker
    of a reload (lines 697-700), the [SIGUSR2] to the new one (lines
    711-716), and the forwarding of [SIGUSR1] (lines 728-731). *)
Definition announces (P : platform) (m : log_message) (pid sig : Z) : bool :=
  match m with
  | LogForwardTerm s c => (pid =? c) && (sig =? s)
  | LogReloadDone _ => sig =? SIGTERM P
  | LogWaited _ => sig =? SIGUSR2 P
  | LogForwardReopen s c => (pid =? c) && (sig =? s)
  | _ => false
  end.

(** Every [kill] of [d] comes right after the log line that announces it. *)
Definition kills_announced (P : platform) (d : list event) : Prop :=
  forall d1 pid sig d2, d = d1 ++ EvKill pid sig :: d2 ->
    exists d0 m, d1 = d0 ++ [EvLog m] /\ announces P m pid sig = true.

(** The [kill]s of [d] that forward a termination signal: those that come
    right after the line "Got signal ..., forwarding to seemless worker"
    that names them. *)
Fixpoint forwarded_kills (d : list event) : nat :=
  match d with
  | [] => 0%nat
  | EvLog (LogForwardTerm s c) :: d' =>
      match d' with
      | EvKill pid sig :: _ =>
          if Z.eqb pid c && Z.eqb sig s then S (forwarded_kills d')
          else forwarded_kills d'
      | _ => forwarded_kills d'
      end
  | _ :: d' => forwarded_kills d'
  end.

(** What [m] adds to the trace, however it ends, has its [kill]s
    announced. *)
Definition announced {A : Type} (P : platform) (m : M A) : Prop :=
  forall w, exists d, trace (world_of (m w)) = trace w ++ d /\ kills_announced P d.

(** ** Vocabulary of the ends under installed handlers *)

(** The handler of [s] is in place in [w]: it is installed, or [s] is a
    termination signal whose handler has run, has put the signal back to
    its default action and has recorded it (lines 328-342). *)
Definition handler_kept (P : platform) (w : world) (s : usig) : Prop :=
  sigdisp w (signo P s) = SIG_DFL ->
  is_termination_signal s = true /\ l_TermSignal w <> -1.

Definition handlers_kept (P : platform) (w : world) : Prop :=
  forall s, handler_kept P w s.

(** How a run may end, other than by returning, once the handlers are in
    place: by [exit (EXIT_FAILURE)] right after a critical log line; by the
    default action of [SIGINT] or [SIGTERM], a termination signal having
    been recorded before. *)
Definition guarded_end (P : platform) (r : stop_reason) (w : world) : Prop :=
  match r with
  | Exited code =>
      code = EXIT_FAILURE P /\
      exists tr m, trace w = tr ++ [EvLog m] /\ is_critical m = true
  | Killed sig => (sig = SIGINT P \/ sig = SIGTERM P) /\ l_TermSignal w <> -1
  | Aborted | InChild | OutOfFuel => True
  end.

(** [m], started with the handlers in place, keeps them in place and ends
    as [guarded_end] says. *)
Definition guarded {A : Type} (P : platform) (m : M A) : Prop :=
  forall w, handlers_kept P w ->
    match m w with
    | Ok _ w' => handlers_kept P w'
    | Stop r w' => guarded_end P r w'
    end.

(** Two [SIGTERM]s sent by process 1 arrive once the handlers are
    installed, at the seventh and at the ninth delivery point. *)
Definition term_then_term : oracle :=
  mkOracle (fun n => if Nat.eqb n 6 || Nat.eqb n 8 then [mkSiginfo TERM 1] else [])
           77 (fun _ => 200) (fun _ => mkWait 0 0 0) (fun _ => 0%Q) (fun _ => false).

(** * Verification *)

(** ** Lists and recorders *)

Lemma transitions_ok_snoc (h : list UnixWorkerState) (a b : UnixWorkerState) :
  transitions_ok ((h ++ [a]) ++ [b]) =
  transitions_ok (h ++ [a]) && allowed_transition a b.
Proof.
  induction h as [|x h IH].
  - simpl. destruct (allowed_transition a b); reflexivity.
  - destruct h as [|y h].
    + simpl. destruct (allowed_transition x a), (allowed_transition a b); reflexivity.
    + change (transitions_ok (((x :: y :: h) ++ [a]) ++ [b]))
        with (allowed_transition x y && transitions_ok (((y :: h) ++ [a]) ++ [b])).
      change (transitions_ok ((x :: y :: h) ++ [a]))
        with (allowed_transition x y && transitions_ok ((y :: h) ++ [a])).
      rewrite IH. rewrite andb_assoc. reflexivity.
Qed.

Lemma transitions_ok_extend (h : list UnixWorkerState) (b : UnixWorkerState) :
  h <> [] ->
  transitions_ok (h ++ [b]) = transitions_ok h && allowed_transition (last h Pending) b.
Proof.
  intros Hne. destruct (exists_last Hne) as [h' [a ->]].
  rewrite last_last. apply transitions_ok_snoc.
Qed.

Lemma transitions_ok_adjacent (h1 h2 : list UnixWorkerState) (a b : UnixWorkerState) :
  transitions_ok (h1 ++ a :: b :: h2) = true -> allowed_transition a b = true.
Proof.
  induction h1 as [|x h1 IH]; intros H.
  - simpl in H. apply andb_true_iff in H. tauto.
  - destruct h1 as [|y h1].
    + simpl in H. apply andb_true_iff in H. destruct H as [_ H].
      apply andb_true_iff in H. tauto.
    + change (allowed_transition x y && transitions_ok ((y :: h1) ++ a :: b :: h2) = true) in H.
      apply andb_true_iff in H. apply IH. tauto.
Qed.




Lemma Forall_impl_bool {X : Type} (p q : X -> bool) (l : list X) :
  (forall x, p x = true -> q x = true) ->
  Forall (fun x => p x = true) l -> Forall (fun x => q x = true) l.
Proof. intros Hpq H. eapply Forall_impl; [|exact H]. exact Hpq. Qed.

(** ** The platform *)

Lemma usig_eqb_eq (a b : usig) : usig_eqb a b = true <-> a = b.
Proof. destruct a, b; simpl; split; intros H; try reflexivity; discriminate H. Qed.

Lemma signo_eqb (P : platform) (a b : usig) :
  (signo P a =? signo P b) = usig_eqb a b.
Proof.
  destruct (usig_eqb a b) eqn:E.
  - apply usig_eqb_eq in E. subst. apply Z.eqb_refl.
  - apply Z.eqb_neq. intros H. apply signo_inj in H.
    apply usig_eqb_eq in H. congruence.
Qed.

Lemma signo_not_sentinel (P : platform) (a : usig) : signo P a <> -1.
Proof. pose proof (signo_pos P a). lia. Qed.

(** Rewrites the comparisons of the [switch] on a subscribed signal. *)
Ltac switch_on_signal :=
  unfold SIGUSR1, SIGUSR2, SIGCHLD, SIGINT, SIGTERM, SIGHUP in *;
  rewrite ?signo_eqb in *; simpl usig_eqb in *; cbv iota in *.

(** ** What a signal may change *)

Lemma async_rely_refl (w : world) : async_rely w w.
Proof. constructor; auto. Qed.

Lemma async_rely_trans (w1 w2 w3 : world) :
  async_rely w1 w2 -> async_rely w2 w3 -> async_rely w1 w3.
Proof.
  intros [] []. constructor; try congruence; auto.
Qed.

Lemma history_ok_store (v : UnixWorkerState) (w : world) :
  allowed_transition (l_CurrentlyStartingUnixWorkerState w) v = true ->
  history_ok w -> history_ok (set_StartingState v w).
Proof.
  intros Hv (Hok & Hne & Hlast). unfold history_ok. simpl.
  rewrite last_last, (transitions_ok_extend _ _ Hne), Hok, Hlast, Hv.
  repeat split. intros H. apply app_eq_nil in H. destruct H as [_ H]. discriminate H.
Qed.

Lemma UmbrellaSignalHandler_total (P : platform) (s : usig) (pid : Z) (w : world) :
  exists w', UmbrellaSignalHandler P (signo P s) pid w = Some w'.
Proof.
  unfold UmbrellaSignalHandler. switch_on_signal.
  destruct s; simpl;
    repeat match goal with |- context [if ?c then _ else _] => destruct c end;
    eexists; reflexivity.
Qed.

Lemma UmbrellaSignalHandler_rely (P : platform) (s : usig) (pid : Z) (w w' : world) :
  UmbrellaSignalHandler P (signo P s) pid w = Some w' -> async_rely w w'.
Proof.
  unfold UmbrellaSignalHandler. switch_on_signal.
  destruct s; simpl;
    try (destruct (UnixWorkerState_eqb _ _ && _) eqn:E);
    intros H; injection H as <-;
    try apply async_rely_refl;
    constructor; simpl; auto;
    try (intros _; apply signo_not_sentinel).
  - intros Hh. apply history_ok_store; [|exact Hh].
    apply andb_true_iff in E. destruct E as [E _].
    destruct (l_CurrentlyStartingUnixWorkerState w); [reflexivity | discriminate E ..].
  - intros Hh. apply history_ok_store; [|exact Hh].
    apply andb_true_iff in E. destruct E as [E _].
    destruct (l_CurrentlyStartingUnixWorkerState w); [reflexivity | discriminate E ..].
Qed.

Section DeliveryFacts.

Variable P : platform.
Variable o : oracle.

Lemma deliver_rely (s : siginfo) (w : world) :
  async_rely w (world_of (deliver P s w)).
Proof.
  unfold deliver. destruct (sigdisp w (signo P (si_signo s))).
  - destruct (default_terminates (si_signo s)); apply async_rely_refl.
  - destruct (UmbrellaSignalHandler P (signo P (si_signo s)) (si_pid s) w) eqn:E.
    + simpl. eapply UmbrellaSignalHandler_rely. exact E.
    + apply async_rely_refl.
Qed.

(** Handling a signal stops the process only by the signal's default
    action; the [VERIFY] of the handler is never reached. *)
Lemma deliver_stop (s : siginfo) (w w' : world) (r : stop_reason) :
  deliver P s w = Stop r w' -> exists sig, r = Killed sig.
Proof.
  unfold deliver. destruct (sigdisp w (signo P (si_signo s))).
  - destruct (default_terminates (si_signo s)); intros H; [|discriminate H].
    injection H as <- _. eexists; reflexivity.
  - destruct (UmbrellaSignalHandler_total P (si_signo s) (si_pid s) w) as [w1 ->].
    intros H; discriminate H.
Qed.

Lemma deliver_all_rely (l : list siginfo) (w : world) :
  async_rely w (world_of (deliver_all P l w)).
Proof.
  revert w. induction l as [|s l IH]; intros w.
  - apply async_rely_refl.
  - simpl. unfold bind. pose proof (deliver_rely s w) as H.
    destruct (deliver P s w) as [[] w1|r w1]; simpl in H.
    + eapply async_rely_trans; [exact H | apply IH].
    + exact H.
Qed.

Lemma deliver_all_stop (l : list siginfo) (w w' : world) (r : stop_reason) :
  deliver_all P l w = Stop r w' -> exists sig, r = Killed sig.
Proof.
  revert w. induction l as [|s l IH]; intros w; simpl.
  - intros H; discriminate H.
  - unfold bind. destruct (deliver P s w) as [[] w1|r1 w1] eqn:E.
    + apply IH.
    + intros H. injection H as <- _. eapply deliver_stop. exact E.
Qed.

Lemma set_tick_rely (n : nat) (w : world) : async_rely w (set_tick n w).
Proof. constructor; simpl; auto. Qed.

Lemma sync_rely (w : world) : async_rely w (world_of (sync P o w)).
Proof.
  unfold sync. simpl sigblocked. destruct (sigblocked w) eqn:Hb.
  - constructor; simpl; auto.
  - unfold bind.
    pose proof (deliver_all_rely (o_signals o (tick w)) (set_tick (S (tick w)) w)) as H.
    destruct (deliver_all P (o_signals o (tick w)) (set_tick (S (tick w)) w)) as [[] w1|r w1];
      simpl in *; (eapply async_rely_trans; [apply set_tick_rely | exact H]).
Qed.

Lemma sync_Ok (w w' : world) (n : nat) :
  sync P o w = Ok n w' -> n = tick w /\ async_rely w w'.
Proof.
  intros H. pose proof (sync_rely w) as Hr. rewrite H in Hr. split; [|exact Hr].
  unfold sync in H. simpl in H. destruct (sigblocked w).
  - injection H as <- _. reflexivity.
  - unfold bind in H.
    destruct (deliver_all P (o_signals o (tick w)) (set_tick (S (tick w)) w)); [|discriminate H].
    injection H as <- _. reflexivity.
Qed.

Lemma sync_Stop (w w' : world) (r : stop_reason) :
  sync P o w = Stop r w' -> (exists sig, r = Killed sig) /\ async_rely w w'.
Proof.
  intros H. pose proof (sync_rely w) as Hr. rewrite H in Hr. split; [|exact Hr].
  unfold sync in H. simpl in H. destruct (sigblocked w); [discriminate H|].
  unfold bind in H.
  destruct (deliver_all P (o_signals o (tick w)) (set_tick (S (tick w)) w)) eqn:E;
    [discriminate H|].
  injection H as <- _. eapply deliver_all_stop. exact E.
Qed.

End DeliveryFacts.

(** ** Relations every step of the main flow stays within

    For a reflexive and transitive relation [R] on worlds that contains what
    signals may do and what the stores and the allowed events do, every run
    of the main flow relates its first world to its last one, however it
    ends. *)

Section Respects.

Variable P : platform.
Variable o : oracle.
Variable R : world -> world -> Prop.
Variable allowed : event -> bool.

Hypothesis R_refl : forall w, R w w.
Hypothesis R_trans : forall w1 w2 w3, R w1 w2 -> R w2 w3 -> R w1 w3.
Hypothesis R_rely : forall w w', async_rely w w' -> R w w'.
Hypothesis R_emit : forall e w, allowed e = true -> R w (record_event e w).
Hypothesis R_LastNotified : forall v w, R w (set_LastNotifiedWatchdog v w).

Lemma respects_ret {A : Type} (a : A) : respects R (ret a).
Proof. intros w. apply R_refl. Qed.

Lemma respects_stop {A : Type} (r : stop_reason) : respects R (@stop A r).
Proof. intros w. apply R_refl. Qed.

Lemma respects_bind {A B : Type} (m : M A) (f : A -> M B) :
  respects R m -> (forall a, respects R (f a)) -> respects R (bind m f).
Proof.
  intros Hm Hf w. unfold bind. specialize (Hm w).
  destruct (m w) as [a w1|r w1]; simpl in Hm.
  - eapply R_trans; [exact Hm | apply Hf].
  - exact Hm.
Qed.

Lemma respects_sync : respects R (sync P o).
Proof. intros w. apply R_rely, sync_rely. Qed.

Lemma respects_after_sync (f : world -> world) :
  (forall w, R w (f w)) -> respects R (_ <- sync P o ;; fun w => Ok tt (f w)).
Proof.
  intros Hf. apply respects_bind; [apply respects_sync|].
  intros _ w. apply Hf.
Qed.

Lemma respects_atomic {A : Type} (f : world -> A * world) :
  (forall w, R w (snd (f w))) -> respects R (atomic P o f).
Proof.
  intros Hf. apply respects_bind; [apply respects_sync|].
  intros _ w. specialize (Hf w). destruct (f w). exact Hf.
Qed.

Lemma respects_load {A : Type} (field : world -> A) : respects R (load P o field).
Proof. apply respects_atomic. intros w. apply R_refl. Qed.

Lemma respects_store {A : Type} (setter : A -> world -> world) (v : A) :
  (forall w, R w (setter v w)) -> respects R (store P o setter v).
Proof. intros H. apply respects_atomic. exact H. Qed.

Lemma respects_emit (e : event) : allowed e = true -> respects R (emit e).
Proof. intros He w. apply R_emit, He. Qed.

Lemma respects_Log (m : log_message) :
  allowed (EvLog m) = true -> respects R (Log P o m).
Proof.
  intros H. apply respects_bind; [apply respects_sync | intros _; apply respects_emit, H].
Qed.

Lemma respects_kill (pid sig : Z) :
  allowed (EvKill pid sig) = true -> respects R (kill P o pid sig).
Proof.
  intros H. apply respects_bind; [apply respects_sync | intros _; apply respects_emit, H].
Qed.

Lemma respects_sd_notify (m : sd_message) :
  allowed (EvSdNotify m) = true -> respects R (sd_notify P o m).
Proof.
  intros H. apply respects_bind; [apply respects_sync | intros _; apply respects_emit, H].
Qed.

Lemma respects_fork :
  (forall r, allowed (EvFork r) = true) -> respects R (fork P o).
Proof.
  intros H. apply respects_bind; [apply respects_sync | intros n].
  apply respects_bind; [apply respects_emit, H | intros _; apply respects_ret].
Qed.

Lemma respects_waitpid (pid : Z) (opts : wait_options) :
  (forall r, allowed (EvWaitpid pid opts r) = true) -> respects R (waitpid P o pid opts).
Proof.
  intros H. apply respects_bind; [apply respects_sync | intros n].
  apply respects_bind; [apply respects_emit, H | intros _; apply respects_ret].
Qed.

Lemma respects_GetTime : respects R (GetTime P o).
Proof. apply respects_bind; [apply respects_sync | intros n; apply respects_ret]. Qed.

Lemma respects_Sleep : respects R (Sleep P o).
Proof. apply respects_bind; [apply respects_sync | intros n; apply respects_ret]. Qed.

Lemma respects_ifdef (m : M unit) :
  respects R m -> respects R (ifdef_HAVE_SYSTEMD P m).
Proof.
  intros H. unfold ifdef_HAVE_SYSTEMD. destruct (HAVE_SYSTEMD P); [exact H | apply respects_ret].
Qed.

Lemma respects_base_or_exit (m : log_message) :
  allowed (EvLog m) = true -> respects R (base_or_exit P o m).
Proof.
  intros H. apply respects_bind; [apply respects_sync | intros n].
  destruct (o_throws o n); [|apply respects_ret].
  apply respects_bind; [apply respects_Log, H | intros _; apply respects_stop].
Qed.

Lemma respects_NotifyWatchdog :
  allowed (EvSdNotify SD_WATCHDOG) = true -> respects R (NotifyWatchdog P o).
Proof.
  intros H. apply respects_bind; [apply respects_GetTime | intros now].
  apply respects_bind; [apply respects_load | intros last].
  destruct (NotifyWatchdog_at now last) as [[] last']; [|apply respects_ret].
  apply respects_bind; [apply respects_sd_notify, H | intros _].
  apply respects_store. intros w. apply R_LastNotified.
Qed.

Lemma respects_waitpid_retry (fuel : nat) (pid : Z) :
  allowed (EvSdNotify SD_WATCHDOG) = true ->
  (forall r, allowed (EvWaitpid pid WaitBlocking r) = true) ->
  respects R (waitpid_retry P o fuel pid).
Proof.
  intros Hwd Hw. induction fuel as [|fuel IH]; [apply respects_stop|].
  simpl. apply respects_bind; [apply respects_waitpid, Hw | intros r].
  destruct (interrupted P r); [|apply respects_ret].
  apply respects_bind; [|intros _; exact IH].
  apply respects_ifdef, respects_NotifyWatchdog, Hwd.
Qed.

Hypothesis R_StartingPid : forall v w, R w (set_StartingPid v w).
Hypothesis R_reset : forall w, R w (set_StartingState Pending w).
Hypothesis R_sigmask : forall b p w, R w (set_sigmask b p w).

Lemma respects_await_worker (fuel : nat) (pid : Z) :
  (forall e, is_spawn_event e = true -> allowed e = true) ->
  respects R (await_worker P o fuel pid).
Proof.
  intros Ha. induction fuel as [|fuel IH]; [apply respects_stop|].
  simpl. apply respects_bind;
    [apply respects_ifdef, respects_NotifyWatchdog, Ha; reflexivity | intros _].
  apply respects_bind; [apply respects_load | intros st].
  destruct st.
  - apply respects_bind; [apply respects_Sleep | intros _; exact IH].
  - apply respects_bind; [apply respects_Log, Ha; reflexivity | intros _; apply respects_ret].
  - apply respects_bind; [apply respects_Log, Ha; reflexivity | intros _].
    apply respects_bind; [|intros _; apply respects_ret].
    apply respects_waitpid_retry; [|intros r]; apply Ha; reflexivity.
Qed.

Lemma respects_sigprocmask_BLOCK : respects R (sigprocmask_BLOCK P o).
Proof. apply respects_after_sync. intros w. apply R_sigmask. Qed.

Lemma respects_sigprocmask_UNBLOCK : respects R (sigprocmask_UNBLOCK P o).
Proof.
  apply respects_bind; [apply respects_sync | intros _ w].
  eapply R_trans; [apply (R_sigmask false [])|].
  apply R_rely. apply (deliver_all_rely P (sigpending w) (set_sigmask false [] w)).
Qed.

Lemma respects_StartUnixWorker (fuel : nat) :
  (forall e, is_spawn_event e = true -> allowed e = true) ->
  respects R (StartUnixWorker P o fuel).
Proof.
  intros Ha. unfold StartUnixWorker.
  apply respects_bind; [apply respects_Log, Ha; reflexivity | intros _].
  apply respects_bind; [apply respects_base_or_exit, Ha; reflexivity | intros _].
  apply respects_bind; [apply respects_sigprocmask_BLOCK | intros _].
  apply respects_bind; [apply respects_fork; intros r; apply Ha; reflexivity | intros pid].
  destruct (pid =? -1).
  { apply respects_bind; [apply respects_Log, Ha; reflexivity | intros _; apply respects_stop]. }
  destruct (pid =? 0); [apply respects_stop|].
  apply respects_bind; [apply respects_store, R_StartingPid | intros _].
  apply respects_bind; [apply respects_sigprocmask_UNBLOCK | intros _].
  apply respects_bind; [apply respects_Log, Ha; reflexivity | intros _].
  apply respects_bind; [apply respects_await_worker, Ha | intros pid'].
  apply respects_bind; [apply respects_store, R_StartingPid | intros _].
  apply respects_bind; [apply respects_store; intros w; apply R_reset | intros _].
  apply respects_bind; [apply respects_base_or_exit, Ha; reflexivity | intros _].
  apply respects_ret.
Qed.

Hypothesis R_RequestedReload : forall v w, R w (set_RequestedReload v w).
Hypothesis R_RequestedReopenLogs : forall v w, R w (set_RequestedReopenLogs v w).
Hypothesis R_sigdisp : forall num d w, R w (set_sigdisp num d w).
Hypothesis R_UmbrellaPid : forall v w, R w (set_UmbrellaPid v w).

Lemma respects_install_umbrella_handlers : respects R (install_umbrella_handlers P o).
Proof.
  unfold install_umbrella_handlers.
  repeat (apply respects_bind;
          [apply respects_after_sync; intros w; apply R_sigdisp | intros _]).
  apply respects_after_sync; intros w; apply R_sigdisp.
Qed.

(** Everything is allowed but the log line of a forwarded termination signal
    and the "stopping" notification. *)
Hypothesis allowed_quiet :
  forall e, is_forward_term e = false -> is_stopping e = false -> allowed e = true.

Lemma allowed_spawn_event (e : event) : is_spawn_event e = true -> allowed e = true.
Proof.
  intros H. apply allowed_quiet; destruct e as [m| | | |m]; try reflexivity;
    destruct m; try reflexivity; discriminate H.
Qed.

Lemma respects_reload (fuel : nat) (cw : Z) : respects R (reload P o fuel cw).
Proof.
  unfold reload, reload_prelude, reload_swap.
  apply respects_bind.
  { apply respects_bind; [apply respects_Log, allowed_quiet; reflexivity | intros _].
    apply respects_ifdef, respects_sd_notify, allowed_quiet; reflexivity. }
  intros _. apply respects_bind;
    [apply respects_StartUnixWorker, allowed_spawn_event | intros nw].
  apply respects_bind.
  2:{ intros cw'. apply respects_bind; [|intros _; apply respects_ret].
      apply respects_ifdef, respects_sd_notify, allowed_quiet; reflexivity. }
  destruct (nw =? -1).
  { apply respects_bind;
      [apply respects_Log, allowed_quiet; reflexivity | intros _; apply respects_ret]. }
  apply respects_bind; [apply respects_Log, allowed_quiet; reflexivity | intros _].
  apply respects_bind; [apply respects_kill, allowed_quiet; reflexivity | intros _].
  apply respects_bind; [apply respects_GetTime | intros start].
  apply respects_bind;
    [apply respects_waitpid_retry; [|intros r]; apply allowed_quiet; reflexivity | intros _].
  apply respects_bind; [apply respects_GetTime | intros finish].
  apply respects_bind; [apply respects_Log, allowed_quiet; reflexivity | intros _].
  apply respects_bind; [apply respects_kill, allowed_quiet; reflexivity | intros _].
  apply respects_ret.
Qed.

Lemma respects_forward_reopen_logs (cw : Z) : respects R (forward_reopen_logs P o cw).
Proof.
  unfold forward_reopen_logs.
  apply respects_bind;
    [apply respects_atomic; intros w; apply R_RequestedReopenLogs | intros b].
  destruct b; [|apply respects_ret].
  apply respects_bind; [apply respects_Log, allowed_quiet; reflexivity | intros _].
  apply respects_kill, allowed_quiet; reflexivity.
Qed.

Hypothesis allowed_all : forall e, allowed e = true.

Lemma respects_forward_termination (cw : Z) (rt nt : bool) :
  respects R (forward_termination P o cw rt nt).
Proof.
  unfold forward_termination. destruct (negb rt); [|apply respects_ret].
  apply respects_bind; [apply respects_load | intros termSig].
  destruct (negb (termSig =? -1)); [|apply respects_ret].
  apply respects_bind; [apply respects_Log, allowed_all | intros _].
  apply respects_bind; [apply respects_kill, allowed_all | intros _].
  destruct (HAVE_SYSTEMD P && negb nt); [|apply respects_ret].
  apply respects_bind; [apply respects_sd_notify, allowed_all | intros _; apply respects_ret].
Qed.

Lemma respects_check_worker_exit (cw : Z) (nt : bool) :
  respects R (check_worker_exit P o cw nt).
Proof.
  unfold check_worker_exit.
  apply respects_bind; [apply respects_waitpid; auto | intros r].
  destruct (0 <? w_ret r); [|apply respects_ret].
  apply respects_bind; [apply respects_Log, allowed_all | intros _].
  apply respects_bind; [|intros _; apply respects_ret].
  destruct (HAVE_SYSTEMD P && negb nt); [|apply respects_ret].
  apply respects_sd_notify, allowed_all.
Qed.

Lemma respects_umbrella_iteration (fuel : nat) (cw : Z) (rt nt : bool) :
  respects R (umbrella_iteration P o fuel cw rt nt).
Proof.
  unfold umbrella_iteration.
  apply respects_bind;
    [apply respects_ifdef, respects_NotifyWatchdog, allowed_all | intros _].
  apply respects_bind; [apply respects_forward_termination | intros flags].
  apply respects_bind;
    [apply respects_atomic; intros w; apply R_RequestedReload | intros b].
  apply respects_bind;
    [destruct b; [apply respects_reload | apply respects_ret] | intros cw'].
  apply respects_bind; [apply respects_forward_reopen_logs | intros _].
  apply respects_bind; [apply respects_check_worker_exit | intros ex].
  destruct ex; [apply respects_ret|].
  apply respects_bind; [apply respects_Sleep | intros _; apply respects_ret].
Qed.

Lemma respects_main_loop (fuel : nat) (cw : Z) (rt nt : bool) :
  respects R (main_loop P o fuel cw rt nt).
Proof.
  revert cw rt nt. induction fuel as [|fuel IH]; intros cw rt nt; [apply respects_stop|].
  simpl. apply respects_bind; [apply respects_umbrella_iteration | intros r].
  destruct r; [apply IH | apply respects_ret].
Qed.

Lemma respects_Run (fuel : nat) : respects R (Run P o fuel).
Proof.
  unfold Run, install_umbrella_handlers.
  apply respects_bind; [intros w; apply R_UmbrellaPid | intros _].
  apply respects_bind; [apply respects_install_umbrella_handlers | intros _].
  apply respects_bind;
    [apply respects_StartUnixWorker, allowed_spawn_event | intros cw].
  destruct (cw =? -1); [apply respects_ret|].
  apply respects_bind; [apply respects_kill, allowed_all | intros _].
  apply respects_bind; [apply respects_ifdef, respects_sd_notify, allowed_all | intros _].
  apply respects_main_loop.
Qed.

End Respects.

(** ** Stepping through the main flow *)

Lemma bind_Ok {A B : Type} (m : M A) (f : A -> M B) (w w' : world) (b : B) :
  bind m f w = Ok b w' -> exists a w1, m w = Ok a w1 /\ f a w1 = Ok b w'.
Proof.
  unfold bind. destruct (m w) as [a w1|]; intros H; [|discriminate H].
  exists a, w1. split; [reflexivity | exact H].
Qed.

(** Splits on the outcome of the delivery point that comes next. *)
Ltac sync_step :=
  match goal with
  | H : context [sync ?P ?o ?w] |- _ =>
      let E := fresh "E" in
      let n := fresh "n" in
      let w1 := fresh "w" in
      let r := fresh "r" in
      destruct (sync P o w) as [n w1|r w1] eqn:E;
      [apply sync_Ok in E; destruct E as [-> E] |
       apply sync_Stop in E; destruct E as [[? ->] E]]
  | |- context [sync ?P ?o ?w] =>
      let E := fresh "E" in
      let n := fresh "n" in
      let w1 := fresh "w" in
      let r := fresh "r" in
      destruct (sync P o w) as [n w1|r w1] eqn:E;
      [apply sync_Ok in E; destruct E as [-> E] |
       apply sync_Stop in E; destruct E as [[? ->] E]]
  end.

(** Equations between lists that differ in bracketing only. *)
Ltac list_eq := repeat first [rewrite <- app_assoc | progress simpl]; reflexivity.

(** Expresses the trace of every world reached so far by the trace of the
    first one. *)
Ltac rely_traces :=
  repeat match goal with
  | H : async_rely _ ?b |- _ =>
      lazymatch goal with
      | _ : trace b = _ |- _ => fail
      | _ => let T := fresh "T" in pose proof (rely_trace _ _ H) as T; simpl in T
      end
  end;
  simpl;
  repeat match goal with
  | T : trace ?b = _ |- context [trace ?b] => rewrite T
  end;
  rewrite <- ?app_assoc; simpl.

(** ** The umbrella's handler *)

(** C5.  A load-succeeded ([SIGUSR2]) or child-exited ([SIGCHLD]) signal
    whose sender is not the worker being started, or that arrives when the
    start state is no longer [Pending], changes nothing at all: the handler
    returns the world it was given, whatever the start state is. *)
Theorem C5_foreign_or_stale_signal_ignored
    (P : platform) (num sender : Z) (w : world) :
  num = SIGUSR2 P \/ num = SIGCHLD P ->
  sender <> l_CurrentlyStartingUnixWorkerPid w \/
    l_CurrentlyStartingUnixWorkerState w <> Pending ->
  UmbrellaSignalHandler P num sender w = Some w.
Proof.
  intros Hnum Hcase.
  assert (UnixWorkerState_eqb (l_CurrentlyStartingUnixWorkerState w) Pending
          && (sender =? l_CurrentlyStartingUnixWorkerPid w) = false) as Hguard.
  { destruct Hcase as [Hpid | Hst].
    - apply Z.eqb_neq in Hpid. rewrite Hpid. apply andb_false_r.
    - destruct (l_CurrentlyStartingUnixWorkerState w); [contradiction Hst|..]; reflexivity. }
  unfold UmbrellaSignalHandler.
  destruct Hnum as [-> | ->]; switch_on_signal; rewrite Hguard; reflexivity.
Qed.

Lemma C5_witness :
  UmbrellaSignalHandler (linux true) 12 4711 (set_StartingPid 100 initial_world)
    = Some (set_StartingPid 100 initial_world).
Proof.
  apply C5_foreign_or_stale_signal_ignored.
  - left. reflexivity.
  - left. simpl. lia.
Defined.

(** ** The edge-triggered flags *)

Section Flags.

Variable P : platform.

Lemma deliver_keeps_flags (s : siginfo) (w w' : world) :
  deliver P s w = Ok tt w' ->
  (l_RequestedReload w = true -> l_RequestedReload w' = true) /\
  (l_RequestedReopenLogs w = true -> l_RequestedReopenLogs w' = true).
Proof.
  unfold deliver. destruct (sigdisp w (signo P (si_signo s))).
  - destruct (default_terminates (si_signo s)); intros H; [discriminate H|].
    injection H as <-. auto.
  - unfold UmbrellaSignalHandler. switch_on_signal.
    destruct (si_signo s); simpl;
      try (destruct (UnixWorkerState_eqb _ _ && _));
      intros H; injection H as <-; simpl; auto.
Qed.

Lemma deliver_sets_flag (s : siginfo) (w w' : world) :
  deliver P s w = Ok tt w' ->
  (si_signo s = HUP -> l_RequestedReload w' = true) /\
  (si_signo s = USR1 -> l_RequestedReopenLogs w' = true).
Proof.
  unfold deliver. destruct (sigdisp w (signo P (si_signo s))).
  - destruct (si_signo s); simpl; intros H; try discriminate H;
      split; intros E; discriminate E.
  - unfold UmbrellaSignalHandler. switch_on_signal.
    destruct (si_signo s); simpl;
      try (destruct (UnixWorkerState_eqb _ _ && _));
      intros H; injection H as <-; simpl;
      split; intros E; try reflexivity; discriminate E.
Qed.

Lemma deliver_all_keeps_flags (l : list siginfo) (w w' : world) :
  deliver_all P l w = Ok tt w' ->
  (l_RequestedReload w = true -> l_RequestedReload w' = true) /\
  (l_RequestedReopenLogs w = true -> l_RequestedReopenLogs w' = true).
Proof.
  revert w. induction l as [|s l IH]; intros w; simpl.
  - intros H. injection H as <-. auto.
  - unfold bind. destruct (deliver P s w) as [[] w1|] eqn:E; [|intros H; discriminate H].
    intros H. destruct (deliver_keeps_flags _ _ _ E), (IH _ H). auto.
Qed.

Lemma deliver_all_sets_flags (l : list siginfo) (w w' : world) :
  deliver_all P l w = Ok tt w' ->
  ((exists s, In s l /\ si_signo s = HUP) -> l_RequestedReload w' = true) /\
  ((exists s, In s l /\ si_signo s = USR1) -> l_RequestedReopenLogs w' = true).
Proof.
  revert w. induction l as [|s l IH]; intros w; simpl.
  - intros _. split; intros [s [[] _]].
  - unfold bind. destruct (deliver P s w) as [[] w1|] eqn:E; [|intros H; discriminate H].
    intros H.
    destruct (deliver_sets_flag _ _ _ E) as [Hr Hl], (IH _ H) as [IHr IHl],
      (deliver_all_keeps_flags _ _ _ H) as [Kr Kl].
    split; intros [s' [[<- | Hin] Hs]]; eauto.
Qed.

End Flags.

(** ** The worker's handler *)

Lemma WorkerSignalHandler_UmbrellaPid (P : platform) (num sender : Z) (k k' : worker) :
  WorkerSignalHandler P num sender k = Some k' -> wk_UmbrellaPid k' = wk_UmbrellaPid k.
Proof.
  unfold WorkerSignalHandler.
  repeat match goal with |- context [if ?c then _ else _] => destruct c end;
    intros H; try discriminate H; injection H as <-; reflexivity.
Qed.

Lemma WorkerSignalHandler_foreign (P : platform) (num sender : Z) (k : worker) :
  worker_signal P num = true -> sender <> wk_UmbrellaPid k ->
  WorkerSignalHandler P num sender k = Some k.
Proof.
  unfold worker_signal, WorkerSignalHandler. intros Hnum Hs.
  apply Z.eqb_neq in Hs. rewrite Hs.
  destruct (num =? SIGUSR2 P); [reflexivity|].
  simpl in Hnum. rewrite Hnum. reflexivity.
Qed.

(** C8.  The worker's handler acts for its umbrella only.  (1) A
    [SIGUSR2], [SIGINT] or [SIGTERM] from any other sender leaves the worker
    as it is.  (2) The gate [l_AllowedToWork] opens only on a [SIGUSR2] sent
    by the umbrella, and shutdown is requested only on a [SIGINT] or
    [SIGTERM] sent by the umbrella.  (3) A run over a sequence of such
    signals ends in the same worker state as the run over the umbrella's
    signals alone: what other senders send cannot be told from the outcome. *)
Theorem C8_worker_obeys_umbrella_only (P : platform) (k : worker) :
  (forall num sender, worker_signal P num = true -> sender <> wk_UmbrellaPid k ->
     WorkerSignalHandler P num sender k = Some k) /\
  (forall num sender k', WorkerSignalHandler P num sender k = Some k' ->
     (l_AllowedToWork k = false -> l_AllowedToWork k' = true ->
        num = SIGUSR2 P /\ sender = wk_UmbrellaPid k) /\
     (shutdown_requested k = false -> shutdown_requested k' = true ->
        (num = SIGINT P \/ num = SIGTERM P) /\ sender = wk_UmbrellaPid k)) /\
  (forall sigs, Forall (fun s => worker_signal P (fst s) = true) sigs ->
     worker_handle_all P sigs k =
     worker_handle_all P (filter (from_umbrella k) sigs) k).
Proof.
  split; [|split].
  - intros num sender. apply WorkerSignalHandler_foreign.
  - intros num sender k'. unfold WorkerSignalHandler.
    destruct (num =? SIGUSR2 P) eqn:E2.
    + destruct (sender =? wk_UmbrellaPid k) eqn:Es; intros H; injection H as <-; simpl.
      * apply Z.eqb_eq in E2, Es. split; [auto|]. intros A B. congruence.
      * split; intros A B; congruence.
    + destruct ((num =? SIGINT P) || (num =? SIGTERM P)) eqn:E; [|intros H; discriminate H].
      destruct (sender =? wk_UmbrellaPid k) eqn:Es; intros H; injection H as <-; simpl.
      * apply Z.eqb_eq in Es. apply orb_true_iff in E. rewrite !Z.eqb_eq in E.
        split; [intros A B; congruence | auto].
      * split; intros A B; congruence.
  - intros sigs Hall. revert k.
    induction Hall as [|[num sender] sigs Hnum _ IH]; intros k.
    + reflexivity.
    + simpl in Hnum. simpl. unfold from_umbrella at 1. simpl snd.
      destruct (sender =? wk_UmbrellaPid k) eqn:Es.
      * simpl. destruct (WorkerSignalHandler P num sender k) as [k1|] eqn:E; [|reflexivity].
        rewrite IH. apply WorkerSignalHandler_UmbrellaPid in E.
        unfold from_umbrella. rewrite E. reflexivity.
      * apply Z.eqb_neq in Es.
        rewrite (WorkerSignalHandler_foreign P num sender k Hnum Es). apply IH.
Qed.

Lemma C8_witness :
  worker_handle_all (linux true) [(12, 666); (15, 666); (12, 77); (2, 5)]
    (mkWorker 77 false false)
  = worker_handle_all (linux true) [(12, 77)] (mkWorker 77 false false).
Proof.
  destruct (C8_worker_obeys_umbrella_only (linux true) (mkWorker 77 false false))
    as (_ & _ & H).
  apply (H [(12, 666); (15, 666); (12, 77); (2, 5)]).
  repeat constructor.
Defined.

(** ** The watchdog throttle *)

Lemma watchdog_due_iff (now last : Q) :
  watchdog_due now last = true <-> (last + (5 # 2) <= now)%Q.
Proof.
  unfold watchdog_due. rewrite Qle_bool_iff. split; intros H; lra.
Qed.

Lemma watchdog_emissions_after (calls : list Q) (last : Q) :
  Forall (throttle_gap last) (watchdog_emissions calls last) /\
  StronglySorted throttle_gap (watchdog_emissions calls last).
Proof.
  revert last. induction calls as [|now calls IH]; intros last; simpl.
  - split; constructor.
  - unfold NotifyWatchdog_at. destruct (watchdog_due now last) eqn:E.
    + apply watchdog_due_iff in E. destruct (IH now) as [Hall Hsorted].
      split.
      * constructor; [exact E|].
        eapply Forall_impl; [|exact Hall]. unfold throttle_gap. intros t Ht. lra.
      * constructor; assumption.
    + apply IH.
Qed.

Lemma NotifyWatchdog_Ok (P : platform) (o : oracle) (w w' : world) :
  NotifyWatchdog P o w = Ok tt w' ->
  let (due, last') := NotifyWatchdog_at (o_time o (tick w)) (l_LastNotifiedWatchdog w) in
  l_LastNotifiedWatchdog w' = last' /\
  trace w' = trace w ++ (if due then [EvSdNotify SD_WATCHDOG] else []).
Proof.
  unfold NotifyWatchdog, GetTime, load, store, atomic, sd_notify, bind, emit, ret.
  intros H.
  sync_step; [|discriminate H].
  sync_step; [|discriminate H].
  rewrite (rely_LastNotified _ _ E0), (rely_LastNotified _ _ E) in H.
  unfold NotifyWatchdog_at in *.
  destruct (watchdog_due (o_time o (tick w)) (l_LastNotifiedWatchdog w)).
  - sync_step; [|discriminate H]. sync_step; [|discriminate H].
    injection H as <-. split; [reflexivity|]. rely_traces. reflexivity.
  - injection H as <-. split.
    + rewrite (rely_LastNotified _ _ E0), (rely_LastNotified _ _ E). reflexivity.
    + rely_traces. symmetry. apply app_nil_r.
Qed.

(** C9.  For every sequence of calls of the keepalive routine, made at any
    times and starting from any value [last] of [l_LastNotifiedWatchdog],
    the times at which a notification is emitted are pairwise at least 2.5
    apart (each one at least 2.5 after every earlier one), and the first is
    at least 2.5 after [last].  Nothing is assumed about the order of the
    timestamps; time is an exact rational here.  One call decides as
    follows: with [now] the time it reads, it sends the notification and
    stores [now] if [now] is at least 2.5 after the stored time, and does
    nothing otherwise - and this is what a completed [NotifyWatchdog] does
    to the trace and to [l_LastNotifiedWatchdog], whatever signals are
    handled meanwhile. *)
Theorem C9_watchdog_throttled (calls : list Q) (last : Q) :
  StronglySorted throttle_gap (watchdog_emissions calls last) /\
  Forall (throttle_gap last) (watchdog_emissions calls last) /\
  (forall now last', NotifyWatchdog_at now last' = (true, now) \/
                     (NotifyWatchdog_at now last' = (false, last') /\
                      ~ throttle_gap last' now)) /\
  (forall P o w w',
     NotifyWatchdog P o w = Ok tt w' ->
     let (due, last') :=
       NotifyWatchdog_at (o_time o (tick w)) (l_LastNotifiedWatchdog w) in
     l_LastNotifiedWatchdog w' = last' /\
     trace w' = trace w ++ (if due then [EvSdNotify SD_WATCHDOG] else [])).
Proof.
  destruct (watchdog_emissions_after calls last) as [Hall Hsorted].
  split; [exact Hsorted | split; [exact Hall | split]].
  - intros now last'. unfold NotifyWatchdog_at.
    destruct (watchdog_due now last') eqn:E; [left; reflexivity | right].
    split; [reflexivity|]. intros H. apply watchdog_due_iff in H. congruence.
  - exact NotifyWatchdog_Ok.
Qed.

(** Fifty calls within one second, 0.02 apart, starting at time 1000 with
    nothing notified before: one notification. *)
Example watchdog_fifty_calls_in_a_second :
  length (watchdog_emissions
            (map (fun i => 1000 + inject_Z (Z.of_nat i) / 50)%Q (seq 0 50)) 0%Q) = 1%nat.
Proof. vm_compute. reflexivity. Qed.

(** ** Exit status translation *)




Section ExitStatus.

Variable P : platform.
Variable o : oracle.

Lemma check_worker_exit_Some (cw : Z) (nt : bool) (w w' : world) (code : Z) :
  check_worker_exit P o cw nt w = Ok (Some code) w' ->
  exists r post,
    trace w' = trace w ++ EvWaitpid cw WNOHANG r :: EvLog (LogWorkerStopped cw) :: post /\
    (post = [] \/ post = [EvSdNotify SD_STOPPING]) /\
    0 < w_ret r /\ code = exit_status_of (w_status r).
Proof.
  unfold check_worker_exit, waitpid, Log, sd_notify, bind, emit, ret. intros H.
  sync_step; [|discriminate H].
  destruct (0 <? w_ret (o_waitpid o (tick w))) eqn:Hret; [|discriminate H].
  apply Z.ltb_lt in Hret.
  sync_step; [|discriminate H].
  destruct (HAVE_SYSTEMD P && negb nt).
  - sync_step; [|discriminate H]. injection H as <- <-.
    exists (o_waitpid o (tick w)), [EvSdNotify SD_STOPPING]. rely_traces. auto.
  - injection H as <- <-.
    exists (o_waitpid o (tick w)), []. rely_traces. auto.
Qed.

Lemma umbrella_iteration_Return (fuel : nat) (cw : Z) (rt nt : bool)
    (w w' : world) (code : Z) :
  umbrella_iteration P o fuel cw rt nt w = Ok (Return code) w' ->
  exists cw' nt' w1, check_worker_exit P o cw' nt' w1 = Ok (Some code) w'.
Proof.
  unfold umbrella_iteration. intros H.
  apply bind_Ok in H. destruct H as (_ & w1 & _ & H).
  apply bind_Ok in H. destruct H as (flags & w2 & _ & H).
  apply bind_Ok in H. destruct H as (b & w3 & _ & H).
  apply bind_Ok in H. destruct H as (cw' & w4 & _ & H).
  apply bind_Ok in H. destruct H as (_ & w5 & _ & H).
  apply bind_Ok in H. destruct H as (ex & w6 & Hex & H).
  destruct ex as [c|].
  - injection H as <- <-. eauto.
  - apply bind_Ok in H. destruct H as (_ & w7 & _ & H). discriminate H.
Qed.

End ExitStatus.


(** ** The start state of the worker being spawned *)

Lemma Run_history_kept (P : platform) (o : oracle) (fuel : nat) (w : world) :
  history_kept w (world_of (Run P o fuel w)).
Proof.
  apply (respects_Run P o history_kept (fun _ => true));
    unfold history_kept; auto.
  - intros w0 w' Hr. apply (rely_history _ _ Hr).
  - intros w0. apply history_ok_store.
    destruct (l_CurrentlyStartingUnixWorkerState w0); reflexivity.
Qed.

Lemma allowed_transition_cases (a b : UnixWorkerState) :
  allowed_transition a b = true ->
  (a = Pending /\ (b = LoadedConfig \/ b = Failed)) \/ b = Pending.
Proof. destruct a, b; simpl; intros H; try discriminate H; auto. Qed.

Section Quiescence.

Variable P : platform.
Variable o : oracle.

Lemma UmbrellaSignalHandler_other_sender (s : usig) (pid : Z) (w w' : world) :
  pid <> l_CurrentlyStartingUnixWorkerPid w ->
  UmbrellaSignalHandler P (signo P s) pid w = Some w' ->
  l_CurrentlyStartingUnixWorkerState w' = l_CurrentlyStartingUnixWorkerState w.
Proof.
  intros Hpid. apply Z.eqb_neq in Hpid.
  unfold UmbrellaSignalHandler. switch_on_signal. rewrite Hpid, andb_false_r.
  destruct s; simpl; intros H; injection H as <-; reflexivity.
Qed.

Lemma deliver_all_quiescent (l : list siginfo) (w : world) :
  Forall (fun s => si_pid s <> -1) l ->
  l_CurrentlyStartingUnixWorkerPid w = -1 ->
  l_CurrentlyStartingUnixWorkerState (world_of (deliver_all P l w)) =
  l_CurrentlyStartingUnixWorkerState w.
Proof.
  intros Hl. revert w. induction Hl as [|s l Hs _ IH]; intros w Hpid; [reflexivity|].
  simpl. unfold bind.
  pose proof (deliver_rely P s w) as Hr.
  assert (l_CurrentlyStartingUnixWorkerState (world_of (deliver P s w)) =
          l_CurrentlyStartingUnixWorkerState w) as Hst.
  { unfold deliver. destruct (sigdisp w (signo P (si_signo s))).
    - destruct (default_terminates (si_signo s)); reflexivity.
    - destruct (UmbrellaSignalHandler P (signo P (si_signo s)) (si_pid s) w) eqn:E;
        [|reflexivity].
      simpl. eapply UmbrellaSignalHandler_other_sender; [|exact E]. congruence. }
  destruct (deliver P s w) as [[] w1|r w1]; simpl in *; [|exact Hst].
  rewrite IH; [exact Hst|]. rewrite (rely_StartingPid _ _ Hr). exact Hpid.
Qed.

Lemma sync_quiescent (w : world) :
  senders_are_processes o ->
  l_CurrentlyStartingUnixWorkerPid w = -1 ->
  l_CurrentlyStartingUnixWorkerState (world_of (sync P o w)) =
  l_CurrentlyStartingUnixWorkerState w.
Proof.
  intros Hwf Hpid. unfold sync. simpl sigblocked. destruct (sigblocked w); [reflexivity|].
  unfold bind.
  pose proof (deliver_all_quiescent (o_signals o (tick w)) (set_tick (S (tick w)) w)) as H.
  destruct (deliver_all P (o_signals o (tick w)) (set_tick (S (tick w)) w));
    simpl in *; apply H; auto; apply Forall_forall; intros s Hs; eapply Hwf; exact Hs.
Qed.

Lemma StartUnixWorker_resets (fuel : nat) (w w' : world) (pid : Z) :
  senders_are_processes o ->
  StartUnixWorker P o fuel w = Ok pid w' ->
  l_CurrentlyStartingUnixWorkerState w' = Pending /\
  l_CurrentlyStartingUnixWorkerPid w' = -1.
Proof.
  intros Hwf H. unfold StartUnixWorker in H.
  apply bind_Ok in H. destruct H as (_ & w1 & _ & H).
  apply bind_Ok in H. destruct H as (_ & w2 & _ & H).
  apply bind_Ok in H. destruct H as (_ & w3 & _ & H).
  apply bind_Ok in H. destruct H as (p & w4 & _ & H).
  destruct (p =? -1).
  { apply bind_Ok in H. destruct H as (_ & w5 & _ & H). discriminate H. }
  destruct (p =? 0); [discriminate H|].
  apply bind_Ok in H. destruct H as (_ & w5 & _ & H).
  apply bind_Ok in H. destruct H as (_ & w6 & _ & H).
  apply bind_Ok in H. destruct H as (_ & w7 & _ & H).
  apply bind_Ok in H. destruct H as (pid' & w8 & _ & H).
  apply bind_Ok in H. destruct H as ([] & w9 & H9 & H).
  apply bind_Ok in H. destruct H as ([] & w10 & H10 & H).
  apply bind_Ok in H. destruct H as ([] & w11 & H11 & H).
  injection H as _ <-.
  unfold store, atomic, bind in H9, H10.
  destruct (sync P o w8) as [n8 v8|]; [|discriminate H9].
  injection H9 as Hw9. subst w9.
  destruct (sync P o (set_StartingPid (-1) v8)) as [n9 v9|] eqn:E9; [|discriminate H10].
  injection H10 as Hw10. subst w10. apply sync_Ok in E9. destruct E9 as [_ E9].
  pose proof (rely_StartingPid _ _ E9) as Hp. simpl in Hp.
  unfold base_or_exit, bind in H11.
  pose proof (sync_quiescent (set_StartingState Pending v9) Hwf Hp) as Hq.
  destruct (sync P o (set_StartingState Pending v9)) as [n10 v10|] eqn:E10;
    [|discriminate H11].
  apply sync_Ok in E10. destruct E10 as [_ E10].
  destruct (o_throws o n10).
  { destruct (Log P o LogReinitFailed v10); discriminate H11. }
  injection H11 as Hw11. subst w11. simpl in Hq. split; [exact Hq|].
  rewrite (rely_StartingPid _ _ E10). exact Hp.
Qed.

End Quiescence.


(** ** What a run adds to the trace *)

Lemma emits_only_refl (allowed : event -> bool) (w : world) : emits_only allowed w w.
Proof. exists []. split; [symmetry; apply app_nil_r | constructor]. Qed.

Lemma emits_only_trans (allowed : event -> bool) (w1 w2 w3 : world) :
  emits_only allowed w1 w2 -> emits_only allowed w2 w3 -> emits_only allowed w1 w3.
Proof.
  intros (d1 & H1 & F1) (d2 & H2 & F2). exists (d1 ++ d2). split.
  - rewrite H2, H1. symmetry. apply app_assoc.
  - apply Forall_app. split; assumption.
Qed.

Lemma emits_only_same_trace (allowed : event -> bool) (w w' : world) :
  trace w' = trace w -> emits_only allowed w w'.
Proof. intros H. exists []. split; [rewrite app_nil_r; exact H | constructor]. Qed.

Lemma emits_only_event (allowed : event -> bool) (e : event) (w : world) :
  allowed e = true -> emits_only allowed w (record_event e w).
Proof. intros H. exists [e]. split; [reflexivity | constructor; [exact H | constructor]]. Qed.

Lemma emits_only_weaken (p q : event -> bool) (w w' : world) :
  (forall e, p e = true -> q e = true) -> emits_only p w w' -> emits_only q w w'.
Proof.
  intros Hpq (d & H & F). exists d. split; [exact H|].
  eapply Forall_impl; [|exact F]. exact Hpq.
Qed.

Lemma emits_only_rely (allowed : event -> bool) (w w' : world) :
  async_rely w w' -> emits_only allowed w w'.
Proof. intros Hr. apply emits_only_same_trace, (rely_trace _ _ Hr). Qed.

Section TraceFacts.

Variable P : platform.
Variable o : oracle.

Lemma NotifyWatchdog_emits (allowed : event -> bool) (w : world) :
  allowed (EvSdNotify SD_WATCHDOG) = true ->
  emits_only allowed w (world_of (ifdef_HAVE_SYSTEMD P (NotifyWatchdog P o) w)).
Proof.
  intros Ha.
  apply (respects_ifdef P (emits_only allowed) (emits_only_refl allowed)).
  apply (respects_NotifyWatchdog P o (emits_only allowed) allowed
           (emits_only_refl allowed) (emits_only_trans allowed)
           (emits_only_rely allowed) (emits_only_event allowed)
           (fun v w0 => emits_only_same_trace allowed w0 _ eq_refl) Ha).
Qed.

Lemma StartUnixWorker_emits (fuel : nat) (w : world) :
  emits_only is_spawn_event w (world_of (StartUnixWorker P o fuel w)).
Proof.
  apply (respects_StartUnixWorker P o (emits_only is_spawn_event) is_spawn_event
           (emits_only_refl _) (emits_only_trans _)
           (emits_only_rely _) (emits_only_event _)
           (fun v w0 => emits_only_same_trace _ w0 _ eq_refl)
           (fun v w0 => emits_only_same_trace _ w0 _ eq_refl)
           (fun w0 => emits_only_same_trace _ w0 _ eq_refl)
           (fun b p w0 => emits_only_same_trace _ w0 _ eq_refl)).
  auto.
Qed.

Lemma is_spawn_event_not_kill (e : event) :
  is_spawn_event e = true -> negb (is_kill e) = true.
Proof. destruct e; simpl; intros H; try reflexivity; discriminate H. Qed.

(** Up to the return of [StartUnixWorker], a reload signals nobody. *)
Lemma reload_spawn_phase_no_kill (fuel : nat) (w : world) :
  emits_only (fun e => negb (is_kill e)) w
    (world_of ((reload_prelude P o ;; StartUnixWorker P o fuel) w)).
Proof.
  set (allowed := fun e => negb (is_kill e)).
  revert w.
  apply (respects_bind (emits_only allowed) (emits_only_trans allowed)).
  - unfold reload_prelude.
    apply (respects_bind (emits_only allowed) (emits_only_trans allowed)).
    + apply (respects_Log P o (emits_only allowed) allowed
               (emits_only_trans allowed) (emits_only_rely allowed)
               (emits_only_event allowed)).
      reflexivity.
    + intros _. apply (respects_ifdef P (emits_only allowed) (emits_only_refl allowed)).
      apply (respects_sd_notify P o (emits_only allowed) allowed
               (emits_only_trans allowed) (emits_only_rely allowed)
               (emits_only_event allowed)).
      reflexivity.
  - intros _ w. eapply emits_only_weaken; [|apply StartUnixWorker_emits].
    apply is_spawn_event_not_kill.
Qed.

Lemma reload_after_spawn (fuel : nat) (cw nw : Z) (w w1 : world) :
  (reload_prelude P o ;; StartUnixWorker P o fuel) w = Ok nw w1 ->
  reload P o fuel cw w = reload_swap P o fuel cw nw w1.
Proof.
  intros H. apply bind_Ok in H. destruct H as ([] & wp & Hp & Hs).
  unfold reload, bind. rewrite Hp, Hs. reflexivity.
Qed.

(** The retry loop: while it runs it leaves interrupted waits and watchdog
    notifications; it ends with the first wait that is not interrupted. *)
Lemma waitpid_retry_trace (fuel : nat) (pid : Z) (w : world) :
  exists waits,
    Forall (fun e => is_retry_event P pid e = true) waits /\
    match waitpid_retry P o fuel pid w with
    | Ok _ w' => exists r, interrupted P r = false /\
                   trace w' = trace w ++ waits ++ [EvWaitpid pid WaitBlocking r]
    | Stop _ w' => trace w' = trace w ++ waits
    end.
Proof.
  revert w. induction fuel as [|fuel IH]; intros w.
  { exists []. split; [constructor | symmetry; apply app_nil_r]. }
  simpl. unfold waitpid, bind at 1 2 3, emit, ret.
  sync_step.
  2:{ exists []. split; [constructor|]. rely_traces. symmetry. apply app_nil_r. }
  destruct (interrupted P (o_waitpid o (tick w))) eqn:Hint.
  - unfold bind.
    assert (is_retry_event P pid (EvWaitpid pid WaitBlocking (o_waitpid o (tick w))) = true)
      as Hev by (simpl; rewrite Z.eqb_refl, Hint; reflexivity).
    assert (trace (record_event (EvWaitpid pid WaitBlocking (o_waitpid o (tick w))) w0)
            = trace w ++ [EvWaitpid pid WaitBlocking (o_waitpid o (tick w))])
      as Hwa by (rely_traces; reflexivity).
    remember (record_event (EvWaitpid pid WaitBlocking (o_waitpid o (tick w))) w0) as wa.
    destruct (NotifyWatchdog_emits (is_retry_event P pid) wa eq_refl) as (dn & Hdn & Fdn).
    destruct (ifdef_HAVE_SYSTEMD P (NotifyWatchdog P o) wa) as [[] wb|r wb]; simpl in Hdn.
    + destruct (IH wb) as (waits & Fw & Hw).
      exists (EvWaitpid pid WaitBlocking (o_waitpid o (tick w)) :: dn ++ waits).
      split; [constructor; [exact Hev | apply Forall_app; split; assumption]|].
      destruct (waitpid_retry P o fuel pid wb) as [[] wc|r wc].
      * destruct Hw as (r & Hr & Hw). exists r. split; [exact Hr|].
        rewrite Hw, Hdn, Hwa. list_eq.
      * rewrite Hw, Hdn, Hwa. list_eq.
    + exists (EvWaitpid pid WaitBlocking (o_waitpid o (tick w)) :: dn).
      split; [constructor; assumption|].
      rewrite Hdn, Hwa. list_eq.
  - exists []. split; [constructor|].
    exists (o_waitpid o (tick w)). split; [exact Hint|]. rely_traces. reflexivity.
Qed.

End TraceFacts.

(** ** Reload *)

Section Reload.

Variable P : platform.
Variable o : oracle.

Lemma spawn_phase_trace (fuel : nat) (nw : Z) (w w1 : world) :
  (reload_prelude P o ;; StartUnixWorker P o fuel) w = Ok nw w1 ->
  exists d0, trace w1 = trace w ++ d0 /\ Forall (fun e => is_kill e = false) d0.
Proof.
  intros H. destruct (reload_spawn_phase_no_kill P o fuel w) as (d0 & Hd0 & F0).
  rewrite H in Hd0. exists d0. split; [exact Hd0|].
  eapply Forall_impl; [|exact F0]. intros e. apply negb_true_iff.
Qed.

Lemma reload_swap_failed (fuel : nat) (cw : Z) (w1 : world) :
  match reload_swap P o fuel cw (-1) w1 with
  | Ok cw' _ => cw' = cw
  | Stop r _ => exists sig, r = Killed sig
  end /\
  exists d, trace (world_of (reload_swap P o fuel cw (-1) w1)) = trace w1 ++ d /\
            Forall (fun e => is_kill e = false) d.
Proof.
  unfold reload_swap. change (-1 =? -1) with true. cbv iota.
  unfold ifdef_HAVE_SYSTEMD, Log, sd_notify, bind, emit, ret.
  sync_step.
  2:{ split; [eauto|]. exists []. split; [rely_traces; symmetry; apply app_nil_r | constructor]. }
  destruct (HAVE_SYSTEMD P).
  - sync_step.
    + split; [reflexivity|].
      exists [EvLog LogReloadAborted; EvSdNotify SD_READY].
      split; [rely_traces; reflexivity | repeat constructor].
    + split; [eauto|]. exists [EvLog LogReloadAborted].
      split; [rely_traces; reflexivity | repeat constructor].
  - split; [reflexivity|]. exists [EvLog LogReloadAborted].
    split; [rely_traces; reflexivity | repeat constructor].
Qed.

End Reload.

(** C2.  Whenever, in a reload, the spawn of the new worker returns the
    failure sentinel [-1], the reload sends no signal to any process - so
    none to the active worker - from its first step to its last, and it
    hands back the value of [currentWorker] it was given.  (The only other
    way for it to end is the umbrella itself being killed by a signal.) *)
Theorem C2_failed_spawn_leaves_worker_alone
    (P : platform) (o : oracle) (fuel : nat) (currentWorker : Z) (w w1 : world) :
  (reload_prelude P o ;; StartUnixWorker P o fuel) w = Ok (-1) w1 ->
  match reload P o fuel currentWorker w with
  | Ok currentWorker' _ => currentWorker' = currentWorker
  | Stop r _ => exists sig, r = Killed sig
  end /\
  exists d, trace (world_of (reload P o fuel currentWorker w)) = trace w ++ d /\
            Forall (fun e => is_kill e = false) d.
Proof.
  intros H. rewrite (reload_after_spawn P o fuel currentWorker _ _ _ H).
  destruct (spawn_phase_trace P o fuel _ _ _ H) as (d0 & Hd0 & F0).
  destruct (reload_swap_failed P o fuel currentWorker w1) as (Hres & d & Hd & F).
  split; [exact Hres|].
  exists (d0 ++ d). split.
  - rewrite Hd, Hd0. symmetry. apply app_assoc.
  - apply Forall_app. split; assumption.
Qed.

Section ReloadSwap.

Variable P : platform.
Variable o : oracle.


Lemma reload_swap_Ok (fuel : nat) (cw nw cw' : Z) (w1 w' : world) :
  (nw =? -1) = false ->
  reload_swap P o fuel cw nw w1 = Ok cw' w' ->
  cw' = nw /\
  exists waits r t,
    Forall (fun e => is_retry_event P cw e = true) waits /\
    interrupted P r = false /\
    trace w' = trace w1 ++
      [EvLog (LogReloadDone nw); EvKill cw (SIGTERM P)] ++ waits ++
      [EvWaitpid cw WaitBlocking r; EvLog (LogWaited t); EvKill nw (SIGUSR2 P)] ++
      ready_events P.
Proof.
  intros Hnw. unfold reload_swap, ready_events. rewrite Hnw.
  unfold ifdef_HAVE_SYSTEMD, Log, kill, GetTime, sd_notify, bind, emit, ret.
  intros H.
  sync_step; [|discriminate H].
  sync_step; [|discriminate H].
  sync_step; [|discriminate H].
  match type of H with context [waitpid_retry P o fuel cw ?w] =>
    destruct (waitpid_retry_trace P o fuel cw w) as (waits & Fw & Hw);
    destruct (waitpid_retry P o fuel cw w) as [[] wl|r wl]
  end; [|discriminate H].
  destruct Hw as (r & Hr & Hw).
  sync_step; [|discriminate H].
  sync_step; [|discriminate H].
  sync_step; [|discriminate H].
  destruct (HAVE_SYSTEMD P); [sync_step; [|discriminate H]|];
    injection H as <- <-; (split; [reflexivity|]);
    exists waits, r; eexists; (split; [exact Fw | split; [exact Hr|]]);
    rely_traces; reflexivity.
Qed.
End ReloadSwap.

Section ReloadOrder.

Variable P : platform.
Variable o : oracle.




End ReloadOrder.


(** ** Startup *)

Section Startup.

Variable P : platform.
Variable o : oracle.

Lemma Run_after_spawn (fuel : nat) (cw : Z) (w w1 : world) :
  startup_spawn P o fuel w = Ok cw w1 ->
  Run P o fuel w =
  (if cw =? -1 then ret (EXIT_FAILURE P)
   else kill P o cw (SIGUSR2 P) ;;
        ifdef_HAVE_SYSTEMD P (sd_notify P o SD_READY) ;;
        main_loop P o fuel cw false false) w1.
Proof.
  intros H. unfold startup_spawn, Run, bind in *. cbv beta in *.
  destruct (install_umbrella_handlers P o (set_UmbrellaPid (o_getpid o) w)) as [[] wb|];
    [|discriminate H].
  rewrite H. reflexivity.
Qed.

Lemma startup_spawn_emits (fuel : nat) (w : world) :
  emits_only is_spawn_event w (world_of (startup_spawn P o fuel w)).
Proof.
  revert w. unfold startup_spawn, install_umbrella_handlers.
  apply (respects_bind _ (emits_only_trans _)).
  { intros w. apply emits_only_same_trace. reflexivity. }
  intros _. apply (respects_bind _ (emits_only_trans _)).
  { apply (respects_install_umbrella_handlers P o _
             (emits_only_trans _) (emits_only_rely _)).
    intros num d w. apply emits_only_same_trace. reflexivity. }
  intros _ w. apply StartUnixWorker_emits.
Qed.

End Startup.

(** C10.  When the first [StartUnixWorker] of [Run] has returned (having
    emitted nothing but its own log lines, its [fork] and watchdog
    notifications - no signal to anyone): if it returned [-1], [Run] returns
    [EXIT_FAILURE] then and there, in the very world the spawn left, so the
    loop is not entered; otherwise the next thing [Run] does is
    [kill (currentWorker, SIGUSR2)], then the "ready" notification, and only
    then does it enter the main loop, with both termination flags unset -
    unless a signal kills the umbrella itself on the way. *)
Theorem C10_first_worker_continues_at_once
    (P : platform) (o : oracle) (fuel : nat) (w w1 : world) (currentWorker : Z) :
  startup_spawn P o fuel w = Ok currentWorker w1 ->
  (exists d0, trace w1 = trace w ++ d0 /\ Forall (fun e => is_spawn_event e = true) d0) /\
  (currentWorker = -1 -> Run P o fuel w = Ok (EXIT_FAILURE P) w1) /\
  (currentWorker <> -1 ->
     (exists w2,
        Run P o fuel w = main_loop P o fuel currentWorker false false w2 /\
        trace w2 = trace w1 ++ EvKill currentWorker (SIGUSR2 P) :: ready_events P) \/
     (exists sig w2,
        Run P o fuel w = Stop (Killed sig) w2 /\
        (trace w2 = trace w1 \/
         trace w2 = trace w1 ++ [EvKill currentWorker (SIGUSR2 P)]))).
Proof.
  intros H. split; [|split].
  - pose proof (startup_spawn_emits P o fuel w) as He. rewrite H in He. exact He.
  - intros ->. rewrite (Run_after_spawn P o fuel _ _ _ H). reflexivity.
  - intros Hcw. apply Z.eqb_neq in Hcw.
    rewrite (Run_after_spawn P o fuel _ _ _ H), Hcw.
    unfold ready_events, ifdef_HAVE_SYSTEMD, kill, sd_notify, emit, ret, bind.
    sync_step.
    2:{ right. eexists _, _. split; [reflexivity|]. left. rely_traces. reflexivity. }
    destruct (HAVE_SYSTEMD P).
    + sync_step.
      * left. eexists. split; [reflexivity|]. rely_traces. reflexivity.
      * right. eexists _, _. split; [reflexivity|]. right. rely_traces. reflexivity.
    + left. eexists. split; [reflexivity|]. rely_traces. reflexivity.
Qed.

(** ** Forwarding a termination signal *)

Lemma count_events_app (p : event -> bool) (d1 d2 : list event) :
  count_events p (d1 ++ d2) = (count_events p d1 + count_events p d2)%nat.
Proof. unfold count_events. rewrite filter_app. apply length_app. Qed.

Lemma count_events_none (p : event -> bool) (d : list event) :
  Forall (fun e => p e = false) d -> count_events p d = 0%nat.
Proof.
  unfold count_events. induction 1 as [|e d He _ IH]; [reflexivity|].
  simpl. rewrite He. exact IH.
Qed.

Lemma spent_trans (rt nt rt1 nt1 rt2 nt2 : bool) (w w1 w2 : world) :
  spent rt nt w w1 rt1 nt1 -> spent rt1 nt1 w1 w2 rt2 nt2 -> spent rt nt w w2 rt2 nt2.
Proof.
  intros (d1 & H1 & F1 & S1) (d2 & H2 & F2 & S2). exists (d1 ++ d2).
  rewrite !count_events_app. split; [|lia].
  rewrite H2, H1. symmetry. apply app_assoc.
Qed.

Lemma spent_final (rt nt rt' nt' : bool) (w w' : world) :
  spent rt nt w w' rt' nt' -> spent rt nt w w' true true.
Proof. intros (d & H & F & S). exists d. simpl. split; [exact H | lia]. Qed.

Lemma spent_quiet (rt nt : bool) (w w' : world) :
  emits_only is_quiet w w' -> spent rt nt w w' rt nt.
Proof.
  intros (d & H & F). exists d. split; [exact H|].
  rewrite !count_events_none; [lia | |];
    (eapply Forall_impl; [|exact F]); intros e He;
    apply andb_true_iff in He; destruct He as [H1 H2];
    apply negb_true_iff; assumption.
Qed.

Lemma budget_bind {A B : Type} (rt nt : bool) (g : A -> bool * bool)
    (h : B -> bool * bool) (m : M A) (f : A -> M B) :
  budget_ok rt nt g m ->
  (forall a, budget_ok (fst (g a)) (snd (g a)) h (f a)) ->
  budget_ok rt nt h (bind m f).
Proof.
  intros Hm Hf w. unfold bind. specialize (Hm w).
  destruct (m w) as [a w1|r w1]; [|exact Hm].
  specialize (Hf a w1). destruct (f a w1) as [b w2|r w2];
    eapply spent_trans; eassumption.
Qed.

Lemma budget_quiet {A : Type} (rt nt : bool) (m : M A) :
  (forall w, emits_only is_quiet w (world_of (m w))) ->
  budget_ok rt nt (fun _ => (rt, nt)) m.
Proof.
  intros H w. specialize (H w). destruct (m w); simpl in *.
  - apply spent_quiet, H.
  - eapply spent_final, spent_quiet, H.
Qed.

Section Forwarding.

Variable P : platform.
Variable o : oracle.

Lemma is_quiet_allowed (e : event) :
  is_forward_term e = false -> is_stopping e = false -> is_quiet e = true.
Proof. intros H1 H2. unfold is_quiet. rewrite H1, H2. reflexivity. Qed.

Lemma reload_quiet (fuel : nat) (cw : Z) (w : world) :
  emits_only is_quiet w (world_of (reload P o fuel cw w)).
Proof.
  apply (respects_reload P o (emits_only is_quiet) is_quiet
           (emits_only_refl _) (emits_only_trans _)
           (emits_only_rely _) (emits_only_event _)
           (fun v w0 => emits_only_same_trace _ w0 _ eq_refl)
           (fun v w0 => emits_only_same_trace _ w0 _ eq_refl)
           (fun w0 => emits_only_same_trace _ w0 _ eq_refl)
           (fun b p w0 => emits_only_same_trace _ w0 _ eq_refl)
           is_quiet_allowed).
Qed.

Lemma forward_reopen_logs_quiet (cw : Z) (w : world) :
  emits_only is_quiet w (world_of (forward_reopen_logs P o cw w)).
Proof.
  apply (respects_forward_reopen_logs P o (emits_only is_quiet) is_quiet
           (emits_only_refl _) (emits_only_trans _)
           (emits_only_rely _) (emits_only_event _)
           (fun v w0 => emits_only_same_trace _ w0 _ eq_refl)
           is_quiet_allowed).
Qed.

Lemma forward_termination_budget (cw : Z) (rt nt : bool) :
  budget_ok rt nt (fun flags => flags) (forward_termination P o cw rt nt).
Proof.
  intros w. unfold forward_termination.
  destruct rt.
  { apply spent_quiet, emits_only_refl. }
  change (negb false) with true. cbv iota.
  unfold load, atomic, Log, kill, sd_notify, bind, emit, ret.
  sync_step.
  2:{ apply (spent_final _ _ false nt), spent_quiet, emits_only_rely. assumption. }
  destruct (negb (l_TermSignal w0 =? -1)).
  2:{ apply spent_quiet, emits_only_rely. assumption. }
  sync_step.
  2:{ apply (spent_final _ _ false nt), spent_quiet, emits_only_rely.
      eapply async_rely_trans; eassumption. }
  sync_step.
  2:{ eexists. split; [rely_traces; reflexivity|]. simpl. destruct nt; simpl; lia. }
  destruct (HAVE_SYSTEMD P && negb nt) eqn:Hc.
  - apply andb_true_iff in Hc. destruct Hc as [_ Hnt]. apply negb_true_iff in Hnt. subst nt.
    sync_step; (eexists; split; [rely_traces; reflexivity | simpl; lia]).
  - eexists. split; [rely_traces; reflexivity|]. simpl. destruct nt; simpl; lia.
Qed.

Lemma check_worker_exit_budget (cw : Z) (rt nt : bool) :
  budget_ok rt nt
    (fun ex => match ex with Some _ => (true, true) | None => (rt, nt) end)
    (check_worker_exit P o cw nt).
Proof.
  intros w. unfold check_worker_exit, waitpid, Log, sd_notify, bind, emit, ret.
  sync_step.
  2:{ apply (spent_final _ _ rt nt), spent_quiet, emits_only_rely. assumption. }
  destruct (0 <? w_ret (o_waitpid o (tick w))).
  2:{ apply spent_quiet. eexists. split; [rely_traces; reflexivity | repeat constructor]. }
  sync_step.
  2:{ apply (spent_final _ _ rt nt), spent_quiet.
      eexists. split; [rely_traces; reflexivity | repeat constructor]. }
  destruct (HAVE_SYSTEMD P && negb nt) eqn:Hc.
  - apply andb_true_iff in Hc. destruct Hc as [_ Hnt]. apply negb_true_iff in Hnt. subst nt.
    sync_step; (eexists; split; [rely_traces; reflexivity | simpl; lia]).
  - eexists. split; [rely_traces; reflexivity | simpl; lia].
Qed.

Lemma umbrella_iteration_budget (fuel : nat) (cw : Z) (rt nt : bool) :
  budget_ok rt nt flags_of_step (umbrella_iteration P o fuel cw rt nt).
Proof.
  unfold umbrella_iteration.
  eapply budget_bind.
  { apply (budget_quiet rt nt). intros w. apply NotifyWatchdog_emits. reflexivity. }
  intros u. cbv beta. simpl fst; simpl snd.
  eapply budget_bind; [apply forward_termination_budget|].
  intros [rt1 nt1]. cbv beta. simpl fst; simpl snd.
  eapply budget_bind.
  { apply (budget_quiet rt1 nt1). intros w.
    apply (respects_atomic P o (emits_only is_quiet)
             (emits_only_trans _) (emits_only_rely _)).
    intros w0. apply emits_only_same_trace. reflexivity. }
  intros requested. cbv beta. simpl fst; simpl snd.
  eapply budget_bind.
  { apply (budget_quiet rt1 nt1). intros w.
    destruct requested; [apply reload_quiet | apply emits_only_refl]. }
  intros cw'. cbv beta. simpl fst; simpl snd.
  eapply budget_bind.
  { apply (budget_quiet rt1 nt1). intros w. apply forward_reopen_logs_quiet. }
  intros u'. cbv beta. simpl fst; simpl snd.
  eapply budget_bind; [apply (check_worker_exit_budget cw' rt1 nt1)|].
  intros [code|]; cbv beta iota; simpl fst; simpl snd.
  - intros w. apply spent_quiet, emits_only_refl.
  - eapply budget_bind.
    + apply (budget_quiet rt1 nt1). intros w.
      apply (respects_Sleep P o (emits_only is_quiet)
               (emits_only_refl _) (emits_only_trans _) (emits_only_rely _)).
    + intros u'' w. apply spent_quiet, emits_only_refl.
Qed.

Lemma main_loop_budget (fuel : nat) (cw : Z) (rt nt : bool) :
  budget_ok rt nt (fun _ => (true, true)) (main_loop P o fuel cw rt nt).
Proof.
  revert cw rt nt. induction fuel as [|fuel IH]; intros cw rt nt.
  { intros w. apply (spent_final _ _ rt nt), spent_quiet, emits_only_refl. }
  simpl. eapply budget_bind; [apply umbrella_iteration_budget|].
  intros [cw' rt' nt'|code]; cbv beta; simpl fst; simpl snd.
  - apply IH.
  - intros w. apply spent_quiet, emits_only_refl.
Qed.

Lemma main_loop_TermSignal_kept (fuel : nat) (cw : Z) (rt nt : bool) (w : world) :
  TermSignal_kept w (world_of (main_loop P o fuel cw rt nt w)).
Proof.
  apply (respects_main_loop P o TermSignal_kept (fun _ => true));
    unfold TermSignal_kept; auto.
  intros w0 w' Hr. apply (rely_TermSignal _ _ Hr).
Qed.

End Forwarding.


Lemma C2_witness :
  match reload (linux true) reload_fails 3 100
          (handlers_installed (linux true) initial_world) with
  | Ok currentWorker' _ => currentWorker' = 100
  | Stop r _ => exists sig, r = Killed sig
  end.
Proof.
  apply (C2_failed_spawn_leaves_worker_alone (linux true) reload_fails 3 100
           (handlers_installed (linux true) initial_world)
           (world_of ((reload_prelude (linux true) reload_fails ;;
                       StartUnixWorker (linux true) reload_fails 3)
                        (handlers_installed (linux true) initial_world)))).
  vm_compute. reflexivity.
Defined.

Lemma C10_witness :
  exists w2,
    Run (linux true) startup_succeeds 3 initial_world
    = main_loop (linux true) startup_succeeds 3 200 false false w2 /\
    trace w2 = [EvLog LogSpawning; EvFork 200; EvLog (LogSpawned 200);
                EvLog LogLoadedConfig; EvKill 200 12; EvSdNotify SD_READY].
Proof.
  destruct (C10_first_worker_continues_at_once (linux true) startup_succeeds 3
              initial_world
              (world_of (startup_spawn (linux true) startup_succeeds 3 initial_world))
              200) as (_ & _ & H).
  - vm_compute. reflexivity.
  - destruct H as [(w2 & Hrun & Htr) | (sig & w2 & Hrun & _)].
    + lia.
    + exists w2. split; [exact Hrun | exact Htr].
    + exfalso. revert Hrun. vm_compute. intros Hrun. discriminate Hrun.
Defined.

(** C6, as stated, fails: the loop does not exchange [l_TermSignal] with
    its not-set value.  In this iteration a [SIGTERM] arrives, the loop sees
    it pending and forwards it to worker 100, and [l_TermSignal] still holds
    [SIGTERM] when the iteration is over. *)
Lemma C6_counterexample :
  exists w',
    umbrella_iteration (linux true) term_arrives 1 100 false false
      (handlers_installed (linux true) initial_world)
    = Ok (Continue 100 true true) w' /\
    trace w' = [EvLog (LogForwardTerm 15 100); EvKill 100 15; EvSdNotify SD_STOPPING;
                EvWaitpid 100 WNOHANG (mkWait 0 0 0)] /\
    l_TermSignal w' <> -1.
Proof.
  eexists. split; [vm_compute; reflexivity|].
  split; [reflexivity | simpl; lia].
Qed.

(** ** The termination signals *)

Section TerminationSignals.

Variable P : platform.

Lemma UmbrellaSignalHandler_keeps_default (s : usig) (pid num : Z) (w w' : world) :
  UmbrellaSignalHandler P (signo P s) pid w = Some w' ->
  sigdisp w num = SIG_DFL -> sigdisp w' num = SIG_DFL.
Proof.
  unfold UmbrellaSignalHandler. switch_on_signal.
  destruct s; simpl;
    try (destruct (UnixWorkerState_eqb _ _ && _));
    intros H; injection H as <-; simpl; auto;
    intros Hd; destruct (num =? _); auto.
Qed.

Lemma UmbrellaSignalHandler_TermSignal (s : usig) (pid : Z) (w w' : world) :
  UmbrellaSignalHandler P (signo P s) pid w = Some w' ->
  l_TermSignal w' =
  (if is_termination_signal s then signo P s else l_TermSignal w) /\
  (is_termination_signal s = true -> sigdisp w' (signo P s) = SIG_DFL).
Proof.
  unfold UmbrellaSignalHandler. switch_on_signal.
  destruct s; simpl;
    try (destruct (UnixWorkerState_eqb _ _ && _));
    intros H; injection H as <-; simpl; split; try reflexivity;
    intros E; try discriminate E; rewrite Z.eqb_refl; reflexivity.
Qed.

Lemma deliver_Ok_facts (s : siginfo) (w w' : world) :
  deliver P s w = Ok tt w' ->
  (forall num, sigdisp w num = SIG_DFL -> sigdisp w' num = SIG_DFL) /\
  l_TermSignal w' =
    (if is_termination_signal (si_signo s) then signo P (si_signo s) else l_TermSignal w) /\
  (is_termination_signal (si_signo s) = true ->
   sigdisp w' (signo P (si_signo s)) = SIG_DFL).
Proof.
  unfold deliver. destruct (sigdisp w (signo P (si_signo s))) eqn:Hd.
  - destruct (si_signo s) eqn:Hs; simpl; intros H; try discriminate H.
    injection H as <-. repeat split; auto; intros E; discriminate E.
  - destruct (UmbrellaSignalHandler P (signo P (si_signo s)) (si_pid s) w) as [w1|] eqn:E;
      intros H; [|discriminate H].
    injection H as <-.
    destruct (UmbrellaSignalHandler_TermSignal _ _ _ _ E) as [Ht Hdfl].
    repeat split; auto.
    intros num. eapply UmbrellaSignalHandler_keeps_default. exact E.
Qed.

Lemma deliver_all_Ok_facts (l : list siginfo) (w w' : world) :
  deliver_all P l w = Ok tt w' ->
  (forall num, sigdisp w num = SIG_DFL -> sigdisp w' num = SIG_DFL) /\
  l_TermSignal w' = last_termination P l (l_TermSignal w).
Proof.
  revert w. induction l as [|s l IH]; intros w; simpl.
  - intros H. injection H as <-. auto.
  - unfold bind. destruct (deliver P s w) as [[] w1|] eqn:E; [|intros H; discriminate H].
    intros H. destruct (deliver_Ok_facts _ _ _ E) as (Hd & Ht & _).
    destruct (IH _ H) as (Hd' & Ht'). split; [auto|].
    rewrite Ht', Ht. reflexivity.
Qed.

End TerminationSignals.

(** ** Handler invocations that nest *)

(** An invocation that nothing interrupts is the atomic step of [deliver]. *)
Lemma deliver_nested_alone (P : platform) (s : siginfo) (w : world) :
  deliver_nested P (Invocation s [] []) w = deliver P s w.
Proof.
  unfold deliver. simpl.
  destruct (sigdisp w (signo P (si_signo s))); [reflexivity|].
  unfold UmbrellaSignalHandler, bind, ret. switch_on_signal.
  destruct (si_signo s); simpl; try reflexivity;
    destruct (UnixWorkerState_eqb (l_CurrentlyStartingUnixWorkerState w) Pending
              && (si_pid s =? l_CurrentlyStartingUnixWorkerPid w)); reflexivity.
Qed.

(** C4.  The failing input.  The umbrella polls for the verdict on child
    200.  The child's [SIGUSR2] is delivered; its handler finds the state
    [Pending] and the sender to be the child (lines 315-316); before it
    stores, the child's [SIGCHLD] is delivered - nothing blocks it - and its
    handler, finding the same, stores [Failed]; then the first handler
    stores [LoadedConfig] (line 318).  The start state has gone from
    [Failed] to [LoadedConfig], and [StartUnixWorker] goes on to take the
    dead child for a worker that has loaded its configuration. *)
Theorem C4_nested_signals_skip_Pending :
  well_nested [] loaded_then_died = true /\
  exists w',
    deliver_nested (linux true) loaded_then_died polling_for_200 = Ok tt w' /\
    state_history w' = [Pending; Failed; LoadedConfig] /\
    transitions_ok (state_history w') = false /\
    exists w'', await_worker (linux true) quiet 1 200 w' = Ok 200 w''.
Proof.
  split; [reflexivity|].
  exists (world_of (deliver_nested (linux true) loaded_then_died polling_for_200)).
  split; [vm_compute; reflexivity|]. split; [vm_compute; reflexivity|].
  split; [vm_compute; reflexivity|].
  exists (world_of (await_worker (linux true) quiet 1 200
                      (world_of (deliver_nested (linux true) loaded_then_died
                                   polling_for_200)))).
  vm_compute. reflexivity.
Qed.

(** ** The drains of the main loop *)

Section Drains.

Variable P : platform.
Variable o : oracle.






End Drains.



(** ** Steps that leave the workers alone *)

Section PassiveSteps.

Variable P : platform.
Variable o : oracle.

Let Q := emits_only is_passive.

Lemma passive_Log (m : log_message) :
  is_passive (EvLog m) = true -> respects Q (Log P o m).
Proof.
  apply (respects_Log P o Q is_passive (emits_only_trans _)
           (emits_only_rely _) (emits_only_event _)).
Qed.

Lemma passive_sd_notify (m : sd_message) : respects Q (sd_notify P o m).
Proof.
  apply (respects_sd_notify P o Q is_passive (emits_only_trans _)
           (emits_only_rely _) (emits_only_event _)). reflexivity.
Qed.

Lemma passive_atomic {A : Type} (f : world -> A * world) :
  (forall w, trace (snd (f w)) = trace w) -> respects Q (atomic P o f).
Proof.
  intros Hf.
  apply (respects_atomic P o Q (emits_only_trans _) (emits_only_rely _)).
  intros w. apply emits_only_same_trace, Hf.
Qed.

Lemma passive_GetTime : respects Q (GetTime P o).
Proof.
  apply (respects_GetTime P o Q (emits_only_refl _) (emits_only_trans _)
           (emits_only_rely _)).
Qed.

Lemma passive_Sleep : respects Q (Sleep P o).
Proof.
  apply (respects_Sleep P o Q (emits_only_refl _) (emits_only_trans _)
           (emits_only_rely _)).
Qed.

Lemma passive_NotifyWatchdog : respects Q (ifdef_HAVE_SYSTEMD P (NotifyWatchdog P o)).
Proof. intros w. apply NotifyWatchdog_emits. reflexivity. Qed.

Lemma passive_waitpid_retry (fuel : nat) (pid : Z) :
  respects Q (waitpid_retry P o fuel pid).
Proof.
  apply (respects_waitpid_retry P o Q is_passive (emits_only_refl _)
           (emits_only_trans _) (emits_only_rely _) (emits_only_event _)
           (fun v w0 => emits_only_same_trace _ w0 _ eq_refl)); reflexivity.
Qed.

Lemma passive_spawn_phase (fuel : nat) :
  respects Q (reload_prelude P o ;; StartUnixWorker P o fuel).
Proof.
  apply (respects_bind Q (emits_only_trans _)).
  - unfold reload_prelude. apply (respects_bind Q (emits_only_trans _)).
    + apply passive_Log. reflexivity.
    + intros _. apply (respects_ifdef P Q (emits_only_refl _)), passive_sd_notify.
  - intros _ w. eapply emits_only_weaken; [|apply StartUnixWorker_emits].
    intros e. destruct e as [m| | |p opts r|s]; simpl; try reflexivity;
      try (intros H; discriminate H).
    + destruct m; simpl; intros H; try reflexivity; discriminate H.
    + destruct opts; [reflexivity | intros H; discriminate H].
Qed.

Lemma passive_ifdef_sd_notify (m : sd_message) :
  respects Q (ifdef_HAVE_SYSTEMD P (sd_notify P o m)).
Proof. apply (respects_ifdef P Q (emits_only_refl _)), passive_sd_notify. Qed.

Lemma is_passive_no_kill (e : event) : is_passive e = true -> negb (is_kill e) = true.
Proof. destruct e; simpl; intros H; try reflexivity; discriminate H. Qed.

Lemma passive_no_kill {A : Type} (m : M A) :
  respects Q m -> respects (emits_only (fun e => negb (is_kill e))) m.
Proof. intros H w. eapply emits_only_weaken; [|apply H]. apply is_passive_no_kill. Qed.

Lemma check_worker_exit_no_kill (cw : Z) (nt : bool) :
  respects (emits_only (fun e => negb (is_kill e))) (check_worker_exit P o cw nt).
Proof.
  set (allowed := fun e => negb (is_kill e)).
  unfold check_worker_exit.
  apply (respects_bind _ (emits_only_trans allowed)).
  { apply (respects_waitpid P o _ allowed (emits_only_refl _) (emits_only_trans _)
             (emits_only_rely _) (emits_only_event _)). reflexivity. }
  intros r. destruct (0 <? w_ret r); [|apply respects_ret, emits_only_refl].
  apply (respects_bind _ (emits_only_trans allowed)).
  { apply (respects_Log P o _ allowed (emits_only_trans _) (emits_only_rely _)
             (emits_only_event _)). reflexivity. }
  intros _. apply (respects_bind _ (emits_only_trans allowed));
    [|intros _; apply respects_ret, emits_only_refl].
  destruct (HAVE_SYSTEMD P && negb nt); [|apply respects_ret, emits_only_refl].
  apply (respects_sd_notify P o _ allowed (emits_only_trans _) (emits_only_rely _)
           (emits_only_event _)). reflexivity.
Qed.

End PassiveSteps.

(** ** The exit status *)

Section WorkerFate.

Variable P : platform.
Variable o : oracle.

Lemma active_worker_app (cw : Z) (d d' : list event) :
  active_worker P cw (d ++ d') = active_worker P (active_worker P cw d) d'.
Proof. apply fold_left_app. Qed.

Lemma follows_worker_app (cw : Z) (d d' : list event) :
  follows_worker P cw (d ++ d')
  = follows_worker P cw d && follows_worker P (active_worker P cw d) d'.
Proof.
  revert cw. induction d as [|e d IH]; intros cw; [reflexivity|].
  simpl. rewrite IH, andb_assoc. reflexivity.
Qed.

Lemma calm_app (d d' : list event) : calm d -> calm d' -> calm (d ++ d').
Proof. intros H H'. apply Forall_app. auto. Qed.

Lemma passive_events (cw : Z) (d : list event) :
  Forall (fun e => is_passive e = true) d ->
  follows_worker P cw d = true /\ calm d /\ active_worker P cw d = cw.
Proof.
  induction 1 as [|e d He _ IH]; [repeat split; constructor|].
  destruct IH as (Hf & Hc & Ha).
  assert (names_worker cw e = true /\ next_worker P cw e = cw /\ observes_exit e = false)
    as (Hn & Hx & Ho).
  { destruct e as [m| | |p opts r|]; try discriminate He; try (repeat split; reflexivity).
    - destruct m; try discriminate He; repeat split; reflexivity.
    - destruct opts; [repeat split; reflexivity | discriminate He]. }
  unfold active_worker in *. simpl. rewrite Hn, Hx, Hf, Ha.
  repeat split. constructor; assumption.
Qed.


Lemma worker_fate_step (cw cw1 : Z) (d1 d2 : list event) (e : ending) :
  worker_fate P cw d1 (GoesOn cw1) -> worker_fate P cw1 d2 e ->
  worker_fate P cw (d1 ++ d2) e.
Proof.
  intros (Hf1 & Hc1 & Ha1) (Hf2 & H2). split.
  { rewrite follows_worker_app, Hf1, Ha1. exact Hf2. }
  destruct e as [cw'|code|reason].
  - destruct H2 as [Hc2 Ha2]. split; [apply calm_app; assumption|].
    rewrite active_worker_app, Ha1. exact Ha2.
  - destruct H2 as (d0 & pid & r & tail & -> & Hc0 & H).
    exists (d1 ++ d0), pid, r, tail.
    split; [apply app_assoc|]. split; [apply calm_app; assumption | exact H].
  - destruct H2 as [Hc2 | (d0 & pid & r & tail & sig & -> & Hc0 & H)].
    + left. apply calm_app; assumption.
    + right. exists (d1 ++ d0), pid, r, tail, sig.
      split; [apply app_assoc|]. split; [apply calm_app; assumption | exact H].
Qed.

Lemma worker_fate_nil (cw : Z) : worker_fate P cw [] (GoesOn cw).
Proof. repeat split. constructor. Qed.

Lemma worker_fate_stopped (cw cw' : Z) (d : list event) (r : stop_reason) :
  worker_fate P cw d (GoesOn cw') -> worker_fate P cw d (Stops r).
Proof. intros (Hf & Hc & _). split; [exact Hf | left; exact Hc]. Qed.

Lemma fated_ret {A : Type} (cw : Z) (en : A -> ending) (a : A) :
  en a = GoesOn cw -> fated P cw en (ret a).
Proof.
  intros E w. exists []. split; [symmetry; apply app_nil_r|].
  simpl. rewrite E. apply worker_fate_nil.
Qed.

Lemma fated_bind {A B : Type} (cw : Z) (g : A -> Z) (en : B -> ending)
    (m : M A) (f : A -> M B) :
  fated P cw (fun a => GoesOn (g a)) m ->
  (forall a, fated P (g a) en (f a)) ->
  fated P cw en (bind m f).
Proof.
  intros Hm Hf w. unfold bind. destruct (Hm w) as (d & Hd & H).
  destruct (m w) as [a w1|r w1]; simpl in *.
  - destruct (Hf a w1) as (d' & Hd' & H'). exists (d ++ d').
    split; [rewrite Hd', Hd; symmetry; apply app_assoc|].
    eapply worker_fate_step; eassumption.
  - exists d. auto.
Qed.

(** A piece that neither signals nor names a worker. *)
Lemma fated_passive {A : Type} (cw : Z) (m : M A) :
  respects (emits_only is_passive) m -> fated P cw (fun _ => GoesOn cw) m.
Proof.
  intros H w. destruct (H w) as (d & Hd & F). exists d. split; [exact Hd|].
  destruct (passive_events cw d F) as (Hf & Hc & Ha).
  destruct (m w); simpl; [repeat split; assumption | split; [exact Hf | left; exact Hc]].
Qed.

(** A delivery point followed by one event. *)
Lemma fated_event (cw : Z) (e : event) :
  names_worker cw e = true -> observes_exit e = false ->
  fated P cw (fun _ => GoesOn (next_worker P cw e)) (sync P o ;; emit e).
Proof.
  intros Hn Ho w. unfold bind, emit.
  destruct (sync P o w) as [n w1|r w1] eqn:E; simpl.
  - destruct (sync_Ok P o _ _ _ E) as [_ Hr]. exists [e].
    split; [rewrite (rely_trace _ _ Hr); reflexivity|].
    split; [simpl; rewrite Hn; reflexivity|].
    split; [repeat constructor; exact Ho | reflexivity].
  - destruct (sync_Stop P o _ _ _ E) as [_ Hr]. exists [].
    split; [rewrite (rely_trace _ _ Hr); symmetry; apply app_nil_r|].
    split; [reflexivity | left; constructor].
Qed.

Lemma fated_Log_named (cw : Z) (m : log_message) :
  names_worker cw (EvLog m) = true -> fated P cw (fun _ => GoesOn cw) (Log P o m).
Proof. intros H. apply (fated_event cw (EvLog m) H eq_refl). Qed.

Lemma fated_kill_self (cw sig : Z) :
  fated P cw (fun _ => GoesOn cw) (kill P o cw sig).
Proof.
  intros w. destruct (fated_event cw (EvKill cw sig) eq_refl eq_refl w) as (d & Hd & H).
  exists d. split; [exact Hd|]. simpl in H.
  destruct (sig =? SIGUSR2 P); exact H.
Qed.

Lemma fated_kill_next (cw nw : Z) :
  fated P cw (fun _ => GoesOn nw) (kill P o nw (SIGUSR2 P)).
Proof.
  intros w.
  destruct (fated_event cw (EvKill nw (SIGUSR2 P)) eq_refl eq_refl w) as (d & Hd & H).
  exists d. split; [exact Hd|]. simpl in H. rewrite Z.eqb_refl in H. exact H.
Qed.

Lemma fated_forward_termination (cw : Z) (rt nt : bool) :
  fated P cw (fun _ => GoesOn cw) (forward_termination P o cw rt nt).
Proof.
  unfold forward_termination. destruct (negb rt); [|apply fated_ret; reflexivity].
  apply (fated_bind cw (fun _ => cw));
    [apply fated_passive, passive_atomic; reflexivity | intros termSig].
  destruct (negb (termSig =? -1)); [|apply fated_ret; reflexivity].
  apply (fated_bind cw (fun _ => cw));
    [apply fated_Log_named; simpl; apply Z.eqb_refl | intros _].
  apply (fated_bind cw (fun _ => cw)); [apply fated_kill_self | intros _].
  destruct (HAVE_SYSTEMD P && negb nt); [|apply fated_ret; reflexivity].
  apply (fated_bind cw (fun _ => cw));
    [apply fated_passive, passive_sd_notify | intros _; apply fated_ret; reflexivity].
Qed.

Lemma fated_forward_reopen_logs (cw : Z) :
  fated P cw (fun _ => GoesOn cw) (forward_reopen_logs P o cw).
Proof.
  unfold forward_reopen_logs.
  apply (fated_bind cw (fun _ => cw));
    [apply fated_passive, passive_atomic; reflexivity | intros b].
  destruct b; [|apply fated_ret; reflexivity].
  apply (fated_bind cw (fun _ => cw));
    [apply fated_Log_named; simpl; apply Z.eqb_refl | intros _; apply fated_kill_self].
Qed.

Lemma fated_reload_swap (fuel : nat) (cw nw : Z) :
  fated P cw GoesOn (reload_swap P o fuel cw nw).
Proof.
  unfold reload_swap. apply (fated_bind cw (fun cw' => cw')).
  2:{ intros cw'. apply (fated_bind cw' (fun _ => cw'));
        [|intros _; apply fated_ret; reflexivity].
      apply fated_passive, passive_ifdef_sd_notify. }
  destruct (nw =? -1).
  { apply (fated_bind cw (fun _ => cw));
      [apply fated_passive, passive_Log; reflexivity | intros _; apply fated_ret; reflexivity]. }
  apply (fated_bind cw (fun _ => cw));
    [apply fated_passive, passive_Log; reflexivity | intros _].
  apply (fated_bind cw (fun _ => cw)); [apply fated_kill_self | intros _].
  apply (fated_bind cw (fun _ => cw)); [apply fated_passive, passive_GetTime | intros start].
  apply (fated_bind cw (fun _ => cw));
    [apply fated_passive, passive_waitpid_retry | intros _].
  apply (fated_bind cw (fun _ => cw)); [apply fated_passive, passive_GetTime | intros finish].
  apply (fated_bind cw (fun _ => cw));
    [apply fated_passive, passive_Log; reflexivity | intros _].
  apply (fated_bind cw (fun _ => nw)); [apply fated_kill_next | intros _].
  apply fated_ret. reflexivity.
Qed.

Lemma fated_reload (fuel : nat) (cw : Z) : fated P cw GoesOn (reload P o fuel cw).
Proof.
  unfold reload.
  pose proof (fated_passive cw _ (passive_spawn_phase P o fuel)) as Hspawn.
  intros w. specialize (Hspawn w). unfold bind in *.
  destruct (reload_prelude P o w) as [[] w1|r w1]; simpl in *; [|exact Hspawn].
  destruct (StartUnixWorker P o fuel w1) as [nw w2|r w2]; simpl in *; [|exact Hspawn].
  destruct Hspawn as (d & Hd & H).
  destruct (fated_reload_swap fuel cw nw w2) as (d' & Hd' & H').
  exists (d ++ d'). split; [rewrite Hd', Hd; symmetry; apply app_assoc|].
  eapply worker_fate_step; eassumption.
Qed.

Lemma fated_check_worker_exit (cw : Z) (nt : bool) :
  fated P cw (fun ex => match ex with Some code => Returns code | None => GoesOn cw end)
    (check_worker_exit P o cw nt).
Proof.
  intros w. unfold check_worker_exit, waitpid, Log, sd_notify, bind, emit, ret.
  destruct (sync P o w) as [n w1|r w1] eqn:E1; simpl.
  2:{ destruct (sync_Stop P o _ _ _ E1) as [_ Hr]. exists [].
      split; [rewrite (rely_trace _ _ Hr); symmetry; apply app_nil_r|].
      split; [reflexivity | left; constructor]. }
  destruct (sync_Ok P o _ _ _ E1) as [_ Hr1]. pose proof (rely_trace _ _ Hr1) as T1.
  set (r := o_waitpid o n).
  destruct (0 <? w_ret r) eqn:Hret; simpl.
  2:{ exists [EvWaitpid cw WNOHANG r]. split; [simpl; rewrite T1; reflexivity|].
      split; [simpl; rewrite Z.eqb_refl; reflexivity|].
      split; [repeat constructor; simpl; exact Hret | reflexivity]. }
  assert (0 < w_ret r) as Hpos by (apply Z.ltb_lt, Hret).
  destruct (sync P o (record_event (EvWaitpid cw WNOHANG r) w1)) as [n2 w2|r2 w2] eqn:E2; simpl.
  2:{ destruct (sync_Stop P o _ _ _ E2) as [(sig & ->) Hr2].
      exists [EvWaitpid cw WNOHANG r].
      split; [rewrite (rely_trace _ _ Hr2); simpl; rewrite T1; reflexivity|].
      split; [simpl; rewrite Z.eqb_refl; reflexivity|].
      right. exists [], cw, r, [], sig. repeat split; auto. constructor. }
  destruct (sync_Ok P o _ _ _ E2) as [_ Hr2]. pose proof (rely_trace _ _ Hr2) as T2.
  simpl in T2.
  destruct (HAVE_SYSTEMD P && negb nt); simpl.
  - destruct (sync P o (record_event (EvLog (LogWorkerStopped cw)) w2)) as [n3 w3|r3 w3] eqn:E3;
      simpl.
    + destruct (sync_Ok P o _ _ _ E3) as [_ Hr3].
      exists [EvWaitpid cw WNOHANG r; EvLog (LogWorkerStopped cw); EvSdNotify SD_STOPPING].
      split; [rewrite (rely_trace _ _ Hr3); simpl; rewrite T2, T1; list_eq|].
      split; [simpl; rewrite !Z.eqb_refl; reflexivity|].
      exists [], cw, r, [EvSdNotify SD_STOPPING]. repeat split; auto. constructor.
    + destruct (sync_Stop P o _ _ _ E3) as [(sig & ->) Hr3].
      exists [EvWaitpid cw WNOHANG r; EvLog (LogWorkerStopped cw)].
      split; [rewrite (rely_trace _ _ Hr3); simpl; rewrite T2, T1; list_eq|].
      split; [simpl; rewrite !Z.eqb_refl; reflexivity|].
      right. exists [], cw, r, [EvLog (LogWorkerStopped cw)], sig.
      repeat split; auto. constructor.
  - exists [EvWaitpid cw WNOHANG r; EvLog (LogWorkerStopped cw)].
    split; [simpl; rewrite T2, T1; list_eq|].
    split; [simpl; rewrite !Z.eqb_refl; reflexivity|].
    exists [], cw, r, []. repeat split; auto. constructor.
Qed.

Lemma fated_umbrella_iteration (fuel : nat) (cw : Z) (rt nt : bool) :
  fated P cw step_ending (umbrella_iteration P o fuel cw rt nt).
Proof.
  unfold umbrella_iteration.
  apply (fated_bind cw (fun _ => cw));
    [apply fated_passive, passive_NotifyWatchdog | intros _].
  apply (fated_bind cw (fun _ => cw)); [apply fated_forward_termination | intros flags].
  apply (fated_bind cw (fun _ => cw));
    [apply fated_passive, passive_atomic; reflexivity | intros b].
  apply (fated_bind cw (fun cw' => cw'));
    [destruct b; [apply fated_reload | apply fated_ret; reflexivity] | intros cw'].
  apply (fated_bind cw' (fun _ => cw')); [apply fated_forward_reopen_logs | intros _].
  intros w.
  destruct (fated_check_worker_exit cw' (snd flags) w) as (d & Hd & H).
  unfold bind. destruct (check_worker_exit P o cw' (snd flags) w) as [[code|] w1|r w1];
    simpl in *.
  - exists d. auto.
  - destruct (fated_passive cw' _ (passive_Sleep P o) w1) as (d' & Hd' & H').
    exists (d ++ d'). split.
    + destruct (Sleep P o w1); simpl in *; rewrite Hd', Hd; symmetry; apply app_assoc.
    + eapply worker_fate_step; [exact H|].
      destruct (Sleep P o w1); exact H'.
  - exists d. auto.
Qed.

Lemma fated_main_loop (fuel : nat) (cw : Z) (rt nt : bool) :
  fated P cw Returns (main_loop P o fuel cw rt nt).
Proof.
  revert cw rt nt. induction fuel as [|fuel IH]; intros cw rt nt.
  { intros w. exists []. split; [symmetry; apply app_nil_r|].
    split; [reflexivity | left; constructor]. }
  intros w. simpl. unfold bind.
  destruct (fated_umbrella_iteration fuel cw rt nt w) as (d & Hd & H).
  destruct (umbrella_iteration P o fuel cw rt nt w) as [[cw' rt' nt'|code] w1|r w1];
    simpl in *.
  - destruct (IH cw' rt' nt' w1) as (d' & Hd' & H'). exists (d ++ d').
    split; [rewrite Hd', Hd; symmetry; apply app_assoc|].
    eapply worker_fate_step; eassumption.
  - exists d. auto.
  - exists d. auto.
Qed.

End WorkerFate.




(** ** Termination requests *)

Lemma forwarded_kills_le (d : list event) :
  (forwarded_kills d <= count_events is_forward_term d)%nat.
Proof.
  unfold count_events. induction d as [|e d IH]; [simpl; lia|].
  destruct e as [m| | | |]; try exact IH.
  destruct m; try exact IH.
  destruct d as [|e' d']; [simpl; lia|].
  destruct e' as [m'| |p s| |]; try (simpl in IH |- *; lia).
  simpl in IH |- *. destruct ((p =? pid) && (s =? sig)); lia.
Qed.

Section ForwardingStep.

Variable P : platform.
Variable o : oracle.

(** A delivery point leaves in [l_TermSignal] the last termination signal
    handled there, if any. *)
Lemma sync_TermSignal (w w' : world) (n : nat) :
  sync P o w = Ok n w' ->
  l_TermSignal w' = last_termination P (handled_at o w (tick w)) (l_TermSignal w).
Proof.
  unfold sync, handled_at. simpl sigblocked. destruct (sigblocked w).
  - intros H. injection H as _ <-. reflexivity.
  - unfold bind.
    destruct (deliver_all P (o_signals o (tick w)) (set_tick (S (tick w)) w))
      as [[] w1|] eqn:E; intros H; [|discriminate H].
    injection H as _ <-. apply (deliver_all_Ok_facts P _ _ _ E).
Qed.

(** Lines 666-682, step by step. *)
Lemma forward_termination_step (cw : Z) (rt nt : bool) (w : world) :
  let pending := last_termination P (handled_at o w (tick w)) (l_TermSignal w) in
  match forward_termination P o cw rt nt w with
  | Ok flags w' =>
      if rt then flags = (true, nt) /\ w' = w
      else if pending =? -1 then flags = (false, nt) /\ trace w' = trace w
      else
        flags = (true, nt || HAVE_SYSTEMD P) /\
        trace w' = trace w ++ EvLog (LogForwardTerm pending cw) :: EvKill cw pending
                           :: (if HAVE_SYSTEMD P && negb nt
                               then [EvSdNotify SD_STOPPING] else [])
  | Stop r _ => exists sig, r = Killed sig
  end.
Proof.
  cbv zeta. unfold forward_termination. destruct rt.
  { simpl. auto. }
  change (negb false) with true. cbv iota.
  unfold load, atomic, Log, kill, sd_notify, bind, emit, ret.
  destruct (sync P o w) as [n w0|r w0] eqn:E;
    [|exact (proj1 (sync_Stop P o _ _ _ E))].
  rewrite <- (sync_TermSignal _ _ _ E).
  destruct (sync_Ok P o _ _ _ E) as [_ Hr]. pose proof (rely_trace _ _ Hr) as T.
  simpl. destruct (l_TermSignal w0 =? -1); simpl; [auto|].
  destruct (sync P o w0) as [n1 w1|r w1] eqn:E1;
    [|exact (proj1 (sync_Stop P o _ _ _ E1))].
  destruct (sync_Ok P o _ _ _ E1) as [_ Hr1]. pose proof (rely_trace _ _ Hr1) as T1.
  simpl.
  destruct (sync P o (record_event (EvLog (LogForwardTerm (l_TermSignal w0) cw)) w1))
    as [n2 w2|r w2] eqn:E2; [|exact (proj1 (sync_Stop P o _ _ _ E2))].
  destruct (sync_Ok P o _ _ _ E2) as [_ Hr2]. pose proof (rely_trace _ _ Hr2) as T2.
  simpl in T2. simpl.
  destruct (HAVE_SYSTEMD P) eqn:Hsd, nt; simpl.
  - split; [reflexivity|]. rewrite T2, T1, T. list_eq.
  - destruct (sync P o (record_event (EvKill cw (l_TermSignal w0)) w2))
      as [n3 w3|r w3] eqn:E3; [|exact (proj1 (sync_Stop P o _ _ _ E3))].
    destruct (sync_Ok P o _ _ _ E3) as [_ Hr3]. pose proof (rely_trace _ _ Hr3) as T3.
    simpl in T3. simpl. split; [reflexivity|]. rewrite T3, T2, T1, T. list_eq.
  - split; [reflexivity|]. rewrite T2, T1, T. list_eq.
  - split; [reflexivity|]. rewrite T2, T1, T. list_eq.
Qed.

End ForwardingStep.

Section Announcements.

Variable P : platform.
Variable o : oracle.

Lemma kills_announced_nil : kills_announced P [].
Proof. intros [|x d1] p s d2 H; discriminate H. Qed.

Lemma kills_announced_app (d d' : list event) :
  kills_announced P d -> kills_announced P d' -> kills_announced P (d ++ d').
Proof.
  intros H H' d1 p s d2 Heq.
  apply app_eq_app in Heq. destruct Heq as (l & [(Hd & Hl) | (Hd1 & Hl)]).
  - destruct l as [|x l].
    + simpl in Hl. destruct (H' [] p s d2 (eq_sym Hl)) as (d0 & m & E & _).
      destruct d0; discriminate E.
    + injection Hl as <- ->. apply (H d1 p s l Hd).
  - destruct (H' l p s d2 Hl) as (d0 & m & -> & Hm).
    exists (d ++ d0), m. split; [rewrite Hd1; apply app_assoc | exact Hm].
Qed.

Lemma kills_announced_quiet (d : list event) :
  Forall (fun e => negb (is_kill e) = true) d -> kills_announced P d.
Proof.
  intros F d1 p s d2 ->. apply Forall_app in F. destruct F as [_ F].
  inversion F as [|x l Hx _]. discriminate Hx.
Qed.

Lemma kills_announced_pair (m : log_message) (pid sig : Z) :
  announces P m pid sig = true -> kills_announced P [EvLog m; EvKill pid sig].
Proof.
  intros Hm d1 p s d2 Heq.
  destruct d1 as [|x [|y d1]]; try discriminate Heq.
  - inversion Heq; subst. exists [], m. auto.
  - inversion Heq as [[Hx Hy Hz]]. destruct d1; discriminate Hz.
Qed.

Lemma announced_ret {A : Type} (a : A) : announced P (ret a).
Proof. intros w. exists []. split; [symmetry; apply app_nil_r | apply kills_announced_nil]. Qed.

Lemma announced_bind {A B : Type} (m : M A) (f : A -> M B) :
  announced P m -> (forall a, announced P (f a)) -> announced P (bind m f).
Proof.
  intros Hm Hf w. unfold bind. destruct (Hm w) as (d & Hd & Hk).
  destruct (m w) as [a w1|r w1]; simpl in *.
  - destruct (Hf a w1) as (d' & Hd' & Hk'). exists (d ++ d').
    split; [rewrite Hd', Hd; symmetry; apply app_assoc | apply kills_announced_app; auto].
  - exists d. auto.
Qed.

(** A step that sends no signal. *)
Lemma announced_quiet {A : Type} (m : M A) :
  respects (emits_only is_passive) m -> announced P m.
Proof.
  intros H w. destruct (passive_no_kill m H w) as (d & Hd & F). exists d.
  split; [exact Hd | apply kills_announced_quiet, F].
Qed.

Lemma announced_no_kill {A : Type} (m : M A) :
  respects (emits_only (fun e => negb (is_kill e))) m -> announced P m.
Proof.
  intros H w. destruct (H w) as (d & Hd & F). exists d.
  split; [exact Hd | apply kills_announced_quiet, F].
Qed.

(** A log line and the [kill] it announces. *)
Lemma announced_Log_kill (m : log_message) (pid sig : Z) :
  announces P m pid sig = true ->
  announced P (Log P o m ;; kill P o pid sig).
Proof.
  intros Hm w. unfold Log, kill, bind, emit.
  destruct (sync P o w) as [n w1|r w1] eqn:E1; simpl.
  2:{ exists []. split; [|apply kills_announced_nil].
      destruct (sync_Stop P o _ _ _ E1) as [_ Hr]. rewrite (rely_trace _ _ Hr).
      symmetry. apply app_nil_r. }
  destruct (sync_Ok P o _ _ _ E1) as [_ Hr1].
  destruct (sync P o (record_event (EvLog m) w1)) as [n2 w2|r w2] eqn:E2; simpl.
  - destruct (sync_Ok P o _ _ _ E2) as [_ Hr2].
    exists [EvLog m; EvKill pid sig].
    split; [|apply kills_announced_pair, Hm].
    rewrite (rely_trace _ _ Hr2). simpl. rewrite (rely_trace _ _ Hr1). list_eq.
  - destruct (sync_Stop P o _ _ _ E2) as [_ Hr2].
    exists [EvLog m]. split.
    + rewrite (rely_trace _ _ Hr2). simpl. rewrite (rely_trace _ _ Hr1). reflexivity.
    + apply kills_announced_quiet. repeat constructor.
Qed.

Lemma announced_Log_kill_then {B : Type} (m : log_message) (pid sig : Z) (rest : M B) :
  announces P m pid sig = true -> announced P rest ->
  announced P (Log P o m ;; kill P o pid sig ;; rest).
Proof.
  intros Hm Hrest w.
  destruct (announced_Log_kill m pid sig Hm w) as (d & Hd & Hk).
  unfold bind in *. destruct (Log P o m w) as [[] w1|r w1]; simpl in *.
  - destruct (kill P o pid sig w1) as [[] w2|r w2]; simpl in *; [|eauto].
    destruct (Hrest w2) as (d' & Hd' & Hk'). exists (d ++ d').
    split; [rewrite Hd', Hd; symmetry; apply app_assoc | apply kills_announced_app; auto].
  - eauto.
Qed.

Lemma announced_forward_termination (cw : Z) (rt nt : bool) :
  announced P (forward_termination P o cw rt nt).
Proof.
  unfold forward_termination. destruct (negb rt); [|apply announced_ret].
  apply announced_bind; [apply announced_quiet, passive_atomic; reflexivity | intros termSig].
  destruct (negb (termSig =? -1)); [|apply announced_ret].
  apply announced_Log_kill_then.
  - simpl. rewrite !Z.eqb_refl. reflexivity.
  - destruct (HAVE_SYSTEMD P && negb nt); [|apply announced_ret].
    apply announced_bind; [apply announced_quiet, passive_sd_notify | intros _; apply announced_ret].
Qed.

Lemma announced_forward_reopen_logs (cw : Z) :
  announced P (forward_reopen_logs P o cw).
Proof.
  unfold forward_reopen_logs.
  apply announced_bind; [apply announced_quiet, passive_atomic; reflexivity | intros b].
  destruct b; [|apply announced_ret].
  apply announced_Log_kill. simpl. rewrite !Z.eqb_refl. reflexivity.
Qed.

Lemma announced_reload_swap (fuel : nat) (cw nw : Z) :
  announced P (reload_swap P o fuel cw nw).
Proof.
  unfold reload_swap. apply announced_bind.
  2:{ intros cw'. apply announced_bind; [|intros _; apply announced_ret].
      apply announced_quiet, passive_ifdef_sd_notify. }
  destruct (nw =? -1).
  { apply announced_bind; [apply announced_quiet, passive_Log; reflexivity | intros _; apply announced_ret]. }
  apply announced_Log_kill_then; [simpl; apply Z.eqb_refl|].
  apply announced_bind; [apply announced_quiet, passive_GetTime | intros start].
  apply announced_bind; [apply announced_quiet, passive_waitpid_retry | intros _].
  apply announced_bind; [apply announced_quiet, passive_GetTime | intros finish].
  apply announced_Log_kill_then; [simpl; apply Z.eqb_refl | apply announced_ret].
Qed.

Lemma announced_reload (fuel : nat) (cw : Z) : announced P (reload P o fuel cw).
Proof.
  unfold reload.
  assert (Hspawn : announced P (reload_prelude P o ;; StartUnixWorker P o fuel)).
  { intros w. destruct (reload_spawn_phase_no_kill P o fuel w) as (d & Hd & F).
    exists d. split; [exact Hd | apply kills_announced_quiet, F]. }
  intros w. specialize (Hspawn w). unfold bind in *.
  destruct (reload_prelude P o w) as [[] w1|r w1]; simpl in *; [|exact Hspawn].
  destruct (StartUnixWorker P o fuel w1) as [nw w2|r w2]; simpl in *; [|exact Hspawn].
  destruct Hspawn as (d & Hd & Hk).
  destruct (announced_reload_swap fuel cw nw w2) as (d' & Hd' & Hk').
  exists (d ++ d').
  split; [rewrite Hd', Hd; symmetry; apply app_assoc | apply kills_announced_app; auto].
Qed.

Lemma announced_umbrella_iteration (fuel : nat) (cw : Z) (rt nt : bool) :
  announced P (umbrella_iteration P o fuel cw rt nt).
Proof.
  unfold umbrella_iteration.
  apply announced_bind; [apply announced_quiet, passive_NotifyWatchdog | intros _].
  apply announced_bind; [apply announced_forward_termination | intros flags].
  apply announced_bind; [apply announced_quiet, passive_atomic; reflexivity | intros b].
  apply announced_bind;
    [destruct b; [apply announced_reload | apply announced_ret] | intros cw'].
  apply announced_bind; [apply announced_forward_reopen_logs | intros _].
  apply announced_bind; [apply announced_no_kill, check_worker_exit_no_kill | intros ex].
  destruct ex; [apply announced_ret|].
  apply announced_bind; [apply announced_quiet, passive_Sleep | intros _; apply announced_ret].
Qed.

Lemma announced_main_loop (fuel : nat) (cw : Z) (rt nt : bool) :
  announced P (main_loop P o fuel cw rt nt).
Proof.
  revert cw rt nt. induction fuel as [|fuel IH]; intros cw rt nt.
  { intros w. exists []. split; [symmetry; apply app_nil_r | apply kills_announced_nil]. }
  simpl. apply announced_bind; [apply announced_umbrella_iteration | intros r].
  destruct r; [apply IH | apply announced_ret].
Qed.

End Announcements.

(** C6, amended.  The main loop never clears [l_TermSignal] (it reads it
    with a plain [load], and only while [requestedTermination] is unset):
    once set, it stays set to the end of the run.  Across all iterations of
    a run of the loop, however it ends: every [kill] the loop issues comes
    right after the log line that announces it; the log line that announces
    the forwarding of a termination signal is written at most once - never
    once [requestedTermination] is set -, so a termination signal is
    forwarded, by a [kill] of the current worker with that signal, at most
    once; and the "stopping" notification is sent at most once - never once
    [notifiedTermination] is set -, counting the forwarding path and the
    worker-exit path together.  The worker the forwarding names is the
    active one.  And the step itself (lines 666-682), from any state: with
    [requestedTermination] set it does nothing; otherwise it looks at
    [l_TermSignal], which holds the last termination signal handled so far;
    if there is none it does nothing; if there is one it writes the log
    line, sends that signal to [currentWorker], sets [requestedTermination]
    and, where [sd_notify] is compiled in and [notifiedTermination] is
    unset, sends the "stopping" notification and sets
    [notifiedTermination]. *)
Theorem C6_termination_forwarded_once
    (P : platform) (o : oracle) (fuel : nat) (currentWorker : Z)
    (requestedTermination notifiedTermination : bool) (w : world) :
  (l_TermSignal w <> -1 ->
   l_TermSignal (world_of (main_loop P o fuel currentWorker
                             requestedTermination notifiedTermination w)) <> -1) /\
  exists d,
    trace (world_of (main_loop P o fuel currentWorker
                       requestedTermination notifiedTermination w)) = trace w ++ d /\
    kills_announced P d /\
    (count_events is_forward_term d <= owed requestedTermination)%nat /\
    (forwarded_kills d <= owed requestedTermination)%nat /\
    (count_events is_stopping d <= owed notifiedTermination)%nat /\
    (forall pre sig pid post,
       d = pre ++ EvLog (LogForwardTerm sig pid) :: post ->
       pid = active_worker P currentWorker pre) /\
    (forall cw rt nt w0,
       let pending := last_termination P (handled_at o w0 (tick w0)) (l_TermSignal w0) in
       match forward_termination P o cw rt nt w0 with
       | Ok flags w1 =>
           if rt then flags = (true, nt) /\ w1 = w0
           else if pending =? -1 then flags = (false, nt) /\ trace w1 = trace w0
           else
             flags = (true, nt || HAVE_SYSTEMD P) /\
             trace w1 = trace w0 ++ EvLog (LogForwardTerm pending cw)
                                 :: EvKill cw pending
                                 :: (if HAVE_SYSTEMD P && negb nt
                                     then [EvSdNotify SD_STOPPING] else [])
       | Stop r _ => exists sig, r = Killed sig
       end).
Proof.
  split; [apply main_loop_TermSignal_kept|].
  destruct (announced_main_loop P o fuel currentWorker requestedTermination
              notifiedTermination w) as (d' & Hd' & Hk).
  destruct (fated_main_loop P o fuel currentWorker requestedTermination
              notifiedTermination w) as (d'' & Hd'' & Hfw & _).
  pose proof (main_loop_budget P o fuel currentWorker
                requestedTermination notifiedTermination w) as H.
  destruct (main_loop P o fuel currentWorker requestedTermination notifiedTermination w);
    simpl in *; destruct H as (d & Hd & Hf & Hs); exists d;
    assert (d' = d) as -> by (apply (app_inv_head (trace w)); congruence);
    assert (d'' = d) as -> by (apply (app_inv_head (trace w)); congruence);
    pose proof (forwarded_kills_le d);
    (split; [exact Hd|]); (split; [exact Hk|]);
    (split; [lia|]); (split; [lia|]); (split; [lia|]);
    (split; [|exact (forward_termination_step P o)]);
    intros pre sig pid post ->;
    rewrite follows_worker_app in Hfw; apply andb_prop in Hfw; destruct Hfw as [_ Hfw];
    simpl in Hfw; apply andb_prop in Hfw; destruct Hfw as [Hfw _];
    apply Z.eqb_eq, Hfw.
Qed.

Lemma C6_witness :
  l_TermSignal (world_of (main_loop (linux true) term_arrives 3 100 false false
                            (set_TermSignal 15
                               (handlers_installed (linux true) initial_world)))) <> -1.
Proof.
  destruct (C6_termination_forwarded_once (linux true) term_arrives 3 100 false false
              (set_TermSignal 15 (handlers_installed (linux true) initial_world)))
    as [H _].
  apply H. simpl. lia.
Defined.

(** * Further properties of the code *)

(** ** The handlers *)

(** X1.  Each handler fails its [VERIFY] on exactly the signal numbers it is
    not installed for: the umbrella's handler on every number but the six
    subscribed ones, the worker's on every number but [SIGUSR2], [SIGINT]
    and [SIGTERM].  No expected signal aborts a process and no unexpected
    one is passed over in silence. *)
Theorem X1_VERIFY_on_unexpected_signals_only
    (P : platform) (num sender : Z) (w : world) (k : worker) :
  (UmbrellaSignalHandler P num sender w = None <-> subscribed P num = false) /\
  (WorkerSignalHandler P num sender k = None <-> worker_signal P num = false).
Proof.
  unfold UmbrellaSignalHandler, WorkerSignalHandler, subscribed, worker_signal,
    SIGUSR1, SIGUSR2, SIGCHLD, SIGINT, SIGTERM, SIGHUP. simpl existsb.
  destruct (num =? signo P USR1), (num =? signo P USR2), (num =? signo P CHLD),
    (num =? signo P INT), (num =? signo P TERM), (num =? signo P HUP); simpl;
    repeat match goal with |- context [if ?c then _ else _] => destruct c end;
    split; split; intros H; try reflexivity; discriminate H.
Qed.

(** X2.  Once the umbrella has handled an interrupt or terminate signal,
    whatever other signals it handles afterwards, the next delivery of that
    same signal kills it by the default action; and [l_TermSignal] holds the
    number of the last interrupt/terminate signal handled (the last request
    wins). *)
Theorem X2_second_termination_signal_kills
    (P : platform) (s : usig) (sender : Z) (l : list siginfo) (w w1 : world) :
  is_termination_signal s = true ->
  sigdisp w (signo P s) = SA_UmbrellaSignalHandler ->
  deliver_all P (mkSiginfo s sender :: l) w = Ok tt w1 ->
  (forall sender', deliver P (mkSiginfo s sender') w1 = Stop (Killed (signo P s)) w1) /\
  l_TermSignal w1 = last_termination P l (signo P s).
Proof.
  intros Hs Hd H. simpl in H. unfold bind in H.
  destruct (deliver P (mkSiginfo s sender) w) as [[] w0|] eqn:E; [|discriminate H].
  destruct (deliver_Ok_facts P _ _ _ E) as (_ & Ht & Hdfl). simpl in Ht, Hdfl.
  rewrite Hs in Ht. specialize (Hdfl Hs).
  destruct (deliver_all_Ok_facts P _ _ _ H) as (Hkeep & Hlast).
  split.
  - intros sender'. unfold deliver. simpl. rewrite (Hkeep _ Hdfl).
    destruct s; try discriminate Hs; reflexivity.
  - rewrite Hlast, Ht. reflexivity.
Qed.

Lemma X2_witness :
  l_TermSignal
    (world_of (deliver_all (linux true)
                 [mkSiginfo INT 1; mkSiginfo HUP 1; mkSiginfo TERM 1]
                 (handlers_installed (linux true) initial_world))) = 15.
Proof.
  destruct (X2_second_termination_signal_kills (linux true) INT 1
              [mkSiginfo HUP 1; mkSiginfo TERM 1]
              (handlers_installed (linux true) initial_world)
              (world_of (deliver_all (linux true)
                           [mkSiginfo INT 1; mkSiginfo HUP 1; mkSiginfo TERM 1]
                           (handlers_installed (linux true) initial_world))))
    as [_ H].
  - reflexivity.
  - reflexivity.
  - vm_compute. reflexivity.
  - rewrite H. reflexivity.
Defined.

(** ** How the umbrella can end *)

Section AbnormalEnds.

Variable P : platform.
Variable o : oracle.

Lemma deliver_Stop_default (s : siginfo) (w w' : world) (r : stop_reason) :
  deliver P s w = Stop r w' -> abnormal_end_ok P r w'.
Proof.
  unfold deliver. destruct (sigdisp w (signo P (si_signo s))).
  - destruct (default_terminates (si_signo s)) eqn:Hd; intros H; [|discriminate H].
    injection H as <- <-. simpl. eauto.
  - destruct (UmbrellaSignalHandler_total P (si_signo s) (si_pid s) w) as [w1 ->].
    intros H; discriminate H.
Qed.

Lemma deliver_all_Stop_default (l : list siginfo) : ends_ok P (deliver_all P l).
Proof.
  induction l as [|s l IH]; intros w r w'; simpl.
  - intros H; discriminate H.
  - unfold bind. destruct (deliver P s w) as [[] w1|r1 w1] eqn:E.
    + apply IH.
    + intros H. injection H as <- <-. eapply deliver_Stop_default. exact E.
Qed.

Lemma ends_ret {A : Type} (a : A) : ends_ok P (ret a).
Proof. intros w r w' H. discriminate H. Qed.

Lemma ends_bind {A B : Type} (m : M A) (f : A -> M B) :
  ends_ok P m -> (forall a, ends_ok P (f a)) -> ends_ok P (bind m f).
Proof.
  intros Hm Hf w r w'. unfold bind. destruct (m w) as [a w1|r1 w1] eqn:E.
  - apply Hf.
  - intros H. injection H as <- <-. eapply Hm. exact E.
Qed.

Lemma ends_sync : ends_ok P (sync P o).
Proof.
  intros w r w'. unfold sync. simpl. destruct (sigblocked w); [intros H; discriminate H|].
  unfold bind.
  destruct (deliver_all P (o_signals o (tick w)) (set_tick (S (tick w)) w)) eqn:E;
    intros H; [discriminate H|].
  injection H as <- <-. eapply deliver_all_Stop_default. exact E.
Qed.

(** An operation that cannot stop once its delivery point is passed. *)
Lemma ends_sync_then {A : Type} (g : nat -> M A) :
  (forall n w, exists a w', g n w = Ok a w') -> ends_ok P (n <- sync P o ;; g n).
Proof.
  intros Hg. apply ends_bind; [apply ends_sync|].
  intros n w r w' H. destruct (Hg n w) as (a & w1 & E). rewrite E in H. discriminate H.
Qed.

Ltac ends_simple :=
  apply ends_sync_then; intros;
  unfold bind, emit, ret;
  repeat match goal with |- context [let (_, _) := ?x in _] => destruct x end;
  eauto.

Lemma ends_Log (m : log_message) : ends_ok P (Log P o m).
Proof. ends_simple. Qed.

Lemma ends_kill (pid sig : Z) : ends_ok P (kill P o pid sig).
Proof. ends_simple. Qed.

Lemma ends_sd_notify (m : sd_message) : ends_ok P (sd_notify P o m).
Proof. ends_simple. Qed.

Lemma ends_fork : ends_ok P (fork P o).
Proof. ends_simple. Qed.

Lemma ends_waitpid (pid : Z) (opts : wait_options) : ends_ok P (waitpid P o pid opts).
Proof. ends_simple. Qed.

Lemma ends_GetTime : ends_ok P (GetTime P o).
Proof. ends_simple. Qed.

Lemma ends_Sleep : ends_ok P (Sleep P o).
Proof. ends_simple. Qed.

Lemma ends_atomic {A : Type} (f : world -> A * world) : ends_ok P (atomic P o f).
Proof. ends_simple. Qed.

Lemma ends_sigaction (num : Z) (d : disposition) : ends_ok P (sigaction P o num d).
Proof. ends_simple. Qed.

Lemma ends_sigprocmask_BLOCK : ends_ok P (sigprocmask_BLOCK P o).
Proof. ends_simple. Qed.

Lemma ends_sigprocmask_UNBLOCK : ends_ok P (sigprocmask_UNBLOCK P o).
Proof.
  apply ends_bind; [apply ends_sync|].
  intros _ w r w'. apply deliver_all_Stop_default.
Qed.

Lemma ends_log_and_exit {A : Type} (m : log_message) :
  is_critical m = true -> ends_ok P (Log P o m ;; @exit A (EXIT_FAILURE P)).
Proof.
  intros Hm w r w'. unfold Log, exit, stop, bind, emit.
  destruct (sync P o w) as [n w1|r1 w1] eqn:E; intros H; injection H as <- <-.
  - simpl. split; [reflexivity|]. exists (trace w1), m. auto.
  - eapply ends_sync. exact E.
Qed.

Lemma ends_base_or_exit (m : log_message) :
  is_critical m = true -> ends_ok P (base_or_exit P o m).
Proof.
  intros Hm. apply ends_bind; [apply ends_sync|]. intros n.
  destruct (o_throws o n); [apply ends_log_and_exit, Hm | apply ends_ret].
Qed.

Lemma ends_ifdef (m : M unit) : ends_ok P m -> ends_ok P (ifdef_HAVE_SYSTEMD P m).
Proof.
  intros H. unfold ifdef_HAVE_SYSTEMD. destruct (HAVE_SYSTEMD P); [exact H | apply ends_ret].
Qed.

Lemma ends_stop_fuel {A : Type} : ends_ok P (@stop A OutOfFuel).
Proof. intros w r w' H. injection H as <- <-. exact I. Qed.

Lemma ends_NotifyWatchdog : ends_ok P (NotifyWatchdog P o).
Proof.
  apply ends_bind; [apply ends_GetTime | intros now].
  apply ends_bind; [apply ends_atomic | intros last].
  destruct (NotifyWatchdog_at now last) as [[] last']; [|apply ends_ret].
  apply ends_bind; [apply ends_sd_notify | intros _; apply ends_atomic].
Qed.

Lemma ends_waitpid_retry (fuel : nat) (pid : Z) : ends_ok P (waitpid_retry P o fuel pid).
Proof.
  induction fuel as [|fuel IH]; [apply ends_stop_fuel|].
  simpl. apply ends_bind; [apply ends_waitpid | intros r].
  destruct (interrupted P r); [|apply ends_ret].
  apply ends_bind; [apply ends_ifdef, ends_NotifyWatchdog | intros _; exact IH].
Qed.

Lemma ends_await_worker (fuel : nat) (pid : Z) : ends_ok P (await_worker P o fuel pid).
Proof.
  induction fuel as [|fuel IH]; [apply ends_stop_fuel|].
  simpl. apply ends_bind; [apply ends_ifdef, ends_NotifyWatchdog | intros _].
  apply ends_bind; [apply ends_atomic | intros st].
  destruct st.
  - apply ends_bind; [apply ends_Sleep | intros _; exact IH].
  - apply ends_bind; [apply ends_Log | intros _; apply ends_ret].
  - apply ends_bind; [apply ends_Log | intros _].
    apply ends_bind; [apply ends_waitpid_retry | intros _; apply ends_ret].
Qed.

Lemma ends_StartUnixWorker (fuel : nat) : ends_ok P (StartUnixWorker P o fuel).
Proof.
  unfold StartUnixWorker.
  apply ends_bind; [apply ends_Log | intros _].
  apply ends_bind; [apply ends_base_or_exit; reflexivity | intros _].
  apply ends_bind; [apply ends_sigprocmask_BLOCK | intros _].
  apply ends_bind; [apply ends_fork | intros pid].
  destruct (pid =? -1); [apply ends_log_and_exit; reflexivity|].
  destruct (pid =? 0).
  { intros w r w' H. injection H as <- <-. exact I. }
  apply ends_bind; [apply ends_atomic | intros _].
  apply ends_bind; [apply ends_sigprocmask_UNBLOCK | intros _].
  apply ends_bind; [apply ends_Log | intros _].
  apply ends_bind; [apply ends_await_worker | intros pid'].
  apply ends_bind; [apply ends_atomic | intros _].
  apply ends_bind; [apply ends_atomic | intros _].
  apply ends_bind; [apply ends_base_or_exit; reflexivity | intros _; apply ends_ret].
Qed.

Lemma ends_umbrella_iteration (fuel : nat) (cw : Z) (rt nt : bool) :
  ends_ok P (umbrella_iteration P o fuel cw rt nt).
Proof.
  unfold umbrella_iteration.
  apply ends_bind; [apply ends_ifdef, ends_NotifyWatchdog | intros _].
  apply ends_bind.
  { unfold forward_termination. destruct (negb rt); [|apply ends_ret].
    apply ends_bind; [apply ends_atomic | intros termSig].
    destruct (negb (termSig =? -1)); [|apply ends_ret].
    apply ends_bind; [apply ends_Log | intros _].
    apply ends_bind; [apply ends_kill | intros _].
    destruct (HAVE_SYSTEMD P && negb nt); [|apply ends_ret].
    apply ends_bind; [apply ends_sd_notify | intros _; apply ends_ret]. }
  intros flags. apply ends_bind; [apply ends_atomic | intros requested].
  apply ends_bind.
  { destruct requested; [|apply ends_ret].
    unfold reload, reload_prelude, reload_swap.
    apply ends_bind.
    { apply ends_bind; [apply ends_Log | intros _; apply ends_ifdef, ends_sd_notify]. }
    intros _. apply ends_bind; [apply ends_StartUnixWorker | intros nw].
    apply ends_bind.
    2:{ intros cw'. apply ends_bind; [apply ends_ifdef, ends_sd_notify | intros _; apply ends_ret]. }
    destruct (nw =? -1).
    { apply ends_bind; [apply ends_Log | intros _; apply ends_ret]. }
    apply ends_bind; [apply ends_Log | intros _].
    apply ends_bind; [apply ends_kill | intros _].
    apply ends_bind; [apply ends_GetTime | intros start].
    apply ends_bind; [apply ends_waitpid_retry | intros _].
    apply ends_bind; [apply ends_GetTime | intros finish].
    apply ends_bind; [apply ends_Log | intros _].
    apply ends_bind; [apply ends_kill | intros _; apply ends_ret]. }
  intros cw'. apply ends_bind.
  { unfold forward_reopen_logs. apply ends_bind; [apply ends_atomic | intros b].
    destruct b; [|apply ends_ret].
    apply ends_bind; [apply ends_Log | intros _; apply ends_kill]. }
  intros _. apply ends_bind.
  { unfold check_worker_exit. apply ends_bind; [apply ends_waitpid | intros r].
    destruct (0 <? w_ret r); [|apply ends_ret].
    apply ends_bind; [apply ends_Log | intros _].
    apply ends_bind; [|intros _; apply ends_ret].
    destruct (HAVE_SYSTEMD P && negb (snd flags)); [apply ends_sd_notify | apply ends_ret]. }
  intros ex. destruct ex; [apply ends_ret|].
  apply ends_bind; [apply ends_Sleep | intros _; apply ends_ret].
Qed.

Lemma ends_main_loop (fuel : nat) (cw : Z) (rt nt : bool) :
  ends_ok P (main_loop P o fuel cw rt nt).
Proof.
  revert cw rt nt. induction fuel as [|fuel IH]; intros cw rt nt; [apply ends_stop_fuel|].
  simpl. apply ends_bind; [apply ends_umbrella_iteration | intros step].
  destruct step; [apply IH | apply ends_ret].
Qed.

Lemma ends_Run (fuel : nat) : ends_ok P (Run P o fuel).
Proof.
  unfold Run, install_umbrella_handlers.
  apply ends_bind; [intros w r w' H; discriminate H | intros _].
  apply ends_bind.
  { repeat (apply ends_bind; [apply ends_sigaction | intros _]). apply ends_sigaction. }
  intros _. apply ends_bind; [apply ends_StartUnixWorker | intros cw].
  destruct (cw =? -1); [apply ends_ret|].
  apply ends_bind; [apply ends_kill | intros _].
  apply ends_bind; [apply ends_ifdef, ends_sd_notify | intros _].
  apply ends_main_loop.
Qed.

End AbnormalEnds.

(** ** How the umbrella can end once its handlers are in place *)

Section GuardedEnds.

Variable P : platform.
Variable o : oracle.

Lemma handler_kept_same (w w' : world) (s : usig) :
  sigdisp w' = sigdisp w -> l_TermSignal w' = l_TermSignal w ->
  handler_kept P w s -> handler_kept P w' s.
Proof. unfold handler_kept. intros -> ->. auto. Qed.

Lemma handlers_kept_same (w w' : world) :
  sigdisp w' = sigdisp w -> l_TermSignal w' = l_TermSignal w ->
  handlers_kept P w -> handlers_kept P w'.
Proof. intros Hd Ht H s. eapply handler_kept_same; eauto. Qed.

(** The handler keeps every handler in place. *)
Lemma UmbrellaSignalHandler_kept (i s : usig) (pid : Z) (w w' : world) :
  UmbrellaSignalHandler P (signo P i) pid w = Some w' ->
  handler_kept P w s -> handler_kept P w' s.
Proof.
  unfold UmbrellaSignalHandler. switch_on_signal.
  destruct i; simpl;
    try (destruct (UnixWorkerState_eqb _ _ && _));
    intros H; injection H as <-;
    try (apply handler_kept_same; reflexivity);
    unfold handler_kept; simpl; intros Hk;
    rewrite signo_eqb; destruct s; simpl; intros Hs;
    try (split; [reflexivity | apply signo_not_sentinel]);
    destruct (Hk Hs) as [Ht _]; discriminate Ht.
Qed.

Lemma deliver_kept (i : siginfo) (w : world) (s : usig) :
  handler_kept P w s -> handler_kept P (world_of (deliver P i w)) s.
Proof.
  unfold deliver. destruct (sigdisp w (signo P (si_signo i))).
  - destruct (default_terminates (si_signo i)); auto.
  - destruct (UmbrellaSignalHandler P (signo P (si_signo i)) (si_pid i) w) eqn:E; [|auto].
    simpl. eapply UmbrellaSignalHandler_kept. exact E.
Qed.

Lemma deliver_all_kept (l : list siginfo) (w : world) (s : usig) :
  handler_kept P w s -> handler_kept P (world_of (deliver_all P l w)) s.
Proof.
  revert w. induction l as [|i l IH]; intros w Hk; [exact Hk|].
  simpl. unfold bind. pose proof (deliver_kept i w s Hk) as H.
  destruct (deliver P i w) as [[] w1|r w1]; simpl in H; [apply IH, H | exact H].
Qed.

Lemma sync_kept (w : world) (s : usig) :
  handler_kept P w s -> handler_kept P (world_of (sync P o w)) s.
Proof.
  intros Hk. unfold sync. simpl sigblocked. destruct (sigblocked w).
  - simpl. exact Hk.
  - unfold bind.
    pose proof (deliver_all_kept (o_signals o (tick w)) (set_tick (S (tick w)) w) s Hk) as H.
    destruct (deliver_all P (o_signals o (tick w)) (set_tick (S (tick w)) w)); exact H.
Qed.

(** With the handlers in place, a signal ends the process only if it is a
    termination signal that follows a recorded one. *)
Lemma guarded_deliver (i : siginfo) : guarded P (deliver P i).
Proof.
  intros w Hk. pose proof (fun s => deliver_kept i w s (Hk s)) as H.
  unfold deliver in *. destruct (sigdisp w (signo P (si_signo i))) eqn:Hd.
  - destruct (default_terminates (si_signo i)); [|exact H].
    destruct (Hk (si_signo i) Hd) as [Ht Hn]. simpl. split; [|exact Hn].
    unfold SIGINT, SIGTERM. destruct (si_signo i); try discriminate Ht; auto.
  - destruct (UmbrellaSignalHandler_total P (si_signo i) (si_pid i) w) as [w1 E].
    rewrite E in *. exact H.
Qed.

Lemma guarded_ret {A : Type} (a : A) : guarded P (ret a).
Proof. intros w Hk. exact Hk. Qed.

Lemma guarded_bind {A B : Type} (m : M A) (f : A -> M B) :
  guarded P m -> (forall a, guarded P (f a)) -> guarded P (bind m f).
Proof.
  intros Hm Hf w Hk. unfold bind. specialize (Hm w Hk).
  destruct (m w) as [a w1|r w1]; [apply Hf, Hm | exact Hm].
Qed.

Lemma guarded_deliver_all (l : list siginfo) : guarded P (deliver_all P l).
Proof.
  induction l as [|i l IH]; [apply guarded_ret|].
  simpl. apply guarded_bind; [apply guarded_deliver | intros _; exact IH].
Qed.

Lemma guarded_sync : guarded P (sync P o).
Proof.
  intros w Hk. unfold sync. simpl sigblocked. destruct (sigblocked w).
  - exact Hk.
  - apply (guarded_bind (deliver_all P (o_signals o (tick w))) (fun _ => ret (tick w)));
      [apply guarded_deliver_all | intros _; apply guarded_ret | exact Hk].
Qed.

(** An operation that, once its delivery point is passed, cannot stop and
    touches neither the dispositions nor [l_TermSignal]. *)
Lemma guarded_sync_then {A : Type} (g : nat -> M A) :
  (forall n w, exists a w', g n w = Ok a w' /\
     sigdisp w' = sigdisp w /\ l_TermSignal w' = l_TermSignal w) ->
  guarded P (n <- sync P o ;; g n).
Proof.
  intros Hg. apply guarded_bind; [apply guarded_sync|].
  intros n w Hk. destruct (Hg n w) as (a & w1 & -> & Hd & Ht).
  eapply handlers_kept_same; eassumption.
Qed.

Ltac guarded_simple :=
  apply guarded_sync_then; intros;
  unfold bind, emit, ret; eexists; eexists;
  split; [reflexivity | split; reflexivity].

Lemma guarded_Log (m : log_message) : guarded P (Log P o m).
Proof. guarded_simple. Qed.

Lemma guarded_kill (pid sig : Z) : guarded P (kill P o pid sig).
Proof. guarded_simple. Qed.

Lemma guarded_sd_notify (m : sd_message) : guarded P (sd_notify P o m).
Proof. guarded_simple. Qed.

Lemma guarded_fork : guarded P (fork P o).
Proof. guarded_simple. Qed.

Lemma guarded_waitpid (pid : Z) (opts : wait_options) : guarded P (waitpid P o pid opts).
Proof. guarded_simple. Qed.

Lemma guarded_GetTime : guarded P (GetTime P o).
Proof. guarded_simple. Qed.

Lemma guarded_Sleep : guarded P (Sleep P o).
Proof. guarded_simple. Qed.

Lemma guarded_atomic {A : Type} (f : world -> A * world) :
  (forall w, sigdisp (snd (f w)) = sigdisp w /\ l_TermSignal (snd (f w)) = l_TermSignal w) ->
  guarded P (atomic P o f).
Proof.
  intros Hf. apply guarded_sync_then. intros n w.
  destruct (Hf w) as [Hd Ht]. destruct (f w) as [a w1]. eauto.
Qed.

Lemma guarded_sigprocmask_BLOCK : guarded P (sigprocmask_BLOCK P o).
Proof. guarded_simple. Qed.

Lemma guarded_sigprocmask_UNBLOCK : guarded P (sigprocmask_UNBLOCK P o).
Proof.
  apply guarded_bind; [apply guarded_sync|].
  intros _ w Hk. apply guarded_deliver_all.
  eapply handlers_kept_same; [| |exact Hk]; reflexivity.
Qed.

Lemma guarded_log_and_exit {A : Type} (m : log_message) :
  is_critical m = true -> guarded P (Log P o m ;; @exit A (EXIT_FAILURE P)).
Proof.
  intros Hm w Hk. pose proof (guarded_sync w Hk) as H.
  unfold Log, exit, stop, bind, emit.
  destruct (sync P o w) as [n w1|r1 w1]; [|exact H].
  simpl. split; [reflexivity|]. exists (trace w1), m. auto.
Qed.

Lemma guarded_base_or_exit (m : log_message) :
  is_critical m = true -> guarded P (base_or_exit P o m).
Proof.
  intros Hm. apply guarded_bind; [apply guarded_sync|]. intros n.
  destruct (o_throws o n); [apply guarded_log_and_exit, Hm | apply guarded_ret].
Qed.

Lemma guarded_ifdef (m : M unit) : guarded P m -> guarded P (ifdef_HAVE_SYSTEMD P m).
Proof.
  intros H. unfold ifdef_HAVE_SYSTEMD. destruct (HAVE_SYSTEMD P); [exact H | apply guarded_ret].
Qed.

Lemma guarded_stop {A : Type} (r : stop_reason) :
  r = InChild \/ r = OutOfFuel -> guarded P (@stop A r).
Proof. intros [-> | ->] w _; exact I. Qed.

Lemma guarded_NotifyWatchdog : guarded P (NotifyWatchdog P o).
Proof.
  apply guarded_bind; [apply guarded_GetTime | intros now].
  apply guarded_bind; [apply guarded_atomic; auto | intros last].
  destruct (NotifyWatchdog_at now last) as [[] last']; [|apply guarded_ret].
  apply guarded_bind; [apply guarded_sd_notify | intros _; apply guarded_atomic; auto].
Qed.

Lemma guarded_waitpid_retry (fuel : nat) (pid : Z) :
  guarded P (waitpid_retry P o fuel pid).
Proof.
  induction fuel as [|fuel IH]; [apply guarded_stop; auto|].
  simpl. apply guarded_bind; [apply guarded_waitpid | intros r].
  destruct (interrupted P r); [|apply guarded_ret].
  apply guarded_bind; [apply guarded_ifdef, guarded_NotifyWatchdog | intros _; exact IH].
Qed.

Lemma guarded_await_worker (fuel : nat) (pid : Z) :
  guarded P (await_worker P o fuel pid).
Proof.
  induction fuel as [|fuel IH]; [apply guarded_stop; auto|].
  simpl. apply guarded_bind; [apply guarded_ifdef, guarded_NotifyWatchdog | intros _].
  apply guarded_bind; [apply guarded_atomic; auto | intros st].
  destruct st.
  - apply guarded_bind; [apply guarded_Sleep | intros _; exact IH].
  - apply guarded_bind; [apply guarded_Log | intros _; apply guarded_ret].
  - apply guarded_bind; [apply guarded_Log | intros _].
    apply guarded_bind; [apply guarded_waitpid_retry | intros _; apply guarded_ret].
Qed.

Lemma guarded_StartUnixWorker (fuel : nat) : guarded P (StartUnixWorker P o fuel).
Proof.
  unfold StartUnixWorker.
  apply guarded_bind; [apply guarded_Log | intros _].
  apply guarded_bind; [apply guarded_base_or_exit; reflexivity | intros _].
  apply guarded_bind; [apply guarded_sigprocmask_BLOCK | intros _].
  apply guarded_bind; [apply guarded_fork | intros pid].
  destruct (pid =? -1); [apply guarded_log_and_exit; reflexivity|].
  destruct (pid =? 0); [apply guarded_stop; auto|].
  apply guarded_bind; [apply guarded_atomic; auto | intros _].
  apply guarded_bind; [apply guarded_sigprocmask_UNBLOCK | intros _].
  apply guarded_bind; [apply guarded_Log | intros _].
  apply guarded_bind; [apply guarded_await_worker | intros pid'].
  apply guarded_bind; [apply guarded_atomic; auto | intros _].
  apply guarded_bind; [apply guarded_atomic; auto | intros _].
  apply guarded_bind; [apply guarded_base_or_exit; reflexivity | intros _; apply guarded_ret].
Qed.

Lemma guarded_umbrella_iteration (fuel : nat) (cw : Z) (rt nt : bool) :
  guarded P (umbrella_iteration P o fuel cw rt nt).
Proof.
  unfold umbrella_iteration.
  apply guarded_bind; [apply guarded_ifdef, guarded_NotifyWatchdog | intros _].
  apply guarded_bind.
  { unfold forward_termination. destruct (negb rt); [|apply guarded_ret].
    apply guarded_bind; [apply guarded_atomic; auto | intros termSig].
    destruct (negb (termSig =? -1)); [|apply guarded_ret].
    apply guarded_bind; [apply guarded_Log | intros _].
    apply guarded_bind; [apply guarded_kill | intros _].
    destruct (HAVE_SYSTEMD P && negb nt); [|apply guarded_ret].
    apply guarded_bind; [apply guarded_sd_notify | intros _; apply guarded_ret]. }
  intros flags. apply guarded_bind; [apply guarded_atomic; auto | intros requested].
  apply guarded_bind.
  { destruct requested; [|apply guarded_ret].
    unfold reload, reload_prelude, reload_swap.
    apply guarded_bind.
    { apply guarded_bind; [apply guarded_Log | intros _; apply guarded_ifdef, guarded_sd_notify]. }
    intros _. apply guarded_bind; [apply guarded_StartUnixWorker | intros nw].
    apply guarded_bind.
    2:{ intros cw'.
        apply guarded_bind;
          [apply guarded_ifdef, guarded_sd_notify | intros _; apply guarded_ret]. }
    destruct (nw =? -1).
    { apply guarded_bind; [apply guarded_Log | intros _; apply guarded_ret]. }
    apply guarded_bind; [apply guarded_Log | intros _].
    apply guarded_bind; [apply guarded_kill | intros _].
    apply guarded_bind; [apply guarded_GetTime | intros start].
    apply guarded_bind; [apply guarded_waitpid_retry | intros _].
    apply guarded_bind; [apply guarded_GetTime | intros finish].
    apply guarded_bind; [apply guarded_Log | intros _].
    apply guarded_bind; [apply guarded_kill | intros _; apply guarded_ret]. }
  intros cw'. apply guarded_bind.
  { unfold forward_reopen_logs. apply guarded_bind; [apply guarded_atomic; auto | intros b].
    destruct b; [|apply guarded_ret].
    apply guarded_bind; [apply guarded_Log | intros _; apply guarded_kill]. }
  intros _. apply guarded_bind.
  { unfold check_worker_exit. apply guarded_bind; [apply guarded_waitpid | intros r].
    destruct (0 <? w_ret r); [|apply guarded_ret].
    apply guarded_bind; [apply guarded_Log | intros _].
    apply guarded_bind; [|intros _; apply guarded_ret].
    destruct (HAVE_SYSTEMD P && negb (snd flags)); [apply guarded_sd_notify | apply guarded_ret]. }
  intros ex. destruct ex; [apply guarded_ret|].
  apply guarded_bind; [apply guarded_Sleep | intros _; apply guarded_ret].
Qed.

Lemma guarded_main_loop (fuel : nat) (cw : Z) (rt nt : bool) :
  guarded P (main_loop P o fuel cw rt nt).
Proof.
  revert cw rt nt. induction fuel as [|fuel IH]; intros cw rt nt;
    [apply guarded_stop; auto|].
  simpl. apply guarded_bind; [apply guarded_umbrella_iteration | intros step].
  destruct step; [apply IH | apply guarded_ret].
Qed.

(** [sigaction] for [i] puts the handler of [i] in place and leaves the
    others as they are. *)
Lemma sigaction_Ok_kept (i : usig) (w w' : world) :
  sigaction P o (signo P i) SA_UmbrellaSignalHandler w = Ok tt w' ->
  forall s, s = i \/ handler_kept P w s -> handler_kept P w' s.
Proof.
  unfold sigaction, bind. intros H s Hs.
  destruct (sync P o w) as [n w1|r w1] eqn:E; [|discriminate H].
  injection H as <-. unfold handler_kept. simpl. rewrite signo_eqb.
  destruct (usig_eqb s i) eqn:Hsi; [intros Hd; discriminate Hd|].
  destruct Hs as [-> | Hs]; [destruct i; discriminate Hsi|].
  pose proof (sync_kept w s Hs) as Hk. rewrite E in Hk. exact Hk.
Qed.

(** Lines 626-639 put all six handlers in place. *)
Lemma install_umbrella_handlers_kept (w w' : world) :
  install_umbrella_handlers P o w = Ok tt w' -> handlers_kept P w'.
Proof.
  unfold install_umbrella_handlers, SIGUSR1, SIGUSR2, SIGCHLD, SIGINT, SIGTERM, SIGHUP.
  intros H.
  apply bind_Ok in H. destruct H as ([] & w1 & H1 & H).
  apply bind_Ok in H. destruct H as ([] & w2 & H2 & H).
  apply bind_Ok in H. destruct H as ([] & w3 & H3 & H).
  apply bind_Ok in H. destruct H as ([] & w4 & H4 & H).
  apply bind_Ok in H. destruct H as ([] & w5 & H5 & H6).
  pose proof (sigaction_Ok_kept _ _ _ H1) as K1.
  pose proof (sigaction_Ok_kept _ _ _ H2) as K2.
  pose proof (sigaction_Ok_kept _ _ _ H3) as K3.
  pose proof (sigaction_Ok_kept _ _ _ H4) as K4.
  pose proof (sigaction_Ok_kept _ _ _ H5) as K5.
  pose proof (sigaction_Ok_kept _ _ _ H6) as K6.
  intros s. apply K6.
  destruct s; first [left; reflexivity | right; apply K5];
    first [left; reflexivity | right; apply K4];
    first [left; reflexivity | right; apply K3];
    first [left; reflexivity | right; apply K2];
    first [left; reflexivity | right; apply K1]; left; reflexivity.
Qed.

(** [Run] after the handlers are installed (lines 641-753). *)
Lemma guarded_Run_installed (fuel : nat) :
  guarded P (currentWorker <- StartUnixWorker P o fuel ;;
             if currentWorker =? -1 then ret (EXIT_FAILURE P)
             else kill P o currentWorker (SIGUSR2 P) ;;
                  ifdef_HAVE_SYSTEMD P (sd_notify P o SD_READY) ;;
                  main_loop P o fuel currentWorker false false).
Proof.
  apply guarded_bind; [apply guarded_StartUnixWorker | intros cw].
  destruct (cw =? -1); [apply guarded_ret|].
  apply guarded_bind; [apply guarded_kill | intros _].
  apply guarded_bind; [apply guarded_ifdef, guarded_sd_notify | intros _].
  apply guarded_main_loop.
Qed.

End GuardedEnds.

(** X3.  How a run of [Run] can end without returning.  If it calls [exit],
    the status is [EXIT_FAILURE] and the last thing it did was to write the
    critical log line of a failed [fork] or of a [std::exception] from
    [UninitializeBase]/[InitializeBase].  If one of the six signals it
    subscribes to ends it by its default action, then either this happens
    while [Run] is still installing its handlers (lines 626-639), or the
    signal is [SIGINT] or [SIGTERM] and a termination signal has been
    caught and recorded in [l_TermSignal] before: with the handlers in
    place, [SIGUSR1], [SIGUSR2] and [SIGHUP] never end the umbrella, and a
    first termination signal does not either.  (Signals outside the six and
    exceptions that are no [std::exception] are outside this model.) *)
Theorem X3_umbrella_abnormal_ends
    (P : platform) (o : oracle) (fuel : nat) (w w' : world) (r : stop_reason) :
  Run P o fuel w = Stop r w' ->
  match r with
  | Exited code =>
      code = EXIT_FAILURE P /\
      exists tr m, trace w' = tr ++ [EvLog m] /\ is_critical m = true
  | Killed sig =>
      install_umbrella_handlers P o (set_UmbrellaPid (o_getpid o) w)
      = Stop (Killed sig) w' \/
      ((sig = SIGINT P \/ sig = SIGTERM P) /\ l_TermSignal w' <> -1)
  | Aborted | InChild | OutOfFuel => True
  end.
Proof.
  intros H. destruct r as [code|sig| | |]; try exact I.
  - exact (ends_Run P o fuel w _ w' H).
  - unfold Run in H. unfold bind at 1 2 in H.
    destruct (install_umbrella_handlers P o (set_UmbrellaPid (o_getpid o) w))
      as [[] w1|r1 w1] eqn:E.
    + right. pose proof (install_umbrella_handlers_kept P o _ _ E) as Hk.
      pose proof (guarded_Run_installed P o fuel w1 Hk) as G.
      rewrite H in G. exact G.
    + left. injection H as -> ->. reflexivity.
Qed.

Lemma X3_witness :
  (15 = SIGINT (linux true) \/ 15 = SIGTERM (linux true)) /\
  l_TermSignal (world_of (Run (linux true) term_then_term 3 initial_world)) <> -1.
Proof.
  pose proof (X3_umbrella_abnormal_ends (linux true) term_then_term 3 initial_world
                (world_of (Run (linux true) term_then_term 3 initial_world))
                (Killed 15)) as H.
  destruct H as [H | H].
  - vm_compute. reflexivity.
  - exfalso. revert H. vm_compute. intros H. discriminate H.
  - exact H.
Defined.

(** ** What a spawn returns *)

Section OkSteps.

Variable P : platform.
Variable o : oracle.

Lemma Log_Ok (m : log_message) (w w' : world) (u : unit) :
  Log P o m w = Ok u w' -> trace w' = trace w ++ [EvLog m].
Proof.
  unfold Log, bind, emit. intros H. sync_step; [|discriminate H].
  injection H as _ <-. rely_traces. reflexivity.
Qed.

Lemma kill_Ok (pid sig : Z) (w w' : world) (u : unit) :
  kill P o pid sig w = Ok u w' -> trace w' = trace w ++ [EvKill pid sig].
Proof.
  unfold kill, bind, emit. intros H. sync_step; [|discriminate H].
  injection H as _ <-. rely_traces. reflexivity.
Qed.

Lemma sd_notify_Ok (m : sd_message) (w w' : world) (u : unit) :
  sd_notify P o m w = Ok u w' -> trace w' = trace w ++ [EvSdNotify m].
Proof.
  unfold sd_notify, bind, emit. intros H. sync_step; [|discriminate H].
  injection H as _ <-. rely_traces. reflexivity.
Qed.

Lemma fork_Ok (w w' : world) (pid : Z) :
  fork P o w = Ok pid w' -> trace w' = trace w ++ [EvFork pid].
Proof.
  unfold fork, bind, emit, ret. intros H. sync_step; [|discriminate H].
  injection H as <- <-. rely_traces. reflexivity.
Qed.

Lemma waitpid_Ok (pid : Z) (opts : wait_options) (w w' : world) (r : wait_result) :
  waitpid P o pid opts w = Ok r w' -> trace w' = trace w ++ [EvWaitpid pid opts r].
Proof.
  unfold waitpid, bind, emit, ret. intros H. sync_step; [|discriminate H].
  injection H as <- <-. rely_traces. reflexivity.
Qed.

Lemma atomic_Ok {A : Type} (f : world -> A * world) (w w' : world) (a : A) :
  (forall w0, trace (snd (f w0)) = trace w0) ->
  atomic P o f w = Ok a w' -> trace w' = trace w.
Proof.
  unfold atomic, bind. intros Hf H. sync_step; [|discriminate H].
  specialize (Hf w0). destruct (f w0) as [a0 w1]. injection H as _ <-.
  simpl in Hf. rewrite Hf. apply (rely_trace _ _ E).
Qed.

Lemma Sleep_Ok (w w' : world) (u : unit) :
  Sleep P o w = Ok u w' -> trace w' = trace w.
Proof.
  unfold Sleep, bind, ret. intros H. sync_step; [|discriminate H].
  injection H as _ <-. apply (rely_trace _ _ E).
Qed.

Lemma GetTime_Ok (w w' : world) (t : Q) :
  GetTime P o w = Ok t w' -> trace w' = trace w.
Proof.
  unfold GetTime, bind, ret. intros H. sync_step; [|discriminate H].
  injection H as _ <-. apply (rely_trace _ _ E).
Qed.

Lemma base_or_exit_Ok (m : log_message) (w w' : world) (u : unit) :
  base_or_exit P o m w = Ok u w' -> trace w' = trace w.
Proof.
  unfold base_or_exit, bind. intros H. sync_step; [|discriminate H].
  destruct (o_throws o (tick w)).
  - destruct (Log P o m w0); discriminate H.
  - injection H as _ <-. apply (rely_trace _ _ E).
Qed.

Lemma sigprocmask_BLOCK_Ok (w w' : world) (u : unit) :
  sigprocmask_BLOCK P o w = Ok u w' -> trace w' = trace w.
Proof.
  unfold sigprocmask_BLOCK, bind. intros H. sync_step; [|discriminate H].
  injection H as _ <-. simpl. apply (rely_trace _ _ E).
Qed.

Lemma sigprocmask_UNBLOCK_Ok (w w' : world) (u : unit) :
  sigprocmask_UNBLOCK P o w = Ok u w' -> trace w' = trace w.
Proof.
  unfold sigprocmask_UNBLOCK, bind. intros H. sync_step; [|discriminate H].
  pose proof (deliver_all_rely P (sigpending w0) (set_sigmask false [] w0)) as Hr.
  rewrite H in Hr. simpl in Hr. rewrite (rely_trace _ _ Hr). simpl.
  apply (rely_trace _ _ E).
Qed.

Lemma ifdef_NotifyWatchdog_Ok (w w' : world) (u : unit) :
  ifdef_HAVE_SYSTEMD P (NotifyWatchdog P o) w = Ok u w' ->
  trace w' = trace w \/ trace w' = trace w ++ [EvSdNotify SD_WATCHDOG].
Proof.
  unfold ifdef_HAVE_SYSTEMD. destruct (HAVE_SYSTEMD P).
  - destruct u. intros H. apply NotifyWatchdog_Ok in H.
    destruct (NotifyWatchdog_at (o_time o (tick w)) (l_LastNotifiedWatchdog w)) as [[] last'];
      destruct H as [_ H]; [right; exact H | left].
    rewrite H. apply app_nil_r.
  - intros H. injection H as _ <-. left. reflexivity.
Qed.

End OkSteps.

Section SpawnResult.

Variable P : platform.
Variable o : oracle.

Lemma await_worker_Ok (fuel : nat) (pid result : Z) (w w' : world) :
  await_worker P o fuel pid w = Ok result w' ->
  exists d, trace w' = trace w ++ d /\ spawn_verdict P pid result d.
Proof.
  revert w. induction fuel as [|fuel IH]; intros w H; [discriminate H|].
  simpl in H.
  apply bind_Ok in H. destruct H as ([] & w1 & Hwd & H).
  apply bind_Ok in H. destruct H as (st & w2 & Hst & H).
  apply ifdef_NotifyWatchdog_Ok in Hwd.
  apply atomic_Ok in Hst; [|reflexivity].
  assert (exists wd0, Forall (fun e => is_watchdog e = true) wd0 /\
                      trace w2 = trace w ++ wd0) as (wd0 & Fwd0 & Hw2).
  { destruct Hwd as [Hwd | Hwd]; rewrite Hst, Hwd.
    - exists []. split; [constructor | symmetry; apply app_nil_r].
    - exists [EvSdNotify SD_WATCHDOG]. split; [repeat constructor | reflexivity]. }
  destruct st.
  - apply bind_Ok in H. destruct H as ([] & w3 & Hsl & H).
    apply Sleep_Ok in Hsl. apply IH in H. destruct H as (d & Hd & Hv).
    exists (wd0 ++ d). split; [rewrite Hd, Hsl, Hw2; symmetry; apply app_assoc|].
    destruct Hv as [(-> & wd & Fwd & ->) | (-> & wd & waits & r & Fwd & Fw & Hr & ->)].
    + left. split; [reflexivity|]. exists (wd0 ++ wd).
      split; [apply Forall_app; auto | apply app_assoc].
    + right. split; [reflexivity|]. exists (wd0 ++ wd), waits, r.
      repeat split; auto; [apply Forall_app; auto | list_eq].
  - apply bind_Ok in H. destruct H as ([] & w3 & Hlog & H).
    apply Log_Ok in Hlog. injection H as <- <-.
    exists (wd0 ++ [EvLog LogLoadedConfig]).
    split; [rewrite Hlog, Hw2; symmetry; apply app_assoc|].
    left. split; [reflexivity|]. exists wd0. auto.
  - apply bind_Ok in H. destruct H as ([] & w3 & Hlog & H).
    apply Log_Ok in Hlog.
    apply bind_Ok in H. destruct H as ([] & w4 & Hretry & H).
    injection H as <- <-.
    destruct (waitpid_retry_trace P o fuel pid w3) as (waits & Fw & Hw).
    rewrite Hretry in Hw. destruct Hw as (r & Hr & Hw).
    exists (wd0 ++ [EvLog LogCouldntLoad] ++ waits ++ [EvWaitpid pid WaitBlocking r]).
    split; [rewrite Hw, Hlog, Hw2; list_eq|].
    right. split; [reflexivity|]. exists wd0, waits, r. auto.
Qed.

Lemma StartUnixWorker_Ok_shape (fuel : nat) (result : Z) (w w' : world) :
  StartUnixWorker P o fuel w = Ok result w' ->
  exists pid d,
    pid <> -1 /\ pid <> 0 /\
    trace w' = trace w ++ [EvLog LogSpawning; EvFork pid; EvLog (LogSpawned pid)] ++ d /\
    spawn_verdict P pid result d.
Proof.
  intros H. unfold StartUnixWorker in H.
  apply bind_Ok in H. destruct H as ([] & w1 & H1 & H). apply Log_Ok in H1.
  apply bind_Ok in H. destruct H as ([] & w2 & H2 & H). apply base_or_exit_Ok in H2.
  apply bind_Ok in H. destruct H as ([] & w3 & H3 & H). apply sigprocmask_BLOCK_Ok in H3.
  apply bind_Ok in H. destruct H as (pid & w4 & H4 & H). apply fork_Ok in H4.
  destruct (pid =? -1) eqn:Hm1.
  { apply bind_Ok in H. destruct H as (_ & w5 & _ & H). discriminate H. }
  destruct (pid =? 0) eqn:H0; [discriminate H|].
  apply Z.eqb_neq in Hm1, H0.
  apply bind_Ok in H. destruct H as ([] & w5 & H5 & H). apply atomic_Ok in H5; [|reflexivity].
  apply bind_Ok in H. destruct H as ([] & w6 & H6 & H). apply sigprocmask_UNBLOCK_Ok in H6.
  apply bind_Ok in H. destruct H as ([] & w7 & H7 & H). apply Log_Ok in H7.
  apply bind_Ok in H. destruct H as (pid' & w8 & H8 & H). apply await_worker_Ok in H8.
  apply bind_Ok in H. destruct H as ([] & w9 & H9 & H). apply atomic_Ok in H9; [|reflexivity].
  apply bind_Ok in H. destruct H as ([] & w10 & H10 & H). apply atomic_Ok in H10; [|reflexivity].
  apply bind_Ok in H. destruct H as ([] & w11 & H11 & H). apply base_or_exit_Ok in H11.
  injection H as <- <-.
  destruct H8 as (d & Hd & Hv).
  exists pid, d. repeat split; try assumption.
  rewrite H11, H10, H9, Hd, H7, H6, H5, H4, H3, H2, H1. list_eq.
Qed.

End SpawnResult.

(** X4.  When [StartUnixWorker] returns, it has forked exactly once, the
    forked pid being neither [-1] nor [0], and what it returns is that pid or
    [-1].  It returns the pid without ever having waited for the child (the
    child is left running, not reaped); it returns [-1] only after a blocking
    [waitpid] on that child that was not interrupted, retried after each
    interrupted one (the failed child is reaped, no zombie stays behind).
    Besides log lines and watchdog notifications it does nothing else: it
    sends no signal. *)
Theorem X4_spawn_returns_child_or_reaps_it
    (P : platform) (o : oracle) (fuel : nat) (result : Z) (w w' : world) :
  StartUnixWorker P o fuel w = Ok result w' ->
  exists pid d,
    pid <> -1 /\ pid <> 0 /\
    trace w' = trace w ++ [EvLog LogSpawning; EvFork pid; EvLog (LogSpawned pid)] ++ d /\
    ((result = pid /\
      exists wd, Forall (fun e => is_watchdog e = true) wd /\
        d = wd ++ [EvLog LogLoadedConfig]) \/
     (result = -1 /\
      exists wd waits r,
        Forall (fun e => is_watchdog e = true) wd /\
        Forall (fun e => is_retry_event P pid e = true) waits /\
        interrupted P r = false /\
        d = wd ++ [EvLog LogCouldntLoad] ++ waits ++ [EvWaitpid pid WaitBlocking r])).
Proof. apply StartUnixWorker_Ok_shape. Qed.

Lemma X4_witness :
  exists pid d,
    pid <> -1 /\ pid <> 0 /\
    trace (world_of (StartUnixWorker (linux true) startup_succeeds 3
                       (set_tick 6 (handlers_installed (linux true) initial_world))))
    = trace (set_tick 6 (handlers_installed (linux true) initial_world))
      ++ [EvLog LogSpawning; EvFork pid; EvLog (LogSpawned pid)] ++ d /\
    ((200 = pid /\
      exists wd, Forall (fun e => is_watchdog e = true) wd /\
        d = wd ++ [EvLog LogLoadedConfig]) \/
     (200 = -1 /\
      exists wd waits r,
        Forall (fun e => is_watchdog e = true) wd /\
        Forall (fun e => is_retry_event (linux true) pid e = true) waits /\
        interrupted (linux true) r = false /\
        d = wd ++ [EvLog LogCouldntLoad] ++ waits ++ [EvWaitpid pid WaitBlocking r])).
Proof.
  apply (X4_spawn_returns_child_or_reaps_it (linux true) startup_succeeds 3 200
           (set_tick 6 (handlers_installed (linux true) initial_world))).
  vm_compute. reflexivity.
Defined.

(** ** Whom the umbrella signals *)

Lemma snoc_split {X : Type} (tr d1 d2 : list X) (e x : X) :
  tr ++ [e] = d1 ++ x :: d2 ->
  (d2 = [] /\ d1 = tr /\ x = e) \/ (exists d2', d2 = d2' ++ [e] /\ tr = d1 ++ x :: d2').
Proof.
  intros H. destruct d2 as [|y d2] using rev_ind.
  - left. apply (app_inj_tail tr d1 e x) in H. destruct H as [-> ->]. auto.
  - right. exists d2.
    change (d1 ++ x :: d2 ++ [y]) with (d1 ++ (x :: d2) ++ [y]) in H.
    rewrite app_assoc in H. apply app_inj_tail in H. destruct H as [-> ->]. auto.
Qed.

Lemma child_of_app (tr d : list event) (p : Z) :
  child_of tr p -> child_of (tr ++ d) p.
Proof.
  intros (H1 & H2 & H3). repeat split; auto. apply in_or_app. auto.
Qed.

Lemma kills_children_snoc (tr : list event) (e : event) :
  kills_children tr ->
  (forall p s, e = EvKill p s -> child_of tr p) ->
  kills_children (tr ++ [e]).
Proof.
  intros Hk He d1 p s d2 Heq. apply snoc_split in Heq.
  destruct Heq as [(_ & -> & Hx) | (d2' & _ & ->)].
  - apply (He p s). symmetry. exact Hx.
  - eapply Hk. reflexivity.
Qed.

Lemma kills_children_app (targets : list Z) (d tr : list event) :
  kills_children tr ->
  Forall (child_of tr) targets ->
  Forall (fun e => kills_only targets e = true) d ->
  kills_children (tr ++ d).
Proof.
  revert tr. induction d as [|e d IH]; intros tr Hk Ht Hd.
  - rewrite app_nil_r. exact Hk.
  - inversion Hd as [|e' d' He Hd']; subst.
    change (tr ++ e :: d) with (tr ++ [e] ++ d). rewrite app_assoc.
    apply IH; [| |exact Hd'].
    + apply kills_children_snoc; [exact Hk|].
      intros p s ->. simpl in He. apply existsb_exists in He.
      destruct He as (q & Hin & Hq). apply Z.eqb_eq in Hq. subst q.
      rewrite Forall_forall in Ht. apply Ht, Hin.
    + eapply Forall_impl; [|exact Ht]. intros q. apply child_of_app.
Qed.

Lemma kc_bind {A B : Type} (cw : Z) (g : A -> Z) (post : B -> list event -> Prop)
    (m : M A) (f : A -> M B) :
  kc_ok cw (fun a tr => child_of tr (g a)) m ->
  (forall a, kc_ok (g a) post (f a)) ->
  kc_ok cw post (bind m f).
Proof.
  intros Hm Hf w Hk Hc. unfold bind. specialize (Hm w Hk Hc).
  destruct (m w) as [a w1|r w1]; [|exact Hm].
  destruct Hm as [Hk1 Hc1]. apply (Hf a w1 Hk1 Hc1).
Qed.

Lemma kc_ret {A : Type} (cw : Z) (a : A) (post : A -> list event -> Prop) :
  (forall tr, child_of tr cw -> post a tr) -> kc_ok cw post (ret a).
Proof. intros H w Hk Hc. simpl. auto. Qed.

(** A step whose kills, if any, go to [cw]. *)
Lemma kc_of_emits {A : Type} (cw : Z) (m : M A) :
  (forall w, emits_only (kills_only [cw]) w (world_of (m w))) ->
  kc_ok cw (fun _ tr => child_of tr cw) m.
Proof.
  intros H w Hk Hc. destruct (H w) as (d & Hd & Fd).
  assert (kills_children (trace (world_of (m w)))) as Hk'.
  { rewrite Hd. apply (kills_children_app [cw]); auto. }
  destruct (m w); simpl in *; [|exact Hk'].
  split; [exact Hk'|]. rewrite Hd. apply child_of_app, Hc.
Qed.

Section KillTargets.

Variable P : platform.
Variable o : oracle.
Variable targets : list Z.

Let R := emits_only (kills_only targets).

Lemma ko_bind {A B : Type} (m : M A) (f : A -> M B) :
  respects R m -> (forall a, respects R (f a)) -> respects R (bind m f).
Proof. apply respects_bind, emits_only_trans. Qed.

Lemma ko_ret {A : Type} (a : A) : respects R (ret a).
Proof. apply respects_ret, emits_only_refl. Qed.

Lemma ko_Log (m : log_message) : respects R (Log P o m).
Proof.
  apply (respects_Log P o R (kills_only targets) (emits_only_trans _)
           (emits_only_rely _) (emits_only_event _)). reflexivity.
Qed.

Lemma ko_sd_notify (m : sd_message) : respects R (sd_notify P o m).
Proof.
  apply (respects_sd_notify P o R (kills_only targets) (emits_only_trans _)
           (emits_only_rely _) (emits_only_event _)). reflexivity.
Qed.

Lemma ko_kill (pid sig : Z) : In pid targets -> respects R (kill P o pid sig).
Proof.
  intros Hin.
  apply (respects_kill P o R (kills_only targets) (emits_only_trans _)
           (emits_only_rely _) (emits_only_event _)).
  simpl. apply existsb_exists. exists pid. split; [exact Hin | apply Z.eqb_refl].
Qed.

Lemma ko_atomic {A : Type} (f : world -> A * world) :
  (forall w, trace (snd (f w)) = trace w) -> respects R (atomic P o f).
Proof.
  intros Hf.
  apply (respects_atomic P o R (emits_only_trans _) (emits_only_rely _)).
  intros w. apply emits_only_same_trace, Hf.
Qed.

Lemma ko_GetTime : respects R (GetTime P o).
Proof.
  apply (respects_GetTime P o R (emits_only_refl _) (emits_only_trans _)
           (emits_only_rely _)).
Qed.

Lemma ko_Sleep : respects R (Sleep P o).
Proof.
  apply (respects_Sleep P o R (emits_only_refl _) (emits_only_trans _)
           (emits_only_rely _)).
Qed.

Lemma ko_ifdef (m : M unit) : respects R m -> respects R (ifdef_HAVE_SYSTEMD P m).
Proof. apply respects_ifdef, emits_only_refl. Qed.

Lemma ko_NotifyWatchdog : respects R (ifdef_HAVE_SYSTEMD P (NotifyWatchdog P o)).
Proof. intros w. apply NotifyWatchdog_emits. reflexivity. Qed.

Lemma ko_waitpid (pid : Z) (opts : wait_options) : respects R (waitpid P o pid opts).
Proof.
  apply (respects_waitpid P o R (kills_only targets) (emits_only_refl _)
           (emits_only_trans _) (emits_only_rely _) (emits_only_event _)).
  reflexivity.
Qed.

Lemma ko_waitpid_retry (fuel : nat) (pid : Z) : respects R (waitpid_retry P o fuel pid).
Proof.
  apply (respects_waitpid_retry P o R (kills_only targets) (emits_only_refl _)
           (emits_only_trans _) (emits_only_rely _) (emits_only_event _)
           (fun v w0 => emits_only_same_trace _ w0 _ eq_refl)); reflexivity.
Qed.

Lemma ko_forward_termination (cw : Z) (rt nt : bool) :
  In cw targets -> respects R (forward_termination P o cw rt nt).
Proof.
  intros Hin. unfold forward_termination. destruct (negb rt); [|apply ko_ret].
  apply ko_bind; [apply ko_atomic; reflexivity | intros termSig].
  destruct (negb (termSig =? -1)); [|apply ko_ret].
  apply ko_bind; [apply ko_Log | intros _].
  apply ko_bind; [apply ko_kill, Hin | intros _].
  destruct (HAVE_SYSTEMD P && negb nt); [|apply ko_ret].
  apply ko_bind; [apply ko_sd_notify | intros _; apply ko_ret].
Qed.

Lemma ko_forward_reopen_logs (cw : Z) :
  In cw targets -> respects R (forward_reopen_logs P o cw).
Proof.
  intros Hin. unfold forward_reopen_logs.
  apply ko_bind; [apply ko_atomic; reflexivity | intros b].
  destruct b; [|apply ko_ret].
  apply ko_bind; [apply ko_Log | intros _; apply ko_kill, Hin].
Qed.

Lemma ko_check_worker_exit (cw : Z) (nt : bool) :
  respects R (check_worker_exit P o cw nt).
Proof.
  unfold check_worker_exit.
  apply ko_bind; [apply ko_waitpid | intros r].
  destruct (0 <? w_ret r); [|apply ko_ret].
  apply ko_bind; [apply ko_Log | intros _].
  apply ko_bind; [|intros _; apply ko_ret].
  destruct (HAVE_SYSTEMD P && negb nt); [apply ko_sd_notify | apply ko_ret].
Qed.

Lemma ko_reload_swap (fuel : nat) (cw nw : Z) :
  In cw targets -> (nw <> -1 -> In nw targets) ->
  respects R (reload_swap P o fuel cw nw).
Proof.
  intros Hcw Hnw. unfold reload_swap.
  apply ko_bind.
  2:{ intros cw'. apply ko_bind; [apply ko_ifdef, ko_sd_notify | intros _; apply ko_ret]. }
  destruct (nw =? -1) eqn:E.
  { apply ko_bind; [apply ko_Log | intros _; apply ko_ret]. }
  apply Z.eqb_neq in E.
  apply ko_bind; [apply ko_Log | intros _].
  apply ko_bind; [apply ko_kill, Hcw | intros _].
  apply ko_bind; [apply ko_GetTime | intros start].
  apply ko_bind; [apply ko_waitpid_retry | intros _].
  apply ko_bind; [apply ko_GetTime | intros finish].
  apply ko_bind; [apply ko_Log | intros _].
  apply ko_bind; [apply ko_kill, Hnw, E | intros _; apply ko_ret].
Qed.

End KillTargets.

Section KillsGoToChildren.

Variable P : platform.
Variable o : oracle.

Lemma no_kill_kills_only (e : event) :
  negb (is_kill e) = true -> kills_only [] e = true.
Proof. destruct e; simpl; intros H; try reflexivity; discriminate H. Qed.

Lemma spawn_event_kills_only (e : event) :
  is_spawn_event e = true -> kills_only [] e = true.
Proof. intros H. apply no_kill_kills_only, is_spawn_event_not_kill, H. Qed.

Lemma kc_quiet_extension (tr d : list event) :
  kills_children tr ->
  Forall (fun e => kills_only [] e = true) d ->
  kills_children (tr ++ d).
Proof. intros Hk Hd. apply (kills_children_app []); auto. Qed.

Lemma StartUnixWorker_child (fuel : nat) (result : Z) (w w' : world) :
  StartUnixWorker P o fuel w = Ok result w' ->
  result <> -1 -> child_of (trace w') result.
Proof.
  intros H Hr. apply StartUnixWorker_Ok_shape in H.
  destruct H as (pid & d & Hp1 & Hp0 & Htr & [(-> & _) | (-> & _)]); [|contradiction].
  repeat split; auto. rewrite Htr. apply in_or_app. right. simpl. auto.
Qed.

Lemma reload_stops_in_spawn (fuel : nat) (cw : Z) (w w1 : world) (r : stop_reason) :
  (reload_prelude P o ;; StartUnixWorker P o fuel) w = Stop r w1 ->
  reload P o fuel cw w = Stop r w1.
Proof.
  unfold reload, bind. destruct (reload_prelude P o w) as [[] wp|]; [|auto].
  destruct (StartUnixWorker P o fuel wp); [intros H; discriminate H | auto].
Qed.

Lemma kc_reload (fuel : nat) (cw : Z) :
  kc_ok cw (fun cw' tr => child_of tr cw') (reload P o fuel cw).
Proof.
  intros w Hk Hc.
  destruct (reload_spawn_phase_no_kill P o fuel w) as (d0 & Hd0 & F0).
  assert (kills_children (trace (world_of ((reload_prelude P o ;; StartUnixWorker P o fuel) w))))
    as Hk1.
  { rewrite Hd0. apply kc_quiet_extension; [exact Hk|].
    eapply Forall_impl; [|exact F0]. apply no_kill_kills_only. }
  destruct ((reload_prelude P o ;; StartUnixWorker P o fuel) w) as [nw w1|r w1] eqn:E.
  2:{ rewrite (reload_stops_in_spawn _ _ _ _ _ E). exact Hk1. }
  simpl in Hk1, Hd0.
  assert (child_of (trace w1) cw) as Hc1 by (rewrite Hd0; apply child_of_app, Hc).
  assert (nw <> -1 -> child_of (trace w1) nw) as Hnw.
  { apply bind_Ok in E. destruct E as (_ & wp & _ & E).
    eapply StartUnixWorker_child. exact E. }
  rewrite (reload_after_spawn P o fuel cw _ _ _ E).
  destruct (Z.eq_dec nw (-1)) as [-> | Hne].
  - pose proof (ko_reload_swap P o [cw] fuel cw (-1) (or_introl eq_refl)
                  (fun H => False_ind _ (H eq_refl)) w1) as (d & Hd & Fd).
    destruct (reload_swap_failed P o fuel cw w1) as (Hres & _).
    assert (kills_children (trace (world_of (reload_swap P o fuel cw (-1) w1)))) as Hk2.
    { rewrite Hd. apply (kills_children_app [cw]); auto. }
    destruct (reload_swap P o fuel cw (-1) w1) as [cw' w'|r w']; simpl in *; [|exact Hk2].
    subst cw'. split; [exact Hk2|]. rewrite Hd. apply child_of_app, Hc1.
  - pose proof (ko_reload_swap P o [cw; nw] fuel cw nw (or_introl eq_refl)
                  (fun _ => or_intror (or_introl eq_refl)) w1) as (d & Hd & Fd).
    assert (kills_children (trace (world_of (reload_swap P o fuel cw nw w1)))) as Hk2.
    { rewrite Hd. apply (kills_children_app [cw; nw]); auto. }
    destruct (reload_swap P o fuel cw nw w1) as [cw' w'|r w'] eqn:Es; simpl in *;
      [|exact Hk2].
    apply reload_swap_Ok in Es; [|apply Z.eqb_neq, Hne]. destruct Es as [-> _].
    split; [exact Hk2|]. rewrite Hd. apply child_of_app, Hnw, Hne.
Qed.

Lemma kc_umbrella_iteration (fuel : nat) (cw : Z) (rt nt : bool) :
  kc_ok cw
    (fun step tr => match step with
                    | Continue cw' _ _ => child_of tr cw'
                    | Return _ => True
                    end)
    (umbrella_iteration P o fuel cw rt nt).
Proof.
  unfold umbrella_iteration.
  apply (kc_bind cw (fun _ => cw));
    [apply kc_of_emits, ko_NotifyWatchdog | intros _].
  apply (kc_bind cw (fun _ => cw));
    [apply kc_of_emits, ko_forward_termination; left; reflexivity | intros flags].
  apply (kc_bind cw (fun _ => cw));
    [apply kc_of_emits, ko_atomic; reflexivity | intros requested].
  apply (kc_bind cw (fun cw' => cw')).
  { destruct requested; [apply kc_reload | apply kc_ret; auto]. }
  intros cw'.
  apply (kc_bind cw' (fun _ => cw'));
    [apply kc_of_emits, ko_forward_reopen_logs; left; reflexivity | intros _].
  apply (kc_bind cw' (fun _ => cw'));
    [apply kc_of_emits, ko_check_worker_exit | intros ex].
  destruct ex; [apply kc_ret; auto|].
  apply (kc_bind cw' (fun _ => cw')); [apply kc_of_emits, ko_Sleep | intros _].
  apply kc_ret; auto.
Qed.

Lemma kc_main_loop (fuel : nat) (cw : Z) (rt nt : bool) :
  kc_ok cw (fun _ _ => True) (main_loop P o fuel cw rt nt).
Proof.
  revert cw rt nt. induction fuel as [|fuel IH]; intros cw rt nt.
  { intros w Hk _. exact Hk. }
  simpl. intros w Hk Hc. unfold bind.
  pose proof (kc_umbrella_iteration fuel cw rt nt w Hk Hc) as H.
  destruct (umbrella_iteration P o fuel cw rt nt w) as [[cw' rt' nt'|code] w1|r w1];
    [|simpl; tauto | exact H].
  destruct H as [Hk1 Hc1]. apply (IH cw' rt' nt' w1 Hk1 Hc1).
Qed.

Lemma Run_stops_in_spawn (fuel : nat) (w w1 : world) (r : stop_reason) :
  startup_spawn P o fuel w = Stop r w1 -> Run P o fuel w = Stop r w1.
Proof.
  unfold startup_spawn, Run, bind. cbv beta.
  destruct (install_umbrella_handlers P o (set_UmbrellaPid (o_getpid o) w)) as [[] wb|];
    [|auto].
  destruct (StartUnixWorker P o fuel wb); [intros H; discriminate H | auto].
Qed.

Lemma Run_kills_children (fuel : nat) (w : world) :
  kills_children (trace w) -> kills_children (trace (world_of (Run P o fuel w))).
Proof.
  intros Hk.
  destruct (startup_spawn_emits P o fuel w) as (d0 & Hd0 & F0).
  assert (kills_children (trace (world_of (startup_spawn P o fuel w)))) as Hk1.
  { rewrite Hd0. apply kc_quiet_extension; [exact Hk|].
    eapply Forall_impl; [|exact F0]. apply spawn_event_kills_only. }
  destruct (startup_spawn P o fuel w) as [cw w1|r w1] eqn:E.
  2:{ rewrite (Run_stops_in_spawn _ _ _ _ E). exact Hk1. }
  simpl in Hk1. rewrite (Run_after_spawn P o fuel _ _ _ E).
  destruct (cw =? -1) eqn:Hcw; [exact Hk1|]. apply Z.eqb_neq in Hcw.
  assert (child_of (trace w1) cw) as Hc1.
  { unfold startup_spawn in E.
    apply bind_Ok in E. destruct E as (_ & wa & _ & E).
    apply bind_Ok in E. destruct E as (_ & wb & _ & E).
    eapply StartUnixWorker_child; eassumption. }
  assert (kc_ok cw (fun _ _ => True)
            (kill P o cw (SIGUSR2 P) ;;
             ifdef_HAVE_SYSTEMD P (sd_notify P o SD_READY) ;;
             main_loop P o fuel cw false false)) as Hrest.
  { apply (kc_bind cw (fun _ => cw));
      [apply kc_of_emits, ko_kill; left; reflexivity | intros _].
    apply (kc_bind cw (fun _ => cw));
      [apply kc_of_emits, ko_ifdef, ko_sd_notify | intros _].
    apply kc_main_loop. }
  specialize (Hrest w1 Hk1 Hc1).
  destruct ((kill P o cw (SIGUSR2 P) ;;
             ifdef_HAVE_SYSTEMD P (sd_notify P o SD_READY) ;;
             main_loop P o fuel cw false false) w1); simpl; tauto.
Qed.

End KillsGoToChildren.

(** X5.  In every run of [Run], every [kill] the umbrella issues goes to a
    process it has forked itself before: the pid is one a [fork] recorded
    earlier in the trace returned, and it is neither [-1] nor [0] - the
    umbrella never signals a process group or every process, and never a
    process that is not its own worker. *)
Theorem X5_umbrella_signals_its_children_only
    (P : platform) (o : oracle) (fuel : nat) (w : world) :
  kills_children (trace w) ->
  forall d1 p s d2,
    trace (world_of (Run P o fuel w)) = d1 ++ EvKill p s :: d2 ->
    p <> -1 /\ p <> 0 /\ In (EvFork p) d1.
Proof.
  intros Hk d1 p s d2 Heq.
  exact (Run_kills_children P o fuel w Hk d1 p s d2 Heq).
Qed.

Lemma X5_witness :
  kills_children (trace initial_world) /\
  200 <> -1 /\ 200 <> 0 /\
  In (EvFork 200)
     [EvLog LogSpawning; EvFork 200; EvLog (LogSpawned 200); EvLog LogLoadedConfig].
Proof.
  assert (Hk : kills_children (trace initial_world)).
  { intros [|e d1] p s d2 H; discriminate H. }
  split; [exact Hk |].
  apply (X5_umbrella_signals_its_children_only (linux true) startup_succeeds 3
           initial_world Hk _ 200 12
           [EvSdNotify SD_READY;
            EvWaitpid 200 WNOHANG (mkWait 0 0 0);
            EvWaitpid 200 WNOHANG (mkWait 0 0 0);
            EvWaitpid 200 WNOHANG (mkWait 0 0 0)]).
  vm_compute. reflexivity.
Defined.

(** ** Supervisor notifications *)

Section Notifications.

Variable P : platform.
Variable o : oracle.

Lemma quiet_Ok_count {A : Type} (m : M A) (w w' : world) (a : A) :
  emits_only is_quiet w (world_of (m w)) ->
  m w = Ok a w' ->
  exists d, trace w' = trace w ++ d /\ count_events is_stopping d = 0%nat.
Proof.
  intros (d & Hd & Fd) H. rewrite H in Hd. exists d. split; [exact Hd|].
  apply count_events_none. eapply Forall_impl; [|exact Fd].
  intros e He. apply andb_true_iff in He. destruct He as [_ He].
  apply negb_true_iff, He.
Qed.

Lemma forward_termination_Ok_count (cw : Z) (rt nt rt' nt' : bool) (w w' : world) :
  forward_termination P o cw rt nt w = Ok (rt', nt') w' ->
  exists d, trace w' = trace w ++ d /\
    (count_events is_stopping d + stopping_due P nt' = stopping_due P nt)%nat.
Proof.
  unfold forward_termination, stopping_due.
  destruct rt.
  { intros H. injection H as _ <- <-. exists []. split; [symmetry; apply app_nil_r | reflexivity]. }
  change (negb false) with true. cbv iota.
  unfold load, atomic, Log, kill, sd_notify, bind, emit, ret. intros H.
  sync_step; [|discriminate H].
  destruct (negb (l_TermSignal w0 =? -1)).
  2:{ injection H as _ <- <-. exists []. split; [rely_traces; symmetry; apply app_nil_r|].
      reflexivity. }
  sync_step; [|discriminate H].
  sync_step; [|discriminate H].
  destruct (HAVE_SYSTEMD P && negb nt) eqn:Hc.
  - apply andb_true_iff in Hc. destruct Hc as [Hs Hnt].
    apply negb_true_iff in Hnt. subst nt. rewrite Hs.
    sync_step; [|discriminate H]. injection H as _ <- <-.
    eexists. split; [rely_traces; reflexivity | reflexivity].
  - injection H as _ <- <-. eexists. split; [rely_traces; reflexivity|].
    destruct (HAVE_SYSTEMD P), nt; try discriminate Hc; reflexivity.
Qed.

Lemma check_worker_exit_Ok_count (cw : Z) (nt : bool) (w w' : world) (ex : option Z) :
  check_worker_exit P o cw nt w = Ok ex w' ->
  exists d, trace w' = trace w ++ d /\
    count_events is_stopping d =
    match ex with Some _ => stopping_due P nt | None => 0%nat end.
Proof.
  unfold check_worker_exit, stopping_due, waitpid, Log, sd_notify, bind, emit, ret.
  intros H.
  sync_step; [|discriminate H].
  destruct (0 <? w_ret (o_waitpid o (tick w))).
  2:{ injection H as <- <-. eexists. split; [rely_traces; reflexivity | reflexivity]. }
  sync_step; [|discriminate H].
  destruct (HAVE_SYSTEMD P && negb nt) eqn:Hc.
  - apply andb_true_iff in Hc. destruct Hc as [Hs Hnt].
    apply negb_true_iff in Hnt. subst nt. rewrite Hs.
    sync_step; [|discriminate H]. injection H as <- <-.
    eexists. split; [rely_traces; reflexivity | reflexivity].
  - injection H as <- <-. eexists. split; [rely_traces; reflexivity|].
    destruct (HAVE_SYSTEMD P), nt; try discriminate Hc; reflexivity.
Qed.

Lemma umbrella_iteration_Ok_count (fuel : nat) (cw : Z) (rt nt : bool)
    (w w' : world) (step : loop_step) :
  umbrella_iteration P o fuel cw rt nt w = Ok step w' ->
  exists d, trace w' = trace w ++ d /\
    (count_events is_stopping d +
     match step with Continue _ _ nt' => stopping_due P nt' | Return _ => 0%nat end
     = stopping_due P nt)%nat.
Proof.
  unfold umbrella_iteration. intros H.
  apply bind_Ok in H. destruct H as ([] & w1 & H1 & H).
  apply bind_Ok in H. destruct H as ([rt1 nt1] & w2 & H2 & H).
  apply bind_Ok in H. destruct H as (requested & w3 & H3 & H).
  apply bind_Ok in H. destruct H as (cw' & w4 & H4 & H).
  apply bind_Ok in H. destruct H as ([] & w5 & H5 & H).
  apply bind_Ok in H. destruct H as (ex & w6 & H6 & H).
  apply (quiet_Ok_count _ _ _ _ (NotifyWatchdog_emits P o is_quiet w eq_refl)) in H1.
  apply forward_termination_Ok_count in H2.
  apply atomic_Ok in H3; [|reflexivity].
  assert (exists d, trace w4 = trace w3 ++ d /\ count_events is_stopping d = 0%nat) as H4'.
  { destruct requested.
    - eapply quiet_Ok_count; [apply reload_quiet | exact H4].
    - injection H4 as _ <-. exists []. split; [symmetry; apply app_nil_r | reflexivity]. }
  apply (quiet_Ok_count _ _ _ _ (forward_reopen_logs_quiet P o cw' w4)) in H5.
  apply check_worker_exit_Ok_count in H6. simpl snd in H6.
  destruct H1 as (d1 & T1 & C1), H2 as (d2 & T2 & C2), H4' as (d4 & T4 & C4),
    H5 as (d5 & T5 & C5), H6 as (d6 & T6 & C6).
  assert (trace w6 = trace w ++ d1 ++ d2 ++ d4 ++ d5 ++ d6) as T.
  { rewrite T6, T5, T4, H3, T2, T1. list_eq. }
  destruct ex as [code|].
  - injection H as <- <-. eexists. split; [exact T|].
    rewrite !count_events_app. simpl in *. lia.
  - apply bind_Ok in H. destruct H as ([] & w7 & H7 & H). apply Sleep_Ok in H7.
    injection H as <- <-. eexists. split; [rewrite H7; exact T|].
    rewrite !count_events_app. simpl in *. lia.
Qed.

Lemma main_loop_Ok_count (fuel : nat) (cw : Z) (rt nt : bool) (w w' : world) (code : Z) :
  main_loop P o fuel cw rt nt w = Ok code w' ->
  exists d, trace w' = trace w ++ d /\ count_events is_stopping d = stopping_due P nt.
Proof.
  revert cw rt nt w. induction fuel as [|fuel IH]; intros cw rt nt w H; [discriminate H|].
  simpl in H. apply bind_Ok in H. destruct H as (step & w1 & Hstep & H).
  apply umbrella_iteration_Ok_count in Hstep. destruct Hstep as (d1 & T1 & C1).
  destruct step as [cw1 rt1 nt1 | c].
  - apply IH in H. destruct H as (d2 & T2 & C2).
    exists (d1 ++ d2). split; [rewrite T2, T1; symmetry; apply app_assoc|].
    rewrite count_events_app. lia.
  - injection H as _ <-. exists d1. split; [exact T1 | lia].
Qed.

Lemma reload_prelude_Ok (w w' : world) (u : unit) :
  reload_prelude P o w = Ok u w' ->
  trace w' = trace w ++ EvLog LogGotReload :: reloading_events P.
Proof.
  unfold reload_prelude, reloading_events, ifdef_HAVE_SYSTEMD. intros H.
  apply bind_Ok in H. destruct H as ([] & w1 & H1 & H). apply Log_Ok in H1.
  destruct (HAVE_SYSTEMD P).
  - apply sd_notify_Ok in H. rewrite H, H1. list_eq.
  - injection H as _ <-. exact H1.
Qed.

Lemma watchdog_no_status_change (e : event) :
  is_watchdog e = true -> is_no_status_change e = true.
Proof. destruct e as [| | | |m]; try reflexivity. destruct m; auto. Qed.

Lemma retry_no_status_change (pid : Z) (e : event) :
  is_retry_event P pid e = true -> is_no_status_change e = true.
Proof. destruct e as [| | | |m]; try reflexivity. destruct m; auto. Qed.

Lemma reload_Ok_shape (fuel : nat) (cw cw' : Z) (w w' : world) :
  reload P o fuel cw w = Ok cw' w' ->
  exists mid,
    trace w' = trace w ++ EvLog LogGotReload :: reloading_events P ++ mid ++ ready_events P /\
    Forall (fun e => is_no_status_change e = true) mid.
Proof.
  intros H. unfold reload in H.
  apply bind_Ok in H. destruct H as ([] & w1 & H1 & H). apply reload_prelude_Ok in H1.
  apply bind_Ok in H. destruct H as (nw & w2 & H2 & H).
  apply StartUnixWorker_Ok_shape in H2.
  destruct H2 as (pid & d & _ & _ & T2 & Hv).
  assert (Forall (fun e => is_no_status_change e = true) d) as Fd.
  { destruct Hv as [(_ & wd & Fwd & ->) | (_ & wd & waits & r & Fwd & Fw & _ & ->)];
      repeat (apply Forall_app; split); repeat constructor;
      try (eapply Forall_impl; [|exact Fwd]; apply watchdog_no_status_change);
      try (eapply Forall_impl; [|exact Fw]; apply retry_no_status_change). }
  destruct (nw =? -1) eqn:Hnw.
  - unfold reload_swap in H. rewrite Hnw in H.
    apply bind_Ok in H. destruct H as (c & w3 & H3 & H).
    apply bind_Ok in H3. destruct H3 as ([] & w4 & H4 & H3). apply Log_Ok in H4.
    injection H3 as _ <-.
    apply bind_Ok in H. destruct H as ([] & w5 & H5 & H). injection H as _ <-.
    assert (trace w5 = trace w4 ++ ready_events P) as T5.
    { unfold ifdef_HAVE_SYSTEMD, ready_events in *. destruct (HAVE_SYSTEMD P).
      - apply sd_notify_Ok in H5. exact H5.
      - injection H5 as <-. symmetry. apply app_nil_r. }
    exists ([EvLog LogSpawning; EvFork pid; EvLog (LogSpawned pid)] ++ d
            ++ [EvLog LogReloadAborted]).
    split; [rewrite T5, H4, T2, H1; list_eq|].
    repeat (apply Forall_app; split); repeat constructor; exact Fd.
  - apply reload_swap_Ok in H; [|exact Hnw].
    destruct H as (_ & waits & r & t & Fw & _ & T).
    exists ([EvLog LogSpawning; EvFork pid; EvLog (LogSpawned pid)] ++ d
            ++ [EvLog (LogReloadDone nw); EvKill cw (SIGTERM P)] ++ waits
            ++ [EvWaitpid cw WaitBlocking r; EvLog (LogWaited t); EvKill nw (SIGUSR2 P)]).
    split; [rewrite T, T2, H1; list_eq|].
    repeat (apply Forall_app; split); repeat constructor; try exact Fd.
    eapply Forall_impl; [|exact Fw]. apply retry_no_status_change.
Qed.

End Notifications.

(** X7.  When the main loop returns, the "stopping" notification has been
    sent exactly once since [notifiedTermination] was last unset: a loop
    entered with the flag unset has sent it exactly once by the time it
    returns - by the forwarding path or by the worker-exit path, whichever
    came first - and a loop entered with the flag set has not sent it again.
    A build without [HAVE_SYSTEMD] never sends it. *)
Theorem X7_stopping_notified_exactly_once
    (P : platform) (o : oracle) (fuel : nat) (currentWorker : Z)
    (requestedTermination notifiedTermination : bool) (w w' : world) (code : Z) :
  main_loop P o fuel currentWorker requestedTermination notifiedTermination w
    = Ok code w' ->
  exists d, trace w' = trace w ++ d /\
    count_events is_stopping d =
    (if HAVE_SYSTEMD P then (if notifiedTermination then 0 else 1) else 0)%nat.
Proof. apply main_loop_Ok_count. Qed.

Lemma X7_witness :
  exists d,
    trace (world_of (main_loop (linux true) worker_killed 1 101 false false
                       (handlers_installed (linux true) initial_world)))
    = trace (handlers_installed (linux true) initial_world) ++ d /\
    count_events is_stopping d = 1%nat.
Proof.
  apply (X7_stopping_notified_exactly_once (linux true) worker_killed 1 101 false false
           (handlers_installed (linux true) initial_world) _ 137).
  vm_compute. reflexivity.
Defined.

(** X8.  A reload that runs to its end, whether the new worker loaded its
    configuration or not, starts with the "reload" log line and the
    "reloading" notification and ends with the "ready" notification; in
    between the supervisor is told nothing but watchdog keepalives.  So
    each "reloading" is followed by a "ready", also when the reload was
    abandoned. *)
Theorem X8_reloading_is_followed_by_ready
    (P : platform) (o : oracle) (fuel : nat) (currentWorker currentWorker' : Z)
    (w w' : world) :
  reload P o fuel currentWorker w = Ok currentWorker' w' ->
  exists mid,
    trace w' = trace w ++ EvLog LogGotReload :: reloading_events P ++ mid ++ ready_events P /\
    Forall (fun e => is_no_status_change e = true) mid.
Proof. apply reload_Ok_shape. Qed.

Lemma X8_witness :
  exists mid,
    trace (world_of (reload (linux true) reload_fails 3 100
                       (handlers_installed (linux true) initial_world)))
    = trace (handlers_installed (linux true) initial_world)
      ++ EvLog LogGotReload :: reloading_events (linux true) ++ mid
      ++ ready_events (linux true) /\
    Forall (fun e => is_no_status_change e = true) mid.
Proof.
  apply (X8_reloading_is_followed_by_ready (linux true) reload_fails 3 100 100
           (handlers_installed (linux true) initial_world)).
  vm_compute. reflexivity.
Defined.

(** ** The handshake of a spawn *)

Lemma set_sigmask_blocked (w : world) (p : list siginfo) :
  set_sigmask true p (set_tick (S (tick w)) w) =
  set_tick (S (tick w)) (set_sigmask true p w).
Proof. reflexivity. Qed.

Section Handshake.

Variable P : platform.
Variable o : oracle.
Variable k : nat.
Variable pid : Z.
Variable s : usig.

Hypothesis s_verdict : s = USR2 \/ s = CHLD.
Hypothesis signal_at_k : o_signals o k = [mkSiginfo s pid].
Hypothesis quiet_elsewhere : forall n, n <> k -> o_signals o n = [].
Hypothesis no_throw : forall n, o_throws o n = false.
Hypothesis waits_settle : forall n, interrupted P (o_waitpid o n) = false.

Lemma sync_unblocked_quiet (w : world) :
  sigblocked w = false -> tick w <> k ->
  sync P o w = Ok (tick w) (set_tick (S (tick w)) w).
Proof.
  intros Hb Hk. unfold sync. simpl sigblocked. rewrite Hb, (quiet_elsewhere _ Hk).
  reflexivity.
Qed.

Lemma sync_blocked (w : world) :
  sigblocked w = true ->
  sync P o w =
  Ok (tick w) (set_sigmask true (sigpending w ++ o_signals o (tick w))
                 (set_tick (S (tick w)) w)).
Proof. intros Hb. unfold sync. simpl sigblocked. rewrite Hb. reflexivity. Qed.

Lemma deliver_verdict (w : world) :
  sigdisp w (signo P s) = SA_UmbrellaSignalHandler ->
  l_CurrentlyStartingUnixWorkerState w = Pending ->
  l_CurrentlyStartingUnixWorkerPid w = pid ->
  deliver P (mkSiginfo s pid) w = Ok tt (set_StartingState (verdict_of s) w).
Proof.
  intros Hd Hst Hp. unfold deliver. simpl. rewrite Hd.
  unfold UmbrellaSignalHandler. switch_on_signal.
  rewrite Hst, Hp, Z.eqb_refl.
  destruct s_verdict as [-> | ->]; reflexivity.
Qed.

Lemma handshake_sync (w : world) :
  handshake_inv P k pid s w ->
  exists w', sync P o w = Ok (tick w) w' /\ handshake_inv P k pid s w' /\
             tick w' = S (tick w) /\ trace w' = trace w.
Proof.
  intros (Hb & Hd & Hp & Hst).
  destruct (Nat.eq_dec (tick w) k) as [Hk | Hk].
  - destruct Hst as [[_ Hst] | [Hlt _]]; [|lia].
    exists (set_StartingState (verdict_of s) (set_tick (S (tick w)) w)).
    split.
    + unfold sync. simpl sigblocked. rewrite Hb, Hk, signal_at_k. simpl.
      unfold bind. rewrite deliver_verdict by assumption. reflexivity.
    + repeat split; simpl; auto. right. split; [lia | reflexivity].
  - exists (set_tick (S (tick w)) w).
    split; [apply sync_unblocked_quiet; assumption|].
    repeat split; simpl; auto.
    destruct Hst as [[Hle Hst] | [Hlt Hst]]; [left | right]; split; auto; lia.
Qed.

(** An operation that, past its delivery point, changes nothing the
    invariant speaks of. *)
Lemma handshake_after_sync {A : Type} (g : nat -> world -> A * world)
    (Q : A -> world -> Prop) :
  (forall n w, handshake_inv P k pid s w ->
     handshake_inv P k pid s (snd (g n w)) /\ tick (snd (g n w)) = tick w /\
     Q (fst (g n w)) (snd (g n w))) ->
  handshake_total P k pid s 1
    (n <- sync P o ;; fun w => let (a, w') := g n w in Ok a w') Q.
Proof.
  intros Hg w Hw. destruct (handshake_sync w Hw) as (w1 & E & H1 & Ht & _).
  destruct (Hg (tick w) w1 H1) as (H2 & Ht2 & HQ).
  unfold bind. rewrite E. destruct (g (tick w) w1) as [a w2]. simpl in *.
  exists a, w2. split; [reflexivity | split; [exact H2 | split; [lia | exact HQ]]].
Qed.

Lemma handshake_bind {A B : Type} (n1 n2 : nat) (m : M A) (f : A -> M B)
    (Q1 : A -> world -> Prop) (Q2 : B -> world -> Prop) :
  handshake_total P k pid s n1 m Q1 ->
  (forall a w, Q1 a w -> handshake_inv P k pid s w ->
     exists b w', f a w = Ok b w' /\ handshake_inv P k pid s w' /\
                  (tick w + n2 <= tick w')%nat /\ Q2 b w') ->
  handshake_total P k pid s (n1 + n2) (bind m f) Q2.
Proof.
  intros Hm Hf w Hw. destruct (Hm w Hw) as (a & w1 & E & H1 & Ht & HQ).
  destruct (Hf a w1 HQ H1) as (b & w2 & E2 & H2 & Ht2 & HQ2).
  unfold bind. rewrite E. exists b, w2.
  split; [exact E2 | split; [exact H2 | split; [lia | exact HQ2]]].
Qed.

Lemma handshake_Log (m : log_message) :
  handshake_total P k pid s 1 (Log P o m) (fun _ _ => True).
Proof.
  apply (handshake_after_sync (fun _ w => (tt, record_event (EvLog m) w))).
  intros n w Hw. simpl. auto.
Qed.

Lemma handshake_Sleep :
  handshake_total P k pid s 1 (Sleep P o) (fun _ _ => True).
Proof.
  apply (handshake_after_sync (fun _ w => (tt, w))). intros n w Hw. simpl. auto.
Qed.

Lemma handshake_load_state :
  handshake_total P k pid s 1 (load P o l_CurrentlyStartingUnixWorkerState)
    (fun st w => st = l_CurrentlyStartingUnixWorkerState w).
Proof.
  apply (handshake_after_sync (fun _ w => (l_CurrentlyStartingUnixWorkerState w, w))).
  intros n w Hw. simpl. auto.
Qed.

Lemma handshake_seq {A B : Type} (n1 n2 : nat) (m : M A) (f : A -> M B)
    (Q2 : B -> world -> Prop) :
  handshake_total P k pid s n1 m (fun _ _ => True) ->
  (forall a, handshake_total P k pid s n2 (f a) Q2) ->
  handshake_total P k pid s (n1 + n2) (bind m f) Q2.
Proof.
  intros Hm Hf. eapply handshake_bind; [exact Hm|].
  intros a w _ Hw. apply Hf, Hw.
Qed.

Lemma handshake_ret {A : Type} (a : A) :
  handshake_total P k pid s 0 (ret a) (fun _ _ => True).
Proof.
  intros w Hw. exists a, w.
  split; [reflexivity | split; [exact Hw | split; [lia | exact I]]].
Qed.

Lemma handshake_weaken {A : Type} (n n' : nat) (m : M A) (Q : A -> world -> Prop) :
  (n' <= n)%nat -> handshake_total P k pid s n m Q -> handshake_total P k pid s n' m Q.
Proof.
  intros Hn Hm w Hw. destruct (Hm w Hw) as (a & w' & E & H1 & Ht & HQ).
  exists a, w'. split; [exact E | split; [exact H1 | split; [lia | exact HQ]]].
Qed.

Lemma handshake_GetTime :
  handshake_total P k pid s 1 (GetTime P o) (fun _ _ => True).
Proof.
  apply (handshake_after_sync (fun n w => (o_time o n, w))). intros n w Hw. simpl. auto.
Qed.

Lemma handshake_sd_notify (m : sd_message) :
  handshake_total P k pid s 1 (sd_notify P o m) (fun _ _ => True).
Proof.
  apply (handshake_after_sync (fun _ w => (tt, record_event (EvSdNotify m) w))).
  intros n w Hw. simpl. auto.
Qed.

Lemma handshake_NotifyWatchdog :
  handshake_total P k pid s 0 (ifdef_HAVE_SYSTEMD P (NotifyWatchdog P o))
    (fun _ _ => True).
Proof.
  unfold ifdef_HAVE_SYSTEMD. destruct (HAVE_SYSTEMD P); [|apply handshake_ret].
  unfold NotifyWatchdog.
  apply (handshake_weaken 2); [lia|].
  apply (handshake_seq 1 1); [apply handshake_GetTime | intros now].
  change 1%nat with (1 + 0)%nat.
  apply (handshake_seq 1 0).
  { apply (handshake_after_sync (fun _ w => (l_LastNotifiedWatchdog w, w))).
    intros n w Hw. simpl. auto. }
  intros last. destruct (NotifyWatchdog_at now last) as [[] last'];
    [|apply handshake_ret].
  apply (handshake_weaken 2); [lia|].
  apply (handshake_seq 1 1); [apply handshake_sd_notify | intros _].
  apply (handshake_after_sync (fun _ w => (tt, set_LastNotifiedWatchdog last' w))).
  intros n w Hw. simpl. auto.
Qed.

Lemma waitpid_retry_settles (fuel : nat) (w : world) :
  (1 <= fuel)%nat -> sigblocked w = false -> (k < tick w)%nat ->
  exists w', waitpid_retry P o fuel pid w = Ok tt w' /\
             sigblocked w' = false /\ (k < tick w')%nat.
Proof.
  intros Hf Hb Hk. destruct fuel as [|fuel]; [lia|].
  simpl. unfold waitpid, bind, emit, ret.
  rewrite sync_unblocked_quiet by (auto; lia).
  rewrite waits_settle. eexists. split; [reflexivity|]. simpl. split; [exact Hb | lia].
Qed.

Lemma await_worker_total (fuel : nat) (w : world) :
  handshake_inv P k pid s w ->
  (2 <= fuel)%nat -> (k + 2 <= tick w + fuel)%nat ->
  exists w', await_worker P o fuel pid w = Ok (spawn_result_of s pid) w' /\
             sigblocked w' = false /\ (k < tick w')%nat.
Proof.
  revert w. induction fuel as [|fuel IH]; intros w Hw Hf Hk; [lia|].
  simpl. unfold bind at 1.
  destruct (handshake_NotifyWatchdog w Hw) as ([] & w1 & E1 & H1 & T1 & _). rewrite E1.
  unfold bind at 1.
  destruct (handshake_load_state w1 H1) as (st & w2 & E2 & H2 & T2 & Hst). rewrite E2.
  destruct H2 as (Hb2 & Hd2 & Hp2 & [[Hle Hs2] | [Hlt Hs2]]).
  - rewrite Hst, Hs2. cbv iota. unfold bind at 1.
    assert (handshake_inv P k pid s w2) as H2 by (repeat split; auto).
    destruct (handshake_Sleep w2 H2) as ([] & w3 & E3 & H3 & T3 & _). rewrite E3.
    apply IH; [exact H3 | lia | lia].
  - rewrite Hst, Hs2.
    assert (handshake_inv P k pid s w2) as H2 by (repeat split; auto).
    destruct s_verdict as [Hs | Hs]; rewrite Hs; unfold verdict_of, spawn_result_of; cbv iota.
    + unfold bind at 1.
      destruct (handshake_Log LogLoadedConfig w2 H2) as ([] & w3 & E3 & H3 & T3 & _).
      rewrite E3. exists w3. split; [reflexivity|].
      destruct H3 as (Hb3 & _). split; [exact Hb3 | lia].
    + unfold bind at 1.
      destruct (handshake_Log LogCouldntLoad w2 H2) as ([] & w3 & E3 & H3 & T3 & _).
      rewrite E3. destruct H3 as (Hb3 & _).
      destruct (waitpid_retry_settles fuel w3) as (w4 & E4 & Hb4 & Hk4); [lia | auto | lia |].
      unfold bind. rewrite E4. exists w4. auto.
Qed.

Lemma deliver_pending (l : list siginfo) (w : world) :
  sigblocked w = false ->
  sigdisp w (signo P s) = SA_UmbrellaSignalHandler ->
  l_CurrentlyStartingUnixWorkerState w = Pending ->
  l_CurrentlyStartingUnixWorkerPid w = pid ->
  (l = [mkSiginfo s pid] /\ (k < tick w)%nat) \/ (l = [] /\ (tick w <= k)%nat) ->
  exists w', deliver_all P l w = Ok tt w' /\ handshake_inv P k pid s w' /\
             tick w' = tick w.
Proof.
  intros Hb Hd Hst Hp [[-> Hk] | [-> Hk]].
  - exists (set_StartingState (verdict_of s) w). split.
    + simpl. unfold bind. rewrite deliver_verdict by assumption. reflexivity.
    + split; [|reflexivity]. repeat split; simpl; auto.
  - exists w. split; [reflexivity|]. split; [|reflexivity]. repeat split; auto.
Qed.

Lemma Log_quiet (m : log_message) (w : world) :
  sigblocked w = false -> tick w <> k ->
  Log P o m w = Ok tt (record_event (EvLog m) (set_tick (S (tick w)) w)).
Proof.
  intros Hb Hk. unfold Log, bind, emit. rewrite sync_unblocked_quiet by assumption.
  reflexivity.
Qed.

Lemma StartUnixWorker_total (fuel : nat) (w : world) :
  o_fork o (3 + tick w) = pid -> pid <> -1 -> pid <> 0 ->
  sigblocked w = false -> sigpending w = [] ->
  sigdisp w (signo P s) = SA_UmbrellaSignalHandler ->
  l_CurrentlyStartingUnixWorkerState w = Pending ->
  (tick w + 4 <= k)%nat ->
  (2 <= fuel)%nat -> (k <= tick w + fuel + 5)%nat ->
  exists w', StartUnixWorker P o fuel w = Ok (spawn_result_of s pid) w' /\
             l_CurrentlyStartingUnixWorkerPid w' = -1 /\
             l_CurrentlyStartingUnixWorkerState w' = Pending /\
             sigblocked w' = false.
Proof.
  intros Hpid Hn1 Hn0 Hb Hq Hd Hst Hk Hf Hfk. simpl in Hpid.
  unfold StartUnixWorker, base_or_exit, sigprocmask_BLOCK, fork, store, atomic,
    sigprocmask_UNBLOCK, emit, ret, bind.
  rewrite Log_quiet by (auto; lia). cbv beta iota.
  rewrite sync_unblocked_quiet by (simpl; auto; lia). simpl. rewrite no_throw.
  rewrite sync_unblocked_quiet by (simpl; auto; lia). simpl.
  rewrite Hq, (quiet_elsewhere (S (S (S (tick w))))) by lia.
  rewrite Hpid, (proj2 (Z.eqb_neq _ _) Hn1), (proj2 (Z.eqb_neq _ _) Hn0).
  simpl.
  match goal with
  | |- context [deliver_all P ?l ?W] =>
      destruct (deliver_pending l W) as (w6 & E6 & H6 & T6);
      [ reflexivity | exact Hd | exact Hst | reflexivity | | rewrite E6 ]
  end.
  { simpl tick.
    destruct (Nat.eq_dec k (4 + tick w)) as [e4 | n4];
      [| destruct (Nat.eq_dec k (5 + tick w)) as [e5 | n5]].
    - left. split; [|lia].
      rewrite (quiet_elsewhere (S (S (S (S (S (tick w))))))) by lia.
      rewrite app_nil_r, <- signal_at_k. f_equal. lia.
    - left. split; [|lia].
      rewrite (quiet_elsewhere (S (S (S (S (tick w)))))) by lia.
      simpl. rewrite <- signal_at_k. f_equal. lia.
    - right. split; [|lia].
      rewrite !quiet_elsewhere by lia. reflexivity. }
  simpl tick in T6.
  destruct (handshake_Log (LogSpawned pid) w6 H6) as ([] & w7 & E7 & H7 & T7 & _).
  rewrite E7.
  destruct (await_worker_total fuel w7 H7) as (w8 & E8 & Hb8 & Hk8); [lia | lia |].
  rewrite E8.
  rewrite sync_unblocked_quiet by (auto; lia).
  rewrite sync_unblocked_quiet by (simpl; auto; lia).
  rewrite sync_unblocked_quiet by (simpl; auto; lia).
  rewrite no_throw. eexists. split; [reflexivity|]. simpl. auto.
Qed.

End Handshake.

(** X6.  The handshake of a spawn completes, and the signal mask is what
    makes it complete.  Let the child be [pid] and let its one signal,
    [SIGUSR2] or [SIGCHLD], arrive at any delivery point [k] after the [fork]
    - also at the point right after it, when the umbrella has not yet stored
    [pid] in [l_CurrentlyStartingUnixWorkerPid].  If nothing else arrives,
    [UninitializeBase]/[InitializeBase] do not throw and no [waitpid] is
    interrupted, then [StartUnixWorker] returns, given an iteration of its
    polling loop for each delivery point up to [k]: it returns [pid] for
    [SIGUSR2] and [-1] for [SIGCHLD], with the pid and state atomics reset
    and the mask lifted.  The verdict is never lost by arriving early. *)
Theorem X6_spawn_handshake_completes
    (P : platform) (o : oracle) (k fuel : nat) (pid : Z) (s : usig) (w : world) :
  s = USR2 \/ s = CHLD ->
  o_signals o k = [mkSiginfo s pid] ->
  (forall n, n <> k -> o_signals o n = []) ->
  (forall n, o_throws o n = false) ->
  (forall n, interrupted P (o_waitpid o n) = false) ->
  o_fork o (3 + tick w) = pid -> pid <> -1 -> pid <> 0 ->
  sigblocked w = false -> sigpending w = [] ->
  sigdisp w (signo P s) = SA_UmbrellaSignalHandler ->
  l_CurrentlyStartingUnixWorkerState w = Pending ->
  (tick w + 4 <= k)%nat ->
  (2 <= fuel)%nat -> (k <= tick w + fuel + 5)%nat ->
  exists w', StartUnixWorker P o fuel w = Ok (spawn_result_of s pid) w' /\
             l_CurrentlyStartingUnixWorkerPid w' = -1 /\
             l_CurrentlyStartingUnixWorkerState w' = Pending /\
             sigblocked w' = false.
Proof.
  intros Hs Hk Hq Ht Hw. apply (StartUnixWorker_total P o k pid s Hs Hk Hq Ht Hw).
Qed.

Lemma X6_witness :
  exists w',
    StartUnixWorker (linux true) worker_fails_at_once 2
      (handlers_installed (linux true) initial_world) = Ok (-1) w' /\
    l_CurrentlyStartingUnixWorkerPid w' = -1 /\
    l_CurrentlyStartingUnixWorkerState w' = Pending /\
    sigblocked w' = false.
Proof.
  apply (X6_spawn_handshake_completes (linux true) worker_fails_at_once 4 2 300 CHLD
           (handlers_installed (linux true) initial_world)).
  - right. reflexivity.
  - reflexivity.
  - intros n Hn. simpl. destruct (Nat.eqb_spec n 4) as [E | E]; [contradiction | reflexivity].
  - reflexivity.
  - reflexivity.
  - reflexivity.
  - discriminate.
  - discriminate.
  - reflexivity.
  - reflexivity.
  - reflexivity.
  - reflexivity.
  - simpl. lia.
  - lia.
  - simpl. lia.
Defined.

(** * The standard descriptors *)

Lemma lowest_unused_spec (t : fdtable) (n : nat) (fd : Z) :
  0 <= lowest_unused t fd n -> 0 <= fd -> t (lowest_unused t fd n) = None.
Proof.
  revert fd. induction n as [|n IH]; intros fd H Hfd; simpl in *; [lia|].
  destruct (t fd) eqn:E; [apply IH; [exact H | lia] | exact E].
Qed.

Lemma posix_open_unused (ENOENT : Z) (missing : string -> bool) :
  hands_out_unused (posix_open ENOENT missing).
Proof.
  intros t path flags. unfold posix_open.
  destruct flags; try destruct (missing path); cbn [open_ret]; intros H;
    try lia; apply lowest_unused_spec; try exact H; lia.
Qed.

Section StdIO.

Variable ENOENT : Z.
Variable k : open_oracle.
Hypothesis kernel : hands_out_unused k.

Lemma fd_set_same (fd : Z) (f : option open_file) (t : fdtable) :
  fd_set fd f t fd = f.
Proof. unfold fd_set. rewrite Z.eqb_refl. reflexivity. Qed.

Lemma fd_set_other (fd x : Z) (f : option open_file) (t : fdtable) :
  x <> fd -> fd_set fd f t x = t x.
Proof. intros H. unfold fd_set. apply Z.eqb_neq in H. rewrite H. reflexivity. Qed.

Lemma dup2_other (oldfd newfd x : Z) (t : fdtable) :
  x <> newfd -> dup2 oldfd newfd t x = t x.
Proof.
  intros H. unfold dup2. destruct (t oldfd); [apply fd_set_other; exact H | reflexivity].
Qed.

Lemma dup2_new (oldfd newfd : Z) (t : fdtable) (f : open_file) :
  t oldfd = Some f -> dup2 oldfd newfd t newfd = Some f.
Proof. intros H. unfold dup2. rewrite H. apply fd_set_same. Qed.

(** What [open] does to the table. *)
Lemma open_spec (path : string) (flags : open_flags) (t : fdtable) :
  let r := fst (open k path flags t) in
  let t' := snd (open k path flags t) in
  r = k t path flags /\
  (open_ret r < 0 -> t' = t) /\
  (0 <= open_ret r ->
     t (open_ret r) = None /\
     t' (open_ret r) = Some (mkOpenFile path flags) /\
     forall x, x <> open_ret r -> t' x = t x).
Proof.
  unfold open. destruct (0 <=? open_ret (k t path flags)) eqn:E; simpl.
  - apply Z.leb_le in E. split; [reflexivity|]. split; [lia|]. intros _.
    split; [apply kernel; exact E|]. split; [apply fd_set_same|].
    intros x Hx. apply fd_set_other. exact Hx.
  - apply Z.leb_gt in E. split; [reflexivity|]. split; [reflexivity | lia].
Qed.

(** Lines 119-129 touch descriptors 0 and 1 only. *)
Lemma redirect_stdin_stdout_spec (t : fdtable) :
  let t' := redirect_stdin_stdout k t in
  (forall x, 2 <= x -> t' x = t x) /\
  (0 <= open_ret (k t dev_null O_RDWR) ->
     t' 0 = Some (mkOpenFile dev_null O_RDWR) /\
     t' 1 = Some (mkOpenFile dev_null O_RDWR)) /\
  (open_ret (k t dev_null O_RDWR) < 0 -> t' = t).
Proof.
  unfold redirect_stdin_stdout.
  destruct (open_spec dev_null O_RDWR t) as (Hr & Hfail & Hok).
  destruct (open k dev_null O_RDWR t) as [r t1]. simpl in Hr, Hfail, Hok. subst r.
  set (fdnull := open_ret (k t dev_null O_RDWR)) in *.
  destruct (0 <=? fdnull) eqn:E0.
  - apply Z.leb_le in E0. destruct (Hok E0) as (Hnone & Hnew & Hframe).
    split; [|split; [|lia]].
    + intros x Hx.
      destruct (1 <? fdnull) eqn:E1.
      * apply Z.ltb_lt in E1. unfold close.
        destruct (Z.eq_dec x fdnull) as [-> | Hne].
        -- rewrite fd_set_same. symmetry. exact Hnone.
        -- rewrite fd_set_other by exact Hne.
           destruct (negb (fdnull =? 1)); destruct (negb (fdnull =? 0));
             rewrite ?dup2_other by lia; apply Hframe; exact Hne.
      * apply Z.ltb_ge in E1.
        destruct (negb (fdnull =? 1)); destruct (negb (fdnull =? 0));
          rewrite ?dup2_other by lia; apply Hframe; lia.
    + intros _.
      assert (H0 : (if negb (fdnull =? 0) then dup2 fdnull 0 t1 else t1) 0
                   = Some (mkOpenFile dev_null O_RDWR)).
      { destruct (fdnull =? 0) eqn:Ez; simpl.
        - apply Z.eqb_eq in Ez. rewrite <- Ez at 1. exact Hnew.
        - apply dup2_new. exact Hnew. }
      assert (Hn : (if negb (fdnull =? 0) then dup2 fdnull 0 t1 else t1) fdnull
                   = Some (mkOpenFile dev_null O_RDWR)).
      { destruct (fdnull =? 0) eqn:Ez; simpl.
        - exact Hnew.
        - apply Z.eqb_neq in Ez. rewrite dup2_other by exact Ez. exact Hnew. }
      set (t2 := if negb (fdnull =? 0) then dup2 fdnull 0 t1 else t1) in *.
      assert (H1 : (if negb (fdnull =? 1) then dup2 fdnull 1 t2 else t2) 1
                   = Some (mkOpenFile dev_null O_RDWR)).
      { destruct (fdnull =? 1) eqn:Ez; simpl.
        - apply Z.eqb_eq in Ez. rewrite <- Ez at 1. exact Hn.
        - apply dup2_new. exact Hn. }
      assert (H0' : (if negb (fdnull =? 1) then dup2 fdnull 1 t2 else t2) 0
                    = Some (mkOpenFile dev_null O_RDWR)).
      { destruct (fdnull =? 1) eqn:Ez; simpl.
        - exact H0.
        - rewrite dup2_other by lia. exact H0. }
      set (t3 := if negb (fdnull =? 1) then dup2 fdnull 1 t2 else t2) in *.
      destruct (1 <? fdnull) eqn:E1.
      * apply Z.ltb_lt in E1. unfold close. rewrite !fd_set_other by lia. auto.
      * auto.
  - apply Z.leb_gt in E0. split; [|split; [lia|]].
    + intros x _. rewrite (Hfail E0). reflexivity.
    + intros _. apply Hfail. exact E0.
Qed.

(** Lines 136-139: the descriptor [fderr], and how it was opened. *)
Lemma open_stderr_spec (path : string) (t : fdtable) :
  let r1 := k t path O_WRONLY_APPEND in
  let r2 := k t path O_CREAT_WRONLY_APPEND_0600 in
  let fderr := fst (open_stderr ENOENT k path t) in
  let t' := snd (open_stderr ENOENT k path t) in
  let retried := (open_ret r1 <? 0) && (open_errno r1 =? ENOENT) in
  fderr = (if retried then open_ret r2 else open_ret r1) /\
  (fderr < 0 -> t' = t) /\
  (0 <= fderr ->
     t fderr = None /\
     t' fderr = Some (mkOpenFile path (if retried then O_CREAT_WRONLY_APPEND_0600
                                       else O_WRONLY_APPEND)) /\
     forall x, x <> fderr -> t' x = t x).
Proof.
  unfold open_stderr.
  destruct (open_spec path O_WRONLY_APPEND t) as (Hr & Hfail & Hok).
  destruct (open k path O_WRONLY_APPEND t) as [r t1]. simpl in Hr, Hfail, Hok. subst r.
  destruct ((open_ret (k t path O_WRONLY_APPEND) <? 0)
            && (open_errno (k t path O_WRONLY_APPEND) =? ENOENT)) eqn:E.
  - apply andb_true_iff in E. destruct E as [E _]. apply Z.ltb_lt in E.
    rewrite (Hfail E).
    destruct (open_spec path O_CREAT_WRONLY_APPEND_0600 t) as (Hr2 & Hfail2 & Hok2).
    destruct (open k path O_CREAT_WRONLY_APPEND_0600 t) as [r' t2].
    simpl in Hr2, Hfail2, Hok2. subst r'. simpl.
    split; [reflexivity|]. split; [exact Hfail2 | exact Hok2].
  - simpl. split; [reflexivity|]. split; [exact Hfail | exact Hok].
Qed.

(** Lines 136-147 touch descriptor 2 only, unless [fderr] itself is 0 or 1
    (which takes one of them to be closed). *)
Lemma redirect_stderr_spec (stderrFile : string) (t : fdtable) :
  let path := errPath stderrFile in
  let r1 := k t path O_WRONLY_APPEND in
  let r2 := k t path O_CREAT_WRONLY_APPEND_0600 in
  let retried := (open_ret r1 <? 0) && (open_errno r1 =? ENOENT) in
  let fderr := if retried then open_ret r2 else open_ret r1 in
  let t' := redirect_stderr ENOENT k stderrFile t in
  (forall x, 2 < x -> t' x = t x) /\
  (forall x, x < 2 -> t x <> None -> t' x = t x) /\
  (0 <= fderr ->
     t' 2 = Some (mkOpenFile path (if retried then O_CREAT_WRONLY_APPEND_0600
                                   else O_WRONLY_APPEND))) /\
  (fderr < 0 -> t' = t).
Proof.
  unfold redirect_stderr.
  destruct (open_stderr_spec (errPath stderrFile) t) as (Hfd & Hfail & Hok).
  destruct (open_stderr ENOENT k (errPath stderrFile) t) as [fderr t1].
  simpl in Hfd, Hfail, Hok. rewrite <- Hfd.
  destruct (0 <=? fderr) eqn:E0.
  - apply Z.leb_le in E0. destruct (Hok E0) as (Hnone & Hnew & Hframe).
    assert (H2 : (if negb (fderr =? 2) then dup2 fderr 2 t1 else t1) 2
                 = t1 fderr).
    { destruct (fderr =? 2) eqn:Ez; simpl.
      - apply Z.eqb_eq in Ez. rewrite Ez. reflexivity.
      - rewrite Hnew. apply dup2_new. exact Hnew. }
    assert (Hothers : forall x, x <> 2 ->
              (if negb (fderr =? 2) then dup2 fderr 2 t1 else t1) x = t1 x).
    { intros x Hx. destruct (negb (fderr =? 2)); [apply dup2_other; exact Hx | reflexivity]. }
    set (t2 := if negb (fderr =? 2) then dup2 fderr 2 t1 else t1) in *.
    split; [|split; [|split; [|lia]]].
    + intros x Hx. destruct (2 <? fderr) eqn:E2.
      * apply Z.ltb_lt in E2. unfold close.
        destruct (Z.eq_dec x fderr) as [-> | Hne].
        -- rewrite fd_set_same. symmetry. exact Hnone.
        -- rewrite fd_set_other by exact Hne. rewrite Hothers by lia.
           apply Hframe. exact Hne.
      * apply Z.ltb_ge in E2. rewrite Hothers by lia. apply Hframe. lia.
    + intros x Hx Hopen.
      assert (Hne : x <> fderr) by (intros ->; apply Hopen; exact Hnone).
      destruct (2 <? fderr) eqn:E2.
      * unfold close. rewrite fd_set_other by exact Hne. rewrite Hothers by lia.
        apply Hframe. exact Hne.
      * rewrite Hothers by lia. apply Hframe. exact Hne.
    + intros _. destruct (2 <? fderr) eqn:E2.
      * apply Z.ltb_lt in E2. unfold close. rewrite fd_set_other by lia.
        rewrite H2. exact Hnew.
      * rewrite H2. exact Hnew.
  - apply Z.leb_gt in E0. rewrite (Hfail E0).
    split; [|split; [|split; [lia|]]]; auto.
Qed.

End StdIO.

(** X9.  [CloseStdIO] leaks no descriptor and closes none it does not own:
    whatever the three [open] calls answer (as long as the kernel hands out
    descriptors that are not in use), every descriptor above 2 is after the
    call what it was before - the descriptors [fdnull] and [fderr] it opened
    itself are closed again when they are not 0, 1 or 2. *)
Theorem X9_CloseStdIO_leaves_other_descriptors
    (ENOENT : Z) (k : open_oracle) (stderrFile : string) (t : fdtable) (fd : Z) :
  hands_out_unused k ->
  2 < fd ->
  CloseStdIO ENOENT k stderrFile t fd = t fd.
Proof.
  intros Hk Hfd. unfold CloseStdIO.
  destruct (redirect_stderr_spec ENOENT k Hk stderrFile (redirect_stdin_stdout k t))
    as (H & _). rewrite (H fd Hfd).
  destruct (redirect_stdin_stdout_spec k Hk t) as (H' & _). apply H'. lia.
Qed.

Lemma X9_witness :
  CloseStdIO 2 (posix_open 2 (String.eqb "/var/log/err")) "/var/log/err"%string
    (fd_set 7 (Some (mkOpenFile "/tmp/x"%string O_RDWR)) on_terminal) 7
  = Some (mkOpenFile "/tmp/x"%string O_RDWR).
Proof.
  apply (X9_CloseStdIO_leaves_other_descriptors 2 (posix_open 2 (String.eqb "/var/log/err"))
           "/var/log/err"%string
           (fd_set 7 (Some (mkOpenFile "/tmp/x"%string O_RDWR)) on_terminal) 7).
  - apply posix_open_unused.
  - lia.
Defined.

(** X10.  What [CloseStdIO] achieves.  If [/dev/null] could be opened,
    descriptors 0 and 1 both refer to it afterwards.  Descriptor 2 refers to
    the error log, opened for appending, if the first [open] of it
    succeeded; to the error log created with mode 0600 if the first [open]
    failed with [ENOENT] and the second succeeded; and is left as it was
    otherwise - in particular the file is not created after any other
    error.  The error log is [/dev/null] unless a file was named. *)
Theorem X10_CloseStdIO_redirects
    (ENOENT : Z) (k : open_oracle) (stderrFile : string) (t : fdtable) :
  hands_out_unused k ->
  0 <= open_ret (k t dev_null O_RDWR) ->
  let t1 := redirect_stdin_stdout k t in
  let path := if IsEmpty stderrFile then dev_null else stderrFile in
  let r1 := k t1 path O_WRONLY_APPEND in
  let r2 := k t1 path O_CREAT_WRONLY_APPEND_0600 in
  let t' := CloseStdIO ENOENT k stderrFile t in
  t' 0 = Some (mkOpenFile dev_null O_RDWR) /\
  t' 1 = Some (mkOpenFile dev_null O_RDWR) /\
  t' 2 = (if 0 <=? open_ret r1 then Some (mkOpenFile path O_WRONLY_APPEND)
          else if negb (open_errno r1 =? ENOENT) then t 2
          else if 0 <=? open_ret r2 then Some (mkOpenFile path O_CREAT_WRONLY_APPEND_0600)
          else t 2).
Proof.
  intros Hk Hnull. cbv zeta.
  replace (if IsEmpty stderrFile then dev_null else stderrFile)
    with (errPath stderrFile)
    by (unfold errPath; destruct (IsEmpty stderrFile); reflexivity).
  unfold CloseStdIO.
  pose proof (redirect_stdin_stdout_spec k Hk t) as H1. cbv zeta in H1.
  destruct H1 as (Hframe1 & Hok1 & _). destruct (Hok1 Hnull) as [H0 H1].
  pose proof (redirect_stderr_spec ENOENT k Hk stderrFile (redirect_stdin_stdout k t))
    as H2. cbv zeta in H2. destruct H2 as (_ & Hlow & Hok2 & Hfail2).
  set (t1 := redirect_stdin_stdout k t) in *.
  set (r1 := k t1 (errPath stderrFile) O_WRONLY_APPEND) in *.
  set (r2 := k t1 (errPath stderrFile) O_CREAT_WRONLY_APPEND_0600) in *.
  split; [|split].
  - rewrite (Hlow 0); [exact H0 | lia | rewrite H0; discriminate].
  - rewrite (Hlow 1); [exact H1 | lia | rewrite H1; discriminate].
  - destruct (0 <=? open_ret r1) eqn:E1.
    + apply Z.leb_le in E1.
      assert (Hlt : (open_ret r1 <? 0) = false) by (apply Z.ltb_ge; exact E1).
      rewrite Hlt in Hok2. simpl in Hok2. apply Hok2. exact E1.
    + apply Z.leb_gt in E1.
      assert (Hlt : (open_ret r1 <? 0) = true) by (apply Z.ltb_lt; exact E1).
      rewrite Hlt in Hok2, Hfail2. simpl in Hok2, Hfail2.
      destruct (open_errno r1 =? ENOENT) eqn:Ee; simpl.
      * destruct (0 <=? open_ret r2) eqn:E2.
        -- apply Z.leb_le in E2. apply Hok2. exact E2.
        -- apply Z.leb_gt in E2. rewrite (Hfail2 E2). apply Hframe1. lia.
      * rewrite (Hfail2 E1). apply Hframe1. lia.
Qed.

Lemma X10_witness :
  CloseStdIO 2 (posix_open 2 (String.eqb "/var/log/err")) "/var/log/err"%string on_terminal 0
    = Some (mkOpenFile dev_null O_RDWR) /\
  CloseStdIO 2 (posix_open 2 (String.eqb "/var/log/err")) "/var/log/err"%string on_terminal 1
    = Some (mkOpenFile dev_null O_RDWR) /\
  CloseStdIO 2 (posix_open 2 (String.eqb "/var/log/err")) "/var/log/err"%string on_terminal 2
    = Some (mkOpenFile "/var/log/err"%string O_CREAT_WRONLY_APPEND_0600).
Proof.
  apply (X10_CloseStdIO_redirects 2 (posix_open 2 (String.eqb "/var/log/err"))
           "/var/log/err"%string on_terminal).
  - apply posix_open_unused.
  - vm_compute. intros H. discriminate H.
Defined.

(** * Detaching from the terminal *)

Lemma Daemonize_wait_first (o : daemonize_oracle) (pid : Z) (fuel n k : nat) :
  (forall m, (n <= m < n + k)%nat ->
     dz_ReadPidFile o m <> pid /\ dz_waitpid o m = 0) ->
  (dz_ReadPidFile o (n + k) = pid \/ dz_waitpid o (n + k) <> 0) ->
  (k < fuel)%nat ->
  Daemonize_wait o pid fuel n = Some (dz_waitpid o (n + k)).
Proof.
  revert fuel n. induction k as [|k IH]; intros fuel n Hbefore Hlast Hfuel.
  - destruct fuel as [|fuel]; [lia|]. simpl. rewrite Nat.add_0_r in Hlast.
    destruct Hlast as [H | H].
    + rewrite H, Z.eqb_refl. simpl. rewrite Nat.add_0_r. reflexivity.
    + apply Z.eqb_neq in H. rewrite H, andb_false_r. rewrite Nat.add_0_r. reflexivity.
  - destruct fuel as [|fuel]; [lia|]. simpl.
    destruct (Hbefore n) as [Hr Hw]; [lia|].
    apply Z.eqb_neq in Hr. rewrite Hr, Hw. simpl.
    replace (n + S k)%nat with (S n + k)%nat by lia.
    apply IH.
    + intros m Hm. apply Hbefore. lia.
    + replace (S n + k)%nat with (n + S k)%nat by lia. exact Hlast.
    + lia.
Qed.

(** X11.  [Daemonize] returns in the child only, and only a child that got
    its own session and its thread pool back.  The process in which [fork]
    returned a pid never gets past [Daemonize]: it ends by [_exit], never
    by [exit], so that the exit handlers run in at most one of the two
    processes.  Every [exit] is one with [EXIT_FAILURE], after a critical
    log line, in a process that is the child or has no child. *)
Theorem X11_Daemonize_returns_in_child_only
    (P : platform) (o : daemonize_oracle) (fuel : nat) :
  match fst (Daemonize P o fuel) with
  | DzReturns =>
      dz_fork o = 0 /\ dz_setsid o <> -1 /\
      dz_UninitializeBase_throws o = false /\ dz_InitializeBase_throws o = false
  | DzExit code =>
      code = EXIT_FAILURE P /\
      (dz_UninitializeBase_throws o = true \/ dz_fork o = -1 \/ dz_fork o = 0) /\
      snd (Daemonize P o fuel) <> [] /\
      last (snd (Daemonize P o fuel)) DzLogChildContinues <> DzLogChildContinues
  | DzUnderscoreExit _ | DzOutOfFuel =>
      dz_fork o <> -1 /\ dz_fork o <> 0
  end.
Proof.
  unfold Daemonize.
  destruct (dz_UninitializeBase_throws o) eqn:Et; simpl.
  { split; [reflexivity|]. split; [auto|]. split; discriminate. }
  destruct (dz_fork o =? -1) eqn:E1; simpl.
  { apply Z.eqb_eq in E1. split; [reflexivity|]. split; [auto|]. split; discriminate. }
  apply Z.eqb_neq in E1.
  destruct (dz_fork o =? 0) eqn:E0; simpl.
  - apply Z.eqb_eq in E0.
    destruct (dz_setsid o =? -1) eqn:Es; simpl.
    { split; [reflexivity|]. split; [auto|]. split; discriminate. }
    apply Z.eqb_neq in Es.
    destruct (dz_InitializeBase_throws o) eqn:Ei; simpl.
    { split; [reflexivity|]. split; [auto|]. split; discriminate. }
    auto.
  - apply Z.eqb_neq in E0.
    destruct (Daemonize_wait o (dz_fork o) fuel 0) as [ret|]; simpl; [|auto].
    destruct (ret =? dz_fork o); simpl; [auto|].
    destruct (ret =? -1); simpl; auto.
Qed.

(** X12.  The verdict of the parent.  Let [fork] have returned the daemon's
    pid, and let round [k] of the loop be the first in which the pid file
    names the daemon or [waitpid] returns something else than 0.  Then the
    parent ends in that round, by [_exit]: with [EXIT_FAILURE] if [waitpid]
    returned the daemon's pid (it is dead, even if it had written its pid
    file) or [-1], and with [EXIT_SUCCESS] otherwise - that is, given that
    [waitpid] returns 0, the pid or [-1], exactly when the pid file names a
    daemon that is still running. *)
Theorem X12_Daemonize_parent_verdict
    (P : platform) (o : daemonize_oracle) (fuel k : nat) :
  dz_UninitializeBase_throws o = false ->
  dz_fork o <> -1 -> dz_fork o <> 0 ->
  (forall m, (m < k)%nat ->
     dz_ReadPidFile o m <> dz_fork o /\ dz_waitpid o m = 0) ->
  (dz_ReadPidFile o k = dz_fork o \/ dz_waitpid o k <> 0) ->
  (forall m, dz_waitpid o m = 0 \/ dz_waitpid o m = dz_fork o \/ dz_waitpid o m = -1) ->
  (k < fuel)%nat ->
  fst (Daemonize P o fuel)
  = DzUnderscoreExit (if (dz_waitpid o k =? 0)
                      then EXIT_SUCCESS else EXIT_FAILURE P) /\
  (dz_waitpid o k = 0 -> dz_ReadPidFile o k = dz_fork o).
Proof.
  intros Ht H1 H0 Hbefore Hlast Hret Hfuel.
  unfold Daemonize. rewrite Ht.
  apply Z.eqb_neq in H1. rewrite H1.
  assert (H0' := H0). apply Z.eqb_neq in H0'. rewrite H0'. simpl.
  rewrite (Daemonize_wait_first o (dz_fork o) fuel 0 k); rewrite ?Nat.add_0_l.
  - split.
    + destruct (Hret k) as [E | [E | E]]; rewrite E.
      * rewrite (Z.eqb_sym 0), H0'. reflexivity.
      * rewrite Z.eqb_refl, H0'. reflexivity.
      * rewrite (Z.eqb_sym (-1)), H1. reflexivity.
    + intros E. destruct Hlast as [H | H]; [exact H | contradiction].
  - intros m Hm. apply Hbefore. lia.
  - exact Hlast.
  - exact Hfuel.
Qed.

Lemma X12_witness :
  fst (Daemonize (linux true) daemon_dies 3) = DzUnderscoreExit 1 /\
  (500 = 0 -> 500 = 500).
Proof.
  apply (X12_Daemonize_parent_verdict (linux true) daemon_dies 3 2).
  - reflexivity.
  - discriminate.
  - discriminate.
  - intros m Hm. destruct m as [|[|m]]; [split; [discriminate | reflexivity] ..| lia].
  - left. reflexivity.
  - intros m. destruct m as [|[|m]]; [left; reflexivity .. | right; left; reflexivity].
  - lia.
Defined.

(** * The worker process *)

Lemma worker_signal_signo (P : platform) (s : usig) :
  worker_signal P (signo P s) =
  match s with USR2 | INT | TERM => true | _ => false end.
Proof. unfold worker_signal. switch_on_signal. destruct s; reflexivity. Qed.

Lemma worker_order_nil (P : platform) (u : Z) : worker_order P u [].
Proof. intros [|x d1] e d2 H; discriminate H. Qed.

Lemma worker_order_snoc (P : platform) (u : Z) (tr : list child_event) (e : child_event) :
  worker_order P u tr ->
  is_umbrella_handler e = false ->
  (is_child_kill e = true ->
     e = reported_to P u /\ existsb is_config_loaded tr = true) ->
  (is_beyond_gate e = true ->
     In (released_by P u) tr /\ In (reported_to P u) tr) ->
  worker_order P u (tr ++ [e]).
Proof.
  intros Htr Hu Hk Hg d1 x d2 Heq.
  destruct (snoc_split tr d1 d2 e x Heq) as [(_ & -> & ->) | (d2' & _ & ->)].
  - auto.
  - apply (Htr d1 x d2' eq_refl).
Qed.

Ltac split_worker_inv := split; [|split; [|split; [|split]]].

Section WorkerSteps.

Variable P : platform.
Variable o : child_oracle.
Variable u : Z.

Lemma at_stage_le (n n' : nat) (c : child) :
  (n' <= n)%nat -> at_stage P u n c -> at_stage P u n' c.
Proof. intros Hle (H1 & H2 & H3). repeat split; intros; [apply H1 | apply H2 | apply H3]; lia. Qed.

Lemma at_stage_record (n : nat) (e : child_event) (c : child) :
  at_stage P u n c -> at_stage P u n (ch_record e c).
Proof.
  intros (H1 & H2 & H3). repeat split; simpl; intros H.
  - rewrite existsb_app, (H1 H). reflexivity.
  - apply in_or_app. left. exact (H2 H).
  - exact (H3 H).
Qed.

(** An event that is no signal sent and nothing past the gate may happen at
    any time. *)
Lemma worker_inv_record (e : child_event) (c : child) :
  worker_inv P u c ->
  is_umbrella_handler e = false -> is_child_kill e = false ->
  is_beyond_gate e = false ->
  worker_inv P u (ch_record e c).
Proof.
  intros (Hb & Hu & Hd & Ha & Ho) He1 He2 He3.
  split_worker_inv; simpl; auto.
  - intros H. apply in_or_app. left. exact (Ha H).
  - apply worker_order_snoc;
      [exact Ho | exact He1 | rewrite He2; discriminate | rewrite He3; discriminate].
Qed.

(** The report to the umbrella may be sent once the configuration is
    loaded. *)
Lemma worker_inv_report (c : child) :
  worker_inv P u c -> at_stage P u 1 c ->
  worker_inv P u (ch_record (reported_to P u) c) /\
  at_stage P u 2 (ch_record (reported_to P u) c).
Proof.
  intros (Hb & Hu & Hd & Ha & Ho) (H1 & H2 & H3). split.
  - split_worker_inv; simpl; auto.
    + intros H. apply in_or_app. left. exact (Ha H).
    + apply worker_order_snoc; [exact Ho | reflexivity | | discriminate].
      intros _. split; [reflexivity | apply H1; lia].
  - repeat split; simpl; intros H; try lia.
    + rewrite existsb_app, H1 by lia. reflexivity.
    + apply in_or_app. right. left. reflexivity.
Qed.

(** Past the gate anything but a signal may happen. *)
Lemma worker_inv_beyond (e : child_event) (c : child) :
  worker_inv P u c -> at_stage P u 3 c ->
  is_umbrella_handler e = false -> is_child_kill e = false ->
  worker_inv P u (ch_record e c).
Proof.
  intros (Hb & Hu & Hd & Ha & Ho) (H1 & H2 & H3) He1 He2.
  split_worker_inv; simpl; auto.
  - intros H. apply in_or_app. left. exact (Ha H).
  - apply worker_order_snoc;
      [exact Ho | exact He1 | rewrite He2; discriminate |].
    intros _. split; [apply Ha, H3; lia | apply H2; lia].
Qed.

(** One signal. *)
Lemma child_deliver_inv (n : nat) (s : siginfo) (c : child) :
  worker_inv P u c -> at_stage P u n c ->
  match child_deliver P s c with
  | COk _ c' => worker_inv P u c' /\ at_stage P u n c' /\ ch_tick c' = ch_tick c
  | CStop r c' => c' = c /\ worker_stop_ok P r
  end.
Proof.
  intros Hinv Hst. assert (Hinv' := Hinv).
  destruct Hinv' as (Hb & Hu & Hd & Ha & Ho).
  unfold child_deliver. rewrite (Hd (si_signo s)), worker_signal_signo.
  destruct (si_signo s) eqn:Es; simpl default_terminates; cbv iota.
  - split; [reflexivity | left; reflexivity].
  - (* SIGUSR2 *)
    unfold WorkerSignalHandler. switch_on_signal.
    destruct (si_pid s =? wk_UmbrellaPid (ch_worker c)) eqn:Ep.
    + apply Z.eqb_eq in Ep. rewrite Hu in Ep.
      split; [|split; [|reflexivity]].
      * split_worker_inv; simpl; auto.
        -- intros _. apply in_or_app. right. left. rewrite Ep. reflexivity.
        -- apply worker_order_snoc; [exact Ho | reflexivity | discriminate | discriminate].
      * destruct Hst as (H1 & H2 & H3). repeat split; simpl; intros H.
        -- rewrite existsb_app, (H1 H). reflexivity.
        -- apply in_or_app. left. exact (H2 H).
    + split; [|split; [|reflexivity]].
      * replace (ch_set_worker (ch_worker c) c) with c by (destruct c; reflexivity).
        apply worker_inv_record; auto.
      * replace (ch_set_worker (ch_worker c) c) with c by (destruct c; reflexivity).
        apply at_stage_record. exact Hst.
  - split; [|split]; auto.
  - (* SIGINT *)
    unfold WorkerSignalHandler. switch_on_signal.
    destruct (si_pid s =? wk_UmbrellaPid (ch_worker c)) eqn:Ep.
    + split; [|split; [|reflexivity]].
      * split_worker_inv; simpl; auto.
        -- intros H. apply in_or_app. left. exact (Ha H).
        -- apply worker_order_snoc; [exact Ho | reflexivity | discriminate | discriminate].
      * destruct Hst as (H1 & H2 & H3). repeat split; simpl; intros H.
        -- rewrite existsb_app, (H1 H). reflexivity.
        -- apply in_or_app. left. exact (H2 H).
        -- exact (H3 H).
    + split; [|split; [|reflexivity]].
      * replace (ch_set_worker (ch_worker c) c) with c by (destruct c; reflexivity).
        apply worker_inv_record; auto.
      * replace (ch_set_worker (ch_worker c) c) with c by (destruct c; reflexivity).
        apply at_stage_record. exact Hst.
  - (* SIGTERM *)
    unfold WorkerSignalHandler. switch_on_signal.
    destruct (si_pid s =? wk_UmbrellaPid (ch_worker c)) eqn:Ep.
    + split; [|split; [|reflexivity]].
      * split_worker_inv; simpl; auto.
        -- intros H. apply in_or_app. left. exact (Ha H).
        -- apply worker_order_snoc; [exact Ho | reflexivity | discriminate | discriminate].
      * destruct Hst as (H1 & H2 & H3). repeat split; simpl; intros H.
        -- rewrite existsb_app, (H1 H). reflexivity.
        -- apply in_or_app. left. exact (H2 H).
        -- exact (H3 H).
    + split; [|split; [|reflexivity]].
      * replace (ch_set_worker (ch_worker c) c) with c by (destruct c; reflexivity).
        apply worker_inv_record; auto.
      * replace (ch_set_worker (ch_worker c) c) with c by (destruct c; reflexivity).
        apply at_stage_record. exact Hst.
  - split; [reflexivity | right; reflexivity].
Qed.

Lemma child_deliver_all_inv (n : nat) (l : list siginfo) (c : child) :
  worker_inv P u c -> at_stage P u n c ->
  match child_deliver_all P l c with
  | COk _ c' => worker_inv P u c' /\ at_stage P u n c' /\ ch_tick c' = ch_tick c
  | CStop r c' => worker_inv P u c' /\ worker_stop_ok P r
  end.
Proof.
  revert c. induction l as [|s l IH]; intros c Hinv Hst; simpl.
  - auto.
  - unfold cbind. pose proof (child_deliver_inv n s c Hinv Hst) as H.
    destruct (child_deliver P s c) as [[] c1 | r c1].
    + destruct H as (H1 & H2 & H3). specialize (IH c1 H1 H2).
      destruct (child_deliver_all P l c1) as [[] c2 | r c2]; [|exact IH].
      destruct IH as (I1 & I2 & I3). split; [exact I1|]. split; [exact I2 | congruence].
    + destruct H as [-> H]. auto.
Qed.

Lemma worker_inv_set_tick (n : nat) (c : child) :
  worker_inv P u c -> worker_inv P u (ch_set_tick n c).
Proof. intros H. exact H. Qed.

Lemma at_stage_set_tick (n k : nat) (c : child) :
  at_stage P u n c -> at_stage P u n (ch_set_tick k c).
Proof. intros H. exact H. Qed.

(** A delivery point. *)
Lemma worker_step_sync (n : nat) : worker_step P u n (child_sync P o) (fun _ => n).
Proof.
  intros c Hinv Hst. unfold child_sync.
  assert (Hb : ch_sigblocked (ch_set_tick (S (ch_tick c)) c) = false) by apply Hinv.
  rewrite Hb. unfold cbind, cret.
  pose proof (child_deliver_all_inv n (co_signals o (ch_tick c))
                (ch_set_tick (S (ch_tick c)) c)
                (worker_inv_set_tick _ c Hinv) (at_stage_set_tick n _ c Hst)) as H.
  destruct (child_deliver_all P (co_signals o (ch_tick c))
              (ch_set_tick (S (ch_tick c)) c)) as [[] c1 | r c1].
  - destruct H as (H1 & H2 & _). auto.
  - exact H.
Qed.

Lemma worker_step_bind {A B : Type} (n : nat) (n1 : A -> nat) (n2 : B -> nat)
    (m : C A) (f : A -> C B) :
  worker_step P u n m n1 ->
  (forall a, worker_step P u (n1 a) (f a) n2) ->
  worker_step P u n (cbind m f) n2.
Proof.
  intros Hm Hf c Hinv Hst. unfold cbind. specialize (Hm c Hinv Hst).
  destruct (m c) as [a c1 | r c1]; [|exact Hm].
  destruct Hm as [H1 H2]. exact (Hf a c1 H1 H2).
Qed.

Lemma worker_step_ret {A : Type} (n : nat) (a : A) :
  worker_step P u n (cret a) (fun _ => n).
Proof. intros c Hinv Hst. simpl. auto. Qed.

Lemma worker_step_weaken {A : Type} (n n0 : nat) (n1 n2 : A -> nat) (m : C A) :
  worker_step P u n m n1 ->
  (n <= n0)%nat -> (forall a, (n2 a <= n1 a)%nat) ->
  worker_step P u n0 m n2.
Proof.
  intros Hm Hle Hpost c Hinv Hst.
  specialize (Hm c Hinv (at_stage_le n0 n c Hle Hst)).
  destruct (m c) as [a c1 | r c1]; [|exact Hm].
  destruct Hm as [H1 H2]. split; [exact H1|]. exact (at_stage_le _ _ c1 (Hpost a) H2).
Qed.

Lemma worker_step_stop {A : Type} (n : nat) (n' : A -> nat) (r : child_stop) :
  worker_stop_ok P r -> worker_step P u n (cstop r) n'.
Proof. intros Hr c Hinv Hst. simpl. auto. Qed.

(** An event that is no signal sent and nothing past the gate. *)
Lemma worker_step_emit (n : nat) (e : child_event) :
  is_umbrella_handler e = false -> is_child_kill e = false ->
  is_beyond_gate e = false ->
  worker_step P u n (child_emit e) (fun _ => n).
Proof.
  intros H1 H2 H3 c Hinv Hst. simpl. split.
  - apply worker_inv_record; assumption.
  - apply at_stage_record. exact Hst.
Qed.

Lemma worker_step_emit_beyond (e : child_event) :
  is_umbrella_handler e = false -> is_child_kill e = false ->
  worker_step P u 3 (child_emit e) (fun _ => 3%nat).
Proof.
  intros H1 H2 c Hinv Hst. simpl. split.
  - apply worker_inv_beyond; assumption.
  - apply at_stage_record. exact Hst.
Qed.

Lemma worker_step_Log (n : nat) (m : worker_log) :
  is_beyond_gate (CEvLog m) = false ->
  worker_step P u n (child_Log P o m) (fun _ => n).
Proof.
  intros H. unfold child_Log.
  apply (worker_step_bind n (fun _ => n)); [apply worker_step_sync|].
  intros _. apply worker_step_emit; [reflexivity | reflexivity | exact H].
Qed.

Lemma worker_step_Log_beyond (m : worker_log) :
  worker_step P u 3 (child_Log P o m) (fun _ => 3%nat).
Proof.
  unfold child_Log.
  apply (worker_step_bind 3 (fun _ => 3%nat)); [apply worker_step_sync|].
  intros _. apply worker_step_emit_beyond; reflexivity.
Qed.

Lemma worker_step_Sleep (n : nat) : worker_step P u n (child_Sleep P o) (fun _ => n).
Proof.
  unfold child_Sleep.
  apply (worker_step_bind n (fun _ => n)); [apply worker_step_sync|].
  intros _. apply worker_step_ret.
Qed.

(** [call LoadConfigFiles]: a value other than 0 takes the worker to
    stage 1. *)
Lemma worker_step_LoadConfigFiles :
  worker_step P u 0 (call P o LoadConfigFiles)
    (fun v => if v =? 0 then 0%nat else 1%nat).
Proof.
  unfold call, try_call.
  intros c Hinv Hst. unfold cbind.
  pose proof (worker_step_sync 0 c Hinv Hst) as H.
  destruct (child_sync P o c) as [k c1 | r c1]; [|exact H].
  destruct H as [H1 H2]. unfold child_emit, cret.
  assert (Hr : worker_inv P u (ch_record (CEvCall LoadConfigFiles (co_lib o k)) c1))
    by (apply worker_inv_record; [exact H1 | reflexivity ..]).
  destruct (co_lib o k) as [v| |] eqn:E; simpl.
  - split; [exact Hr|].
    destruct (v =? 0) eqn:Ev.
    + apply at_stage_record. exact H2.
    + repeat split; simpl; intros H; try lia.
      rewrite existsb_app. simpl. rewrite Ev. simpl. apply orb_true_r.
  - split; [exact Hr | exact I].
  - split; [exact Hr | exact I].
Qed.

(** The report to the umbrella (line 214). *)
Lemma worker_step_UmbrellaPid {B : Type} (n : nat) (f : Z -> C B) (n2 : B -> nat) :
  worker_step P u n (f u) n2 ->
  worker_step P u n (cbind (fun c => COk (wk_UmbrellaPid (ch_worker c)) c) f) n2.
Proof.
  intros Hf c Hinv Hst. unfold cbind.
  assert (Hu : wk_UmbrellaPid (ch_worker c) = u) by apply Hinv.
  rewrite Hu. exact (Hf c Hinv Hst).
Qed.

Lemma worker_step_report :
  worker_step P u 1 (child_kill P o u (SIGUSR2 P)) (fun _ => 2%nat).
Proof.
  intros c Hinv Hst. unfold child_kill, cbind.
  pose proof (worker_step_sync 1 c Hinv Hst) as H.
  destruct (child_sync P o c) as [k c1 | r c1]; [|exact H].
  destruct H as [H1 H2]. unfold child_emit.
  exact (worker_inv_report c1 H1 H2).
Qed.

(** [l_AllowedToWork.load ()] *)
Lemma worker_step_load_AllowedToWork :
  worker_step P u 2 (load_AllowedToWork P o) (fun b => if b then 3%nat else 2%nat).
Proof.
  intros c Hinv Hst. unfold load_AllowedToWork, cbind.
  pose proof (worker_step_sync 2 c Hinv Hst) as H.
  destruct (child_sync P o c) as [k c1 | r c1]; [|exact H].
  destruct H as [H1 H2]. split; [exact H1|].
  destruct (l_AllowedToWork (ch_worker c1)) eqn:E; [|exact H2].
  destruct H2 as (S1 & S2 & _). repeat split; intros H; [apply S1 | apply S2 | exact E]; lia.
Qed.

(** The gate (lines 219-221): whoever gets through is at stage 3. *)
Lemma worker_step_wait_AllowedToWork (fuel : nat) :
  worker_step P u 2 (wait_AllowedToWork P o fuel) (fun _ => 3%nat).
Proof.
  induction fuel as [|fuel IH]; simpl.
  - apply worker_step_stop. exact I.
  - apply (worker_step_bind 2 (fun b : bool => if b then 3%nat else 2%nat));
      [apply worker_step_load_AllowedToWork|].
    intros [|]; simpl.
    + apply worker_step_ret.
    + apply (worker_step_bind 2 (fun _ => 2%nat)); [apply worker_step_Sleep|].
      intros _. exact IH.
Qed.

(** A call past the gate. *)
Lemma worker_step_try_call_beyond (c : lib_call) :
  worker_step P u 3 (try_call P o c) (fun _ => 3%nat).
Proof.
  unfold try_call.
  apply (worker_step_bind 3 (fun _ => 3%nat)); [apply worker_step_sync|].
  intros k. apply (worker_step_bind 3 (fun _ => 3%nat)).
  - apply worker_step_emit_beyond; reflexivity.
  - intros _. apply worker_step_ret.
Qed.

Lemma worker_step_call_beyond (c : lib_call) :
  worker_step P u 3 (call P o c) (fun _ => 3%nat).
Proof.
  unfold call.
  apply (worker_step_bind 3 (fun _ => 3%nat)); [apply worker_step_try_call_beyond|].
  intros [v| |]; [apply worker_step_ret | apply worker_step_stop; exact I ..].
Qed.

(** [RunWorker] as a whole. *)
Lemma worker_step_RunWorker (fuel : nat) :
  worker_step P u 0 (RunWorker P o fuel) (fun _ => 0%nat).
Proof.
  unfold RunWorker.
  apply (worker_step_bind 0 (fun _ => 0%nat)); [apply worker_step_Log; reflexivity|].
  intros _.
  apply (worker_step_bind 0 (fun v => if v =? 0 then 0%nat else 1%nat));
    [apply worker_step_LoadConfigFiles|].
  intros v. destruct (v =? 0); [apply worker_step_ret|].
  apply (worker_step_bind 1 (fun _ => 1%nat)); [apply worker_step_Log; reflexivity|].
  intros _.
  apply (worker_step_weaken 1 1 (fun _ => 3%nat) (fun _ => 0%nat));
    [| lia | intros; lia].
  apply worker_step_UmbrellaPid.
  apply (worker_step_bind 1 (fun _ => 2%nat)); [apply worker_step_report|].
  intros _.
  apply (worker_step_bind 2 (fun _ => 2%nat)); [apply worker_step_Log; reflexivity|].
  intros _.
  apply (worker_step_bind 2 (fun _ => 3%nat)); [apply worker_step_wait_AllowedToWork|].
  intros _.
  apply (worker_step_bind 3 (fun _ => 3%nat)); [apply worker_step_Log_beyond|].
  intros _.
  apply (worker_step_bind 3 (fun _ => 3%nat)); [apply worker_step_try_call_beyond|].
  intros [restored| |].
  - apply (worker_step_bind 3 (fun _ => 3%nat)); [apply worker_step_call_beyond|].
    intros activated. destruct (activated =? 0).
    + apply (worker_step_bind 3 (fun _ => 3%nat)); [apply worker_step_Log_beyond|].
      intros _. apply worker_step_ret.
    + apply (worker_step_bind 3 (fun _ => 3%nat)); [apply worker_step_call_beyond|].
      intros _.
      apply (worker_step_bind 3 (fun _ => 3%nat)); [apply worker_step_try_call_beyond|].
      intros removed.
      apply (worker_step_bind 3 (fun _ => 3%nat)).
      * destruct removed;
          [apply worker_step_ret | apply worker_step_Log_beyond
          | apply worker_step_stop; exact I].
      * intros _.
        apply (worker_step_bind 3 (fun _ => 3%nat)); [apply worker_step_call_beyond|].
        intros _. apply worker_step_call_beyond.
  - apply (worker_step_bind 3 (fun _ => 3%nat)); [apply worker_step_Log_beyond|].
    intros _. apply worker_step_ret.
  - apply worker_step_stop. exact I.
Qed.

(** A [sigaction] of the child while the mask is on. *)
Lemma child_sigaction_setup (num : Z) (d : child_disposition) (c : child) :
  child_in_setup u c ->
  exists c', child_sigaction P o num d c = COk tt c' /\
             child_in_setup u c' /\
             forall n, ch_sigdisp c' n = if n =? num then d else ch_sigdisp c n.
Proof.
  intros (Hb & Ht & Hu & Ha).
  unfold child_sigaction, cbind, child_sync. simpl ch_sigblocked. rewrite Hb.
  eexists. split; [reflexivity|]. split; [|reflexivity].
  repeat split; assumption.
Qed.

(** The child's set-up (lines 431-454), started with the mask on: the
    signals that arrive meanwhile are held back until the child's own
    dispositions are in place. *)
Lemma child_setup_inv (w : world) :
  sigblocked w = true -> l_UmbrellaPid w = u ->
  match child_setup P o (child_at_fork w) with
  | COk _ c' => worker_inv P u c' /\ at_stage P u 0 c'
  | CStop r c' => worker_inv P u c' /\ worker_stop_ok P r
  end.
Proof.
  intros Hb Hu.
  assert (H0 : child_in_setup u (child_at_fork w)) by (repeat split; assumption).
  unfold child_setup.
  destruct (child_sigaction_setup (SIGCHLD P) CD_SIG_DFL _ H0) as (c1 & E1 & H1 & D1).
  unfold cbind at 1. rewrite E1.
  destruct (child_sigaction_setup (SIGUSR1 P) CD_SIG_DFL _ H1) as (c2 & E2 & H2 & D2).
  unfold cbind at 1. rewrite E2.
  destruct (child_sigaction_setup (SIGHUP P) CD_SIG_DFL _ H2) as (c3 & E3 & H3 & D3).
  unfold cbind at 1. rewrite E3.
  destruct (child_sigaction_setup (SIGUSR2 P) CD_WorkerSignalHandler _ H3)
    as (c4 & E4 & H4 & D4).
  unfold cbind at 1. rewrite E4.
  destruct (child_sigaction_setup (SIGINT P) CD_WorkerSignalHandler _ H4)
    as (c5 & E5 & H5 & D5).
  unfold cbind at 1. rewrite E5.
  destruct (child_sigaction_setup (SIGTERM P) CD_WorkerSignalHandler _ H5)
    as (c6 & E6 & H6 & D6).
  unfold cbind at 1. rewrite E6.
  clear E1 E2 E3 E4 E5 E6 H0 H1 H2 H3 H4 H5.
  destruct H6 as (Hb6 & Ht6 & Hu6 & Ha6).
  unfold child_sigprocmask_UNBLOCK, cbind, child_sync. simpl ch_sigblocked. rewrite Hb6.
  match goal with
  | |- match child_deliver_all P ?l ?c with _ => _ end =>
      assert (Hc : worker_inv P u c /\ at_stage P u 0 c);
      [| pose proof (child_deliver_all_inv 0 l c (proj1 Hc) (proj2 Hc)) as H;
         destruct (child_deliver_all P l c) as [[] c7 | r c7] ]
  end.
  - split.
    + split_worker_inv.
      * reflexivity.
      * exact Hu6.
      * intros s. simpl ch_sigdisp.
        rewrite D6, D5, D4, D3, D2, D1, worker_signal_signo.
        switch_on_signal. destruct s; reflexivity.
      * simpl. rewrite Ha6. discriminate.
      * simpl. rewrite Ht6. apply worker_order_nil.
    + repeat split; simpl; intros; lia.
  - destruct H as (H1 & H2 & _). auto.
  - exact H.
Qed.

(** The child's branch as a whole. *)
Lemma child_branch_inv (fuel : nat) (w : world) :
  sigblocked w = true -> l_UmbrellaPid w = u ->
  worker_inv P u (final_child (child_branch P o fuel (child_at_fork w))) /\
  exists r, reason_of (child_branch P o fuel (child_at_fork w)) = Some r /\
            worker_stop_ok P r /\ r <> CThrown.
Proof.
  intros Hb Hu. unfold child_branch, catch_all.
  assert (Hrest : worker_step P u 0
            (initialized <- try_call P o InitializeBase ;;
             match initialized with
             | Threw => child_Log P o WLogReinitFailed ;; _exit (EXIT_FAILURE P)
             | ThrewOther => cstop CThrown
             | Returned _ => code <- RunWorker P o fuel ;; _exit code
             end)%child
            (fun _ : unit => 0%nat)).
  { apply (worker_step_bind 0 (fun _ => 0%nat)).
    - unfold try_call.
      apply (worker_step_bind 0 (fun _ => 0%nat)); [apply worker_step_sync|].
      intros k. apply (worker_step_bind 0 (fun _ => 0%nat)).
      + apply worker_step_emit; reflexivity.
      + intros _. apply worker_step_ret.
    - intros [v| |].
      + apply (worker_step_bind 0 (fun _ => 0%nat)); [apply worker_step_RunWorker|].
        intros code. apply worker_step_stop. exact I.
      + apply (worker_step_bind 0 (fun _ => 0%nat)); [apply worker_step_Log; reflexivity|].
        intros _. apply worker_step_stop. exact I.
      + apply worker_step_stop. exact I. }
  assert (Hbody :
    match (child_setup P o ;;
           initialized <- try_call P o InitializeBase ;;
           match initialized with
           | Threw => child_Log P o WLogReinitFailed ;; @_exit unit (EXIT_FAILURE P)
           | ThrewOther => cstop CThrown
           | Returned _ => code <- RunWorker P o fuel ;; @_exit unit code
           end)%child (child_at_fork w) with
    | COk _ _ => False
    | CStop r c' => worker_inv P u c' /\ worker_stop_ok P r
    end).
  { unfold cbind at 1.
    pose proof (child_setup_inv w Hb Hu) as Hs.
    destruct (child_setup P o (child_at_fork w)) as [[] c1 | r c1]; [|exact Hs].
    destruct Hs as [H1 H2]. specialize (Hrest c1 H1 H2).
    unfold cbind at 1. unfold cbind at 1 in Hrest.
    destruct (try_call P o InitializeBase c1) as [[v| |] c2 | r c2]; [| | |exact Hrest].
    - unfold cbind, _exit, cstop in *.
      destruct (RunWorker P o fuel c2) as [code c3 | r c3]; exact Hrest.
    - unfold cbind, _exit, cstop in *.
      destruct (child_Log P o WLogReinitFailed c2) as [[] c3 | r c3]; exact Hrest.
    - exact Hrest. }
  match type of Hbody with
  | match ?b with _ => _ end => destruct b as [[] c' | r c']
  end; [contradiction|].
  destruct Hbody as [Hi Hr].
  destruct r; simpl; (split; [exact Hi|]); eexists; (split; [reflexivity|]);
    (split; [first [exact Hr | exact I] | discriminate]).
Qed.


End WorkerSteps.

(** ** Where the child comes from *)

Section Forked.

Variable P : platform.
Variable o : oracle.

Lemma nic_ret {A : Type} (a : A) : not_in_child (ret a).
Proof. intros w r w' H. discriminate H. Qed.

Lemma nic_stop {A : Type} (r : stop_reason) : r <> InChild -> not_in_child (@stop A r).
Proof. intros Hr w r' w' H. injection H as <- _. exact Hr. Qed.

Lemma nic_bind {A B : Type} (m : M A) (f : A -> M B) :
  not_in_child m -> (forall a, not_in_child (f a)) -> not_in_child (bind m f).
Proof.
  intros Hm Hf w r w'. unfold bind. destruct (m w) as [a w1|r1 w1] eqn:E.
  - apply Hf.
  - intros H. injection H as <- <-. eapply Hm. exact E.
Qed.

Lemma nic_sync : not_in_child (sync P o).
Proof.
  intros w r w' H. destruct (sync_Stop P o w w' r H) as [[sig ->] _]. discriminate.
Qed.

Lemma nic_sync_then {A : Type} (g : nat -> M A) :
  (forall n w, exists a w', g n w = Ok a w') -> not_in_child (n <- sync P o ;; g n).
Proof.
  intros Hg. apply nic_bind; [apply nic_sync|].
  intros n w r w' H. destruct (Hg n w) as (a & w1 & E). rewrite E in H. discriminate H.
Qed.

Ltac nic_simple :=
  apply nic_sync_then; intros;
  unfold bind, emit, ret;
  repeat match goal with |- context [let (_, _) := ?x in _] => destruct x end;
  eauto.

Lemma nic_Log (m : log_message) : not_in_child (Log P o m).
Proof. nic_simple. Qed.

Lemma nic_waitpid (pid : Z) (opts : wait_options) : not_in_child (waitpid P o pid opts).
Proof. nic_simple. Qed.

Lemma nic_GetTime : not_in_child (GetTime P o).
Proof. nic_simple. Qed.

Lemma nic_Sleep : not_in_child (Sleep P o).
Proof. nic_simple. Qed.

Lemma nic_sd_notify (m : sd_message) : not_in_child (sd_notify P o m).
Proof. nic_simple. Qed.

Lemma nic_atomic {A : Type} (f : world -> A * world) : not_in_child (atomic P o f).
Proof. nic_simple. Qed.

Lemma nic_sigprocmask_BLOCK : not_in_child (sigprocmask_BLOCK P o).
Proof. nic_simple. Qed.

Lemma nic_fork : not_in_child (fork P o).
Proof. nic_simple. Qed.

Lemma nic_sigprocmask_UNBLOCK : not_in_child (sigprocmask_UNBLOCK P o).
Proof.
  apply nic_bind; [apply nic_sync|].
  intros _ w r w' H. destruct (deliver_all_stop P _ _ _ _ H) as [sig ->]. discriminate.
Qed.

Lemma nic_base_or_exit (m : log_message) : not_in_child (base_or_exit P o m).
Proof.
  apply nic_bind; [apply nic_sync|]. intros n.
  destruct (o_throws o n); [|apply nic_ret].
  apply nic_bind; [apply nic_Log|]. intros _. apply nic_stop. discriminate.
Qed.

Lemma nic_NotifyWatchdog : not_in_child (ifdef_HAVE_SYSTEMD P (NotifyWatchdog P o)).
Proof.
  unfold ifdef_HAVE_SYSTEMD. destruct (HAVE_SYSTEMD P); [|apply nic_ret].
  apply nic_bind; [apply nic_GetTime | intros now].
  apply nic_bind; [apply nic_atomic | intros last].
  destruct (NotifyWatchdog_at now last) as [[] last']; [|apply nic_ret].
  apply nic_bind; [apply nic_sd_notify | intros _; apply nic_atomic].
Qed.

Lemma nic_waitpid_retry (fuel : nat) (pid : Z) : not_in_child (waitpid_retry P o fuel pid).
Proof.
  induction fuel as [|fuel IH]; [apply nic_stop; discriminate|].
  simpl. apply nic_bind; [apply nic_waitpid | intros r].
  destruct (interrupted P r); [|apply nic_ret].
  apply nic_bind; [apply nic_NotifyWatchdog | intros _; exact IH].
Qed.

Lemma nic_await_worker (fuel : nat) (pid : Z) : not_in_child (await_worker P o fuel pid).
Proof.
  induction fuel as [|fuel IH]; [apply nic_stop; discriminate|].
  simpl. apply nic_bind; [apply nic_NotifyWatchdog | intros _].
  apply nic_bind; [apply nic_atomic | intros st].
  destruct st.
  - apply nic_bind; [apply nic_Sleep | intros _; exact IH].
  - apply nic_bind; [apply nic_Log | intros _; apply nic_ret].
  - apply nic_bind; [apply nic_Log | intros _].
    apply nic_bind; [apply nic_waitpid_retry | intros _; apply nic_ret].
Qed.

(** The child of [StartUnixWorker] starts with the mask on, and with the
    [fork] that returned 0 as the last thing on record. *)
Lemma StartUnixWorker_InChild (fuel : nat) (w w' : world) :
  StartUnixWorker P o fuel w = Stop InChild w' -> sigblocked w' = true.
Proof.
  unfold StartUnixWorker. intros H.
  unfold bind at 1 in H.
  destruct (Log P o LogSpawning w) as [[] w1|r1 w1] eqn:E1;
    [|injection H as -> _; exfalso; exact (nic_Log _ _ _ _ E1 eq_refl)].
  unfold bind at 1 in H.
  destruct (base_or_exit P o LogUninitFailed w1) as [[] w2|r2 w2] eqn:E2;
    [|injection H as -> _; exfalso; exact (nic_base_or_exit _ _ _ _ E2 eq_refl)].
  unfold bind at 1 in H.
  destruct (sigprocmask_BLOCK P o w2) as [[] w3|r3 w3] eqn:E3.
  2:{ injection H as -> _. exfalso. exact (nic_sigprocmask_BLOCK _ _ _ E3 eq_refl). }
  assert (Hb3 : sigblocked w3 = true).
  { unfold sigprocmask_BLOCK, bind in E3.
    destruct (sync P o w2) as [n w2'|]; [|discriminate E3].
    injection E3 as <-. reflexivity. }
  unfold bind at 1 in H.
  destruct (fork P o w3) as [pid w4|r4 w4] eqn:E4.
  2:{ injection H as -> _. exfalso. exact (nic_fork _ _ _ E4 eq_refl). }
  assert (Hb4 : sigblocked w4 = true).
  { unfold fork, bind, emit, ret in E4. rewrite (sync_blocked P o w3 Hb3) in E4.
    injection E4 as _ <-. reflexivity. }
  destruct (pid =? -1).
  { exfalso. refine (nic_bind _ _ _ _ _ _ _ H eq_refl); [apply nic_Log|].
    intros _. apply nic_stop. discriminate. }
  destruct (pid =? 0).
  { injection H as <-. exact Hb4. }
  exfalso. refine (nic_bind _ _ _ _ _ _ _ H eq_refl); [apply nic_atomic | intros _].
  apply nic_bind; [apply nic_sigprocmask_UNBLOCK | intros _].
  apply nic_bind; [apply nic_Log | intros _].
  apply nic_bind; [apply nic_await_worker | intros pid'].
  apply nic_bind; [apply nic_atomic | intros _].
  apply nic_bind; [apply nic_atomic | intros _].
  apply nic_bind; [apply nic_base_or_exit | intros _; apply nic_ret].
Qed.

End Forked.

(** X13.  The child of [StartUnixWorker] never runs the umbrella's signal
    handler, although it inherits it: thanks to the mask set before the
    [fork], every signal that arrives before the child has installed its
    own dispositions is held back and handled by these.  The child's
    branch never returns into the umbrella's code, lets no exception
    escape, and never fails the [VERIFY] of [WorkerSignalHandler]: it ends
    by [_exit], or by the default action of [SIGUSR1] or [SIGHUP] - of the
    six signals no other can kill it - or runs on. *)
Theorem X13_child_never_runs_umbrella_handler
    (P : platform) (uo : oracle) (ufuel : nat) (w0 w : world)
    (co : child_oracle) (fuel : nat) :
  StartUnixWorker P uo ufuel w0 = Stop InChild w ->
  (forall e, In e (ch_trace (final_child (child_branch P co fuel (child_at_fork w)))) ->
     is_umbrella_handler e = false) /\
  exists r, reason_of (child_branch P co fuel (child_at_fork w)) = Some r /\
    match r with
    | CExited _ | COutOfFuel => True
    | CKilled sig => sig = SIGUSR1 P \/ sig = SIGHUP P
    | CAborted | CThrown => False
    end.
Proof.
  intros H. pose proof (StartUnixWorker_InChild P uo ufuel w0 w H) as Hb.
  destruct (child_branch_inv P co (l_UmbrellaPid w) fuel w Hb eq_refl)
    as ((_ & _ & _ & _ & Ho) & r & Hr & Hok & Hnt).
  split.
  - intros e He. destruct (in_split _ _ He) as (d1 & d2 & Heq).
    destruct (Ho d1 e d2 Heq) as [Hu _]. exact Hu.
  - exists r. split; [exact Hr|].
    destruct r; simpl in Hok; try exact I; try exact Hok. apply Hnt. reflexivity.
Qed.

Lemma X13_witness :
  (forall e,
     In e (ch_trace (final_child (child_branch (linux true) (worker_released 77) 5
             (child_at_fork (world_of (StartUnixWorker (linux true) becomes_child 1
                                         umbrella_77)))))) ->
     is_umbrella_handler e = false) /\
  exists r,
    reason_of (child_branch (linux true) (worker_released 77) 5
                 (child_at_fork (world_of (StartUnixWorker (linux true) becomes_child 1
                                             umbrella_77)))) = Some r /\
    match r with
    | CExited _ | COutOfFuel => True
    | CKilled sig => sig = SIGUSR1 (linux true) \/ sig = SIGHUP (linux true)
    | CAborted | CThrown => False
    end.
Proof.
  apply (X13_child_never_runs_umbrella_handler (linux true) becomes_child 1 umbrella_77).
  vm_compute. reflexivity.
Defined.

(** X14.  The gate of [RunWorker].  Whatever a worker does past the wait
    for [l_AllowedToWork] - restoring the program state, activating the
    configuration, running the application - it does only after it has
    reported to the umbrella and after its handler has handled a [SIGUSR2]
    sent by the umbrella itself.  A [SIGUSR2] from anyone else, and a
    termination signal from the umbrella, do not let it through. *)
Theorem X14_worker_waits_for_its_umbrella
    (P : platform) (uo : oracle) (ufuel : nat) (w0 w : world)
    (co : child_oracle) (fuel : nat) (d1 d2 : list child_event) (e : child_event) :
  StartUnixWorker P uo ufuel w0 = Stop InChild w ->
  ch_trace (final_child (child_branch P co fuel (child_at_fork w))) = d1 ++ e :: d2 ->
  is_beyond_gate e = true ->
  In (CEvWorkerHandler (SIGUSR2 P) (l_UmbrellaPid w)) d1 /\
  In (CEvKill (l_UmbrellaPid w) (SIGUSR2 P)) d1.
Proof.
  intros H Heq He. pose proof (StartUnixWorker_InChild P uo ufuel w0 w H) as Hb.
  destruct (child_branch_inv P co (l_UmbrellaPid w) fuel w Hb eq_refl)
    as ((_ & _ & _ & _ & Ho) & _).
  destruct (Ho d1 e d2 Heq) as (_ & _ & Hg). exact (Hg He).
Qed.

Lemma X14_witness :
  In (CEvWorkerHandler 12 77)
     [CEvCall InitializeBase (Returned 1); CEvLog WLogLoading;
      CEvCall LoadConfigFiles (Returned 1); CEvLog WLogNotifying;
      CEvKill 77 12; CEvWorkerHandler 12 77; CEvLog WLogWaiting] /\
  In (CEvKill 77 12)
     [CEvCall InitializeBase (Returned 1); CEvLog WLogLoading;
      CEvCall LoadConfigFiles (Returned 1); CEvLog WLogNotifying;
      CEvKill 77 12; CEvWorkerHandler 12 77; CEvLog WLogWaiting].
Proof.
  apply (X14_worker_waits_for_its_umbrella (linux true) becomes_child 1 umbrella_77
           (world_of (StartUnixWorker (linux true) becomes_child 1 umbrella_77))
           (worker_released 77) 5
           [CEvCall InitializeBase (Returned 1); CEvLog WLogLoading;
            CEvCall LoadConfigFiles (Returned 1); CEvLog WLogNotifying;
            CEvKill 77 12; CEvWorkerHandler 12 77; CEvLog WLogWaiting]
           [CEvCall RestoreObjects (Returned 1); CEvCall ActivateItems (Returned 1);
            CEvCall CreateStorage (Returned 1); CEvCall RemoveIgnoredItems (Returned 1);
            CEvCall UpdateObjectAuthority (Returned 1);
            CEvCall ApplicationRun (Returned 0)]
           (CEvLog WLogContinuing)).
  - vm_compute. reflexivity.
  - vm_compute. reflexivity.
  - reflexivity.
Defined.

(** X15.  The code of the child's branch of [StartUnixWorker] and of
    [RunWorker] itself issues one [kill] only: the [SIGUSR2] to the umbrella
    that reports the configuration as loaded (line 231), and it issues it
    only after [LoadConfigFiles] has returned [true].  On the path of a
    configuration that does not load, this code signals nobody.  What the
    functions it calls may send - the application run of line 260 and the
    other calls into the rest of the program, which has been told the
    umbrella's pid at line 624 - lies outside this model. *)
Theorem X15_RunWorker_signals_success_only
    (P : platform) (uo : oracle) (ufuel : nat) (w0 w : world)
    (co : child_oracle) (fuel : nat) (d1 d2 : list child_event) (e : child_event) :
  StartUnixWorker P uo ufuel w0 = Stop InChild w ->
  ch_trace (final_child (child_branch P co fuel (child_at_fork w))) = d1 ++ e :: d2 ->
  is_child_kill e = true ->
  e = CEvKill (l_UmbrellaPid w) (SIGUSR2 P) /\
  existsb is_config_loaded d1 = true.
Proof.
  intros H Heq He. pose proof (StartUnixWorker_InChild P uo ufuel w0 w H) as Hb.
  destruct (child_branch_inv P co (l_UmbrellaPid w) fuel w Hb eq_refl)
    as ((_ & _ & _ & _ & Ho) & _).
  destruct (Ho d1 e d2 Heq) as (_ & Hk & _). exact (Hk He).
Qed.

Lemma X15_witness :
  CEvKill 77 12 = CEvKill 77 12 /\
  existsb is_config_loaded
    [CEvCall InitializeBase (Returned 1); CEvLog WLogLoading;
     CEvCall LoadConfigFiles (Returned 1); CEvLog WLogNotifying] = true.
Proof.
  apply (X15_RunWorker_signals_success_only (linux true) becomes_child 1 umbrella_77
           (world_of (StartUnixWorker (linux true) becomes_child 1 umbrella_77))
           (worker_released 77) 5
           [CEvCall InitializeBase (Returned 1); CEvLog WLogLoading;
            CEvCall LoadConfigFiles (Returned 1); CEvLog WLogNotifying]
           [CEvWorkerHandler 12 77; CEvLog WLogWaiting; CEvLog WLogContinuing;
            CEvCall RestoreObjects (Returned 1); CEvCall ActivateItems (Returned 1);
            CEvCall CreateStorage (Returned 1); CEvCall RemoveIgnoredItems (Returned 1);
            CEvCall UpdateObjectAuthority (Returned 1);
            CEvCall ApplicationRun (Returned 0)]
           (CEvKill 77 12)).
  - vm_compute. reflexivity.
  - vm_compute. reflexivity.
  - reflexivity.
Defined.

(** ** The start state while no handler is interrupted *)

(** X16.  As long as no invocation of the handler is interrupted by another
    one (each signal is handled by [deliver]): (1) in every run of the
    umbrella, under every interleaving of signal deliveries with the steps
    of the main flow, each change of the worker start state is a step from
    [Pending] to [LoadedConfig], a step from [Pending] to [Failed], or a
    reset to [Pending]; so [LoadedConfig] never turns into [Failed] nor
    [Failed] into [LoadedConfig].  (2) When [StartUnixWorker] returns, the
    start state is [Pending] and the currently-starting-worker PID is [-1]
    (given that no signal names [-1] as its sender). *)
Theorem X16_start_state_transitions_unnested
    (P : platform) (o : oracle) (fuel : nat) :
  (forall w h1 a b h2,
     history_ok w ->
     state_history (world_of (Run P o fuel w)) = h1 ++ a :: b :: h2 ->
     (a = Pending /\ (b = LoadedConfig \/ b = Failed)) \/ b = Pending) /\
  (forall w pid w',
     senders_are_processes o ->
     StartUnixWorker P o fuel w = Ok pid w' ->
     l_CurrentlyStartingUnixWorkerState w' = Pending /\
     l_CurrentlyStartingUnixWorkerPid w' = -1).
Proof.
  split.
  - intros w h1 a b h2 Hw Hh.
    destruct (Run_history_kept P o fuel w Hw) as (Hok & _).
    rewrite Hh in Hok. apply allowed_transition_cases.
    eapply transitions_ok_adjacent. exact Hok.
  - intros w pid w'. apply StartUnixWorker_resets.
Qed.

Lemma X16_witness :
  l_CurrentlyStartingUnixWorkerState
    (world_of (StartUnixWorker (linux true) startup_succeeds 3
                 (set_tick 6 (handlers_installed (linux true) initial_world)))) = Pending /\
  l_CurrentlyStartingUnixWorkerPid
    (world_of (StartUnixWorker (linux true) startup_succeeds 3
                 (set_tick 6 (handlers_installed (linux true) initial_world)))) = -1.
Proof.
  destruct (X16_start_state_transitions_unnested (linux true) startup_succeeds 3) as [_ H].
  apply (H (set_tick 6 (handlers_installed (linux true) initial_world)) 200).
  - intros n s Hin. unfold startup_succeeds, scripted in Hin. simpl in Hin.
    destruct (Nat.eqb n 11); [|contradiction Hin].
    destruct Hin as [<- | []]. simpl. lia.
  - vm_compute. reflexivity.
Defined.

(** ** Why the main loop returns *)

(** X17.  The main loop returns by the worker-exit path only.  Whenever it
    returns, the last things it did were a non-blocking [waitpid] on the
    active worker that returned a positive value, the "stopped" log line
    for that worker and at most the "stopping" notification; and the value
    returned is the translation (line 748) of the status the [waitpid]
    stored. *)
Theorem X17_umbrella_returns_the_worker_status
    (P : platform) (o : oracle) (fuel : nat) (currentWorker : Z)
    (requestedTermination notifiedTermination : bool) (w w' : world) (code : Z) :
  main_loop P o fuel currentWorker requestedTermination notifiedTermination w
  = Ok code w' ->
  exists pre r post,
    trace w' = trace w ++ pre
               ++ EvWaitpid (active_worker P currentWorker pre) WNOHANG r
               :: EvLog (LogWorkerStopped (active_worker P currentWorker pre)) :: post /\
    (post = [] \/ post = [EvSdNotify SD_STOPPING]) /\
    0 < w_ret r /\ code = exit_status_of (w_status r).
Proof.
  intros H.
  destruct (fated_main_loop P o fuel currentWorker requestedTermination
              notifiedTermination w) as (d & Hd & Hf & Hs).
  rewrite H in Hd, Hs. simpl in Hd, Hs.
  destruct Hs as (d0 & pid & r & tail & -> & _ & Hpos & Htail & Hcode).
  rewrite follows_worker_app in Hf. apply andb_prop in Hf. destruct Hf as [_ Hf].
  simpl in Hf. apply andb_prop in Hf. destruct Hf as [Hf _].
  apply Z.eqb_eq in Hf. subst pid.
  exists d0, r, tail. auto.
Qed.

Lemma X17_witness :
  exists pre r post,
    trace (world_of (main_loop (linux true) worker_killed 1 101 false false
                       (handlers_installed (linux true) initial_world)))
    = trace (handlers_installed (linux true) initial_world) ++ pre
      ++ EvWaitpid (active_worker (linux true) 101 pre) WNOHANG r
      :: EvLog (LogWorkerStopped (active_worker (linux true) 101 pre)) :: post /\
    (post = [] \/ post = [EvSdNotify SD_STOPPING]) /\
    0 < w_ret r /\ 137 = exit_status_of (w_status r).
Proof.
  apply (X17_umbrella_returns_the_worker_status (linux true) worker_killed 1 101 false false
           (handlers_installed (linux true) initial_world)
           (world_of (main_loop (linux true) worker_killed 1 101 false false
                        (handlers_installed (linux true) initial_world)))
           137).
  vm_compute. reflexivity.
Defined.
